(** * multi-vector-simulator: csv ingestion and parameter utilities

    A shallow embedding of

    - [src/A1_csv_to_json.py]: [create_input_json], [create_json_from_csv],
      [conversion], [add_storage_components];
    - [src/multi_vector_simulator/utils/__init__.py]:
      [compare_input_parameters_with_reference], [warn_missing_parameters],
      [set_nested_value], [get_nested_value], [split_nested_path],
      [find_json_input_folders], [find_csv_input_folders].

    Conventions of the embedding.

    - Python [int] is [Z]; [str] is [string]; a [dict] is an association
      list in insertion order whose keys are pairwise distinct ([{}] is
      [[]], [d[k] = v] is [dict_set]); a [set] is a list without
      repetition, and statements about what a loop over a set produces are
      made by membership, since Python fixes no iteration order for sets.
    - [logging] calls append a [diag] to a log; every call site has its own
      [message] constructor carrying the call's arguments.
    - A Python exception is [Raise e]; a computation is a log together with
      a [result]. Where a function writes to an object of its caller (a
      list, a dict, the input directory), the object as the call leaves it
      is returned next to the computation.
    - The files of the input directory are named relative to it.
    - Floating point is not interpreted: the type of floats, the value NaN
      and the builtin [float] on text are the fields of [PyFloat];
      [json.loads] is the field of [PyJson].
    - The modules [src.constants], [utils.constants] and
      [utils.constants_json_strings] are not part of the sources at hand;
      the names imported from them are the fields of [CsvConstants] and
      [MvsConstants]. *)

From Stdlib Require Import ZArith List String Ascii Bool Lia Permutation.
Import ListNotations.
Open Scope string_scope.
Open Scope list_scope.

Set Implicit Arguments.

(* ================================================================= *)
(** ** Text *)

(** [c in s] for a one-character [c]. *)
Fixpoint char_in (c : ascii) (s : string) : bool :=
  match s with
  | EmptyString => false
  | String a r => Ascii.eqb a c || char_in c r
  end.

(** [needle in hay] on text. *)
Fixpoint str_contains (needle hay : string) : bool :=
  prefix needle hay ||
  match hay with
  | EmptyString => false
  | String _ r => str_contains needle r
  end.

(** [s.replace(c, "")]. *)
Fixpoint remove_char (c : ascii) (s : string) : string :=
  match s with
  | EmptyString => EmptyString
  | String a r => if Ascii.eqb a c then remove_char c r
                  else String a (remove_char c r)
  end.

(** [s.replace(c, d)] for one-character [c] and [d]. *)
Fixpoint replace_char (c d : ascii) (s : string) : string :=
  match s with
  | EmptyString => EmptyString
  | String a r => String (if Ascii.eqb a c then d else a) (replace_char c d r)
  end.

(** [s.split(c)]: the result is never empty, [split_on c ""] is [[""]]. *)
Fixpoint split_on (c : ascii) (s : string) : list string :=
  match s with
  | EmptyString => [EmptyString]
  | String a r =>
      if Ascii.eqb a c then EmptyString :: split_on c r
      else match split_on c r with
           | [] => [String a EmptyString]
           | w :: ws => String a w :: ws
           end
  end.

(** [s[:-n]]. *)
Definition drop_last (n : nat) (s : string) : string :=
  substring 0 (String.length s - n) s.

Definition quote : ascii := "034"%char.
Definition apostrophe : ascii := "039"%char.

(** Characters that [int] skips around a literal. *)
Definition is_space (c : ascii) : bool :=
  let n := nat_of_ascii c in
  (Nat.leb 9 n && Nat.leb n 13) || (Nat.leb 28 n && Nat.leb n 32).

Definition digit_of (c : ascii) : option Z :=
  let n := nat_of_ascii c in
  if Nat.leb 48 n && Nat.leb n 57 then Some (Z.of_nat (n - 48)) else None.

Fixpoint lstrip (s : string) : string :=
  match s with
  | String a r => if is_space a then lstrip r else s
  | EmptyString => EmptyString
  end.

Fixpoint rstrip (s : string) : string :=
  match s with
  | EmptyString => EmptyString
  | String a r =>
      match rstrip r with
      | EmptyString => if is_space a then EmptyString else String a EmptyString
      | r' => String a r'
      end
  end.

(** Decimal digits with single underscores between them; [need] says that
    the next character has to be a digit. *)
Fixpoint int_digits (s : string) (acc : Z) (need : bool) : option Z :=
  match s with
  | EmptyString => if need then None else Some acc
  | String a r =>
      match digit_of a with
      | Some d => int_digits r (10 * acc + d)%Z false
      | None =>
          if Ascii.eqb a "_" && negb need then int_digits r acc true else None
      end
  end.

(** The builtin [int] on text, base ten, for ASCII text: [None] stands
    for [ValueError]. *)
Definition int_of_str (s : string) : option Z :=
  match rstrip (lstrip s) with
  | String "-" r => option_map Z.opp (int_digits r 0%Z true)
  | String "+" r => int_digits r 0%Z true
  | t => int_digits t 0%Z true
  end.

Definition str_mem (x : string) (l : list string) : bool :=
  existsb (String.eqb x) l.

(* ================================================================= *)
(** ** Sets of names *)

(** [set(l)]. *)
Definition py_set (l : list string) : list string := nodup string_dec l.

(** [a - b] on sets. *)
Definition set_diff (a b : list string) : list string :=
  filter (fun x => negb (str_mem x b)) a.

(** [a ^ b] on sets. Python fixes no order for the elements of a set:
    the order of this list ([a - b], then [b - a]) is one of the orders
    in which [list(a ^ b)] can come, and what is stated of a loop over
    it is stated for every order, by membership or up to permutation. *)
Definition set_xor (a b : list string) : list string :=
  set_diff a b ++ set_diff b a.

(* ================================================================= *)
(** ** Values, exceptions, logging *)

Class PyFloat : Type := {
  pyfloat : Type;
  float_nan : pyfloat;
  (** [float(s)]; [None] stands for [ValueError]. *)
  float_of_str : string -> option pyfloat
}.

Section Values.
Context {F : PyFloat}.

(** What a parameter can hold once it is in the configuration tree. *)
#[warnings="-register-all"]
Inductive value : Type :=
| VNone
| VBool (b : bool)
| VInt (z : Z)
| VFloat (f : pyfloat)
| VStr (s : string)
| VList (l : list value)
| VDict (d : list (string * value)).

Abbreviation dict := (list (string * value)).

Fixpoint dict_get (A : Type) (d : list (string * A)) (k : string) : option A :=
  match d with
  | [] => None
  | (k', v) :: r => if String.eqb k' k then Some v else dict_get r k
  end.

(** [d[k] = v]: an existing key keeps its place, a new one goes last. *)
Fixpoint dict_set (A : Type) (d : list (string * A)) (k : string) (v : A)
  : list (string * A) :=
  match d with
  | [] => [(k, v)]
  | (k', v') :: r =>
      if String.eqb k' k then (k, v) :: r else (k', v') :: dict_set r k v
  end.

(** [d.update(e)]. *)
Definition dict_update (A : Type) (d e : list (string * A))
  : list (string * A) :=
  fold_left (fun acc kv => dict_set acc (fst kv) (snd kv)) e d.

Definition dict_keys (A : Type) (d : list (string * A)) : list string :=
  map fst d.

Definition dict_has (A : Type) (d : list (string * A)) (k : string) : bool :=
  match dict_get d k with Some _ => true | None => false end.

End Values.

(** A Python dict of values. *)
Abbreviation dict := (list (string * value)).

Inductive exn : Type :=
| FileExistsError
| FileNotFoundError
| ParserError
| JSONDecodeError
| ValueError
| TypeError
| KeyError
| IndexError
| AttributeError
| RuntimeError
| UnboundLocalError
| MissingParameterError.

Inductive result (A : Type) : Type :=
| Ok (a : A)
| Raise (e : exn)
| OutOfFuel.
Arguments Ok {A} a.
Arguments Raise {A} e.
Arguments OutOfFuel {A}.

Inductive level : Type := DEBUG | INFO | WARNING | ERROR.

(** One constructor per logging call of the two modules. *)
Inductive message : Type :=
(* create_input_json *)
| MsgLoadingAll
| MsgFileNotRecognized (f : string)
| MsgRequiredFileMissing (name : string)
| MsgUnknownFilename (name : string)
| MsgJsonStored
| MsgJsonCreated
(* create_json_from_csv *)
| MsgLoadingCsv (filename : string)
| MsgMaximumCapNotUsed (filename : string)
| MsgParameterMissing (filename i : string)
| MsgParameterNotRecognized (filename i : string)
| MsgNoAssets (filename : string)
| MsgStorageColumnCount (filename : string) (n : nat)
| MsgStorageColumnInvalid (filename column : string)
| MsgStorageParameterMissing (filename i column : string)
| MsgStorageParameterNotRecognized (filename i : string)
| MsgStorageShouldBeNaN (filename i column : string)
| MsgStorageNaNCorrect (filename i column : string)
| MsgStorageNaNSetToZero (filename i column : string)
| MsgBracketMissing (filename column i : string)
| MsgDefinedAsList (i column : string)
| MsgAssetsAdded (filename names : string)
(* conversion *)
| MsgBraceMissing (filename column i : string)
| MsgDefinedAsTimeseries (i column : string)
| MsgNotBoolean
(* add_storage_components *)
| MsgStorageFileMissing (storage_filename : string)
(* compare_input_parameters_with_reference *)
| MsgDefaultNonAsset (sp mp : string)
| MsgDefaultAsset (sp k mp : string).

Inductive diag : Type := Log (lvl : level) (msg : message).

(** A computation that logs and may raise. *)
Definition M (A : Type) : Type := (list diag * result A)%type.

Definition ret (A : Type) (a : A) : M A := ([], Ok a).
Definition raise (A : Type) (e : exn) : M A := ([], Raise e).
Arguments raise {A} e.
Definition logging (lvl : level) (msg : message) : M unit :=
  ([Log lvl msg], Ok tt).

Definition bind (A B : Type) (m : M A) (k : A -> M B) : M B :=
  match m with
  | (l, Ok a) => let (l', r) := k a in (l ++ l', r)
  | (l, Raise e) => (l, Raise e)
  | (l, OutOfFuel) => (l, OutOfFuel)
  end.

Definition lift (A : Type) (e : exn) (o : option A) : M A :=
  match o with Some a => ret a | None => raise e end.

Declare Scope py_scope.
Delimit Scope py_scope with py.
Notation "x <- m ;; k" := (bind m (fun x => k))
  (at level 61, m at next level, right associativity) : py_scope.
Notation "' p <- m ;; k" := (bind m (fun p => k))
  (at level 61, p pattern, m at next level, right associativity) : py_scope.
Notation "m ;;; k" := (bind m (fun _ => k))
  (at level 61, right associativity) : py_scope.
Open Scope py_scope.

(** A [for] loop that threads a state through its body. *)
Fixpoint for_each (A S : Type) (body : S -> A -> M S) (l : list A) (s : S)
  : M S :=
  match l with
  | [] => ret s
  | a :: r => s' <- body s a ;; for_each body r s'
  end.

(* ================================================================= *)
(** ** Tables and files *)

(** A cell of a table read by [pd.read_csv]. The tables of this program
    carry text in every column (the rows [unit] and [label] are text), so
    a cell is a [str] or the missing value NaN; the storage branch of
    [create_json_from_csv] also writes the integer [0] into cells. A
    column without any text is read by pandas as a column of numbers;
    tables with such a column are not part of this embedding. *)
Inductive cell : Type :=
| CellStr (s : string)
| CellNaN
| CellInt (z : Z).

(** A row as [df.iterrows()] yields it: indexed by the table's columns; a
    column without an entry holds NaN. *)
Record Series : Type := {
  s_index : list string;
  s_data : list (string * cell)
}.

(** [index_col=0]: the first column of the file is the row label, the
    remaining ones are [df_columns]. Row labels are text. *)
Record DataFrame : Type := {
  df_columns : list string;
  df_rows : list (string * list (string * cell))
}.

Definition cell_at (data : list (string * cell)) (c : string) : cell :=
  match dict_get data c with Some v => v | None => CellNaN end.

(** [row[c]]. *)
Definition series_get (row : Series) (c : string) : M cell :=
  if str_mem c (s_index row) then ret (cell_at (s_data row) c)
  else raise KeyError.

Definition df_index (df : DataFrame) : list string := map fst (df_rows df).

(** [df.iterrows()]. *)
Definition iterrows (df : DataFrame) : list (string * Series) :=
  map (fun r => (fst r, {| s_index := df_columns df; s_data := snd r |}))
      (df_rows df).

(** [pd.isnull] on a cell. *)
Definition isnull (c : cell) : bool :=
  match c with CellNaN => true | _ => false end.

(** [df.at[i, column]] for [i] in the index and [column] among the
    columns: the cell when the label [i] occurs once, and no scalar (a
    Series) when the label is repeated. *)
Definition df_at (df : DataFrame) (i column : string) : option cell :=
  match filter (fun r => String.eqb (fst r) i) (df_rows df) with
  | [r] => Some (cell_at (snd r) column)
  | _ => None
  end.

(** [df.loc[[i], [column]] = v]: every row labelled [i] is written. *)
Definition df_set (df : DataFrame) (i column : string) (v : cell)
  : DataFrame :=
  {| df_columns := df_columns df;
     df_rows := map (fun r => if String.eqb (fst r) i
                              then (fst r, dict_set (snd r) column v)
                              else r) (df_rows df) |}.

(** [df[df[column].notna()]]. *)
Definition df_notna (df : DataFrame) (column : string) : DataFrame :=
  {| df_columns := df_columns df;
     df_rows := filter (fun r => negb (isnull (cell_at (snd r) column)))
                       (df_rows df) |}.

Definition cell_eq_str (c : cell) (s : string) : bool :=
  match c with CellStr t => String.eqb t s | _ => false end.

(** [isinstance(v, str) and (a in v or b in v)]. *)
Definition str_with_either (a b : ascii) (v : cell) : bool :=
  match v with CellStr s => char_in a s || char_in b s | _ => false end.

Section Csv.
Context {F : PyFloat}.

Definition value_of_cell (c : cell) : value :=
  match c with
  | CellStr s => VStr s
  | CellNaN => VFloat float_nan
  | CellInt z => VInt z
  end.

(** What [json.loads] makes of a text; [None] stands for
    [JSONDecodeError]. *)
Class PyJson : Type := { json_loads : string -> option value }.

(** A file of the input directory: tabular text, given by what
    [pd.read_csv(..., sep, header=0, index_col=0)] makes of it for each
    separator ([None] when pandas raises); the json artifact, given by the
    tree it serializes; or anything else. *)
Inductive file : Type :=
| FileCsv (read_csv : string -> option DataFrame)
| FileJson (tree : value)
| FileOther.

(** The input directory: file name to file, in [os.listdir] order. *)
Definition filesystem : Type := list (string * file).

(** [os.path.exists(os.path.join(input_directory, name))]. *)
Definition path_exists (fs : filesystem) (name : string) : bool :=
  dict_has fs name.

Definition pd_read_csv (fs : filesystem) (name sep : string) : M DataFrame :=
  match dict_get fs name with
  | None => raise FileNotFoundError
  | Some (FileCsv read_csv) => lift ParserError (read_csv sep)
  | Some _ => raise ParserError
  end.

(** The names imported from [src.constants]. [REQUIRED_CSV_PARAMETERS] is
    a dict of lists that the program appends to, so it is threaded as
    state by [create_input_json] and is not a field here. *)
Class CsvConstants : Type := {
  CSV_FNAME : string;
  CSV_SEPARATORS : list string;
  REQUIRED_CSV_FILES : list string
}.

Context {J : PyJson} {K : CsvConstants}.

(* ----------------------------------------------------------------- *)
(** *** [conversion] (lines 385-429) *)

(** [try: int(value) except: float(value)] (lines 423-426). *)
Definition int_or_float (v : cell) : M value :=
  match v with
  | CellInt z => ret (VInt z)
  | CellNaN => ret (VFloat float_nan)
  | CellStr s =>
      match int_of_str s with
      | Some z => ret (VInt z)
      | None =>
          match float_of_str s with
          | Some f => ret (VFloat f)
          | None => raise ValueError
          end
      end
  end.

Definition cell_in (v : cell) (l : list string) : bool :=
  match v with CellStr s => str_mem s l | _ => false end.

Definition conversion (filename : string) (column_dict : dict) (row : Series)
    (i column : string) (value : cell) : M dict :=
  if str_with_either "{" "}" value then
    match value with
    | CellStr s =>
        if negb (char_in "{" s) || negb (char_in "}" s) then
          logging WARNING (MsgBraceMissing filename column i) ;;;
          ret column_dict
        else
          let dict_string := replace_char apostrophe quote s in
          value_dict <- lift JSONDecodeError (json_loads dict_string) ;;
          let column_dict := dict_set column_dict i value_dict in
          logging INFO (MsgDefinedAsTimeseries i column) ;;;
          ret column_dict
    | _ => ret column_dict
    end
  else
    unit <- series_get row "unit" ;;
    if cell_eq_str unit "str" then
      ret (dict_set column_dict i (value_of_cell value))
    else
      value <- (if cell_eq_str unit "bool" then
                  if cell_in value ["True"; "true"; "t"] then ret (VBool true)
                  else if cell_in value ["False"; "false"; "F"] then
                    ret (VBool false)
                  else
                    logging WARNING MsgNotBoolean ;;;
                    ret (value_of_cell value)
                else
                  if cell_eq_str value "None" then ret VNone
                  else int_or_float value) ;;
      ret (dict_set column_dict i
             (VDict [("value", value); ("unit", value_of_cell unit)])).

(* ----------------------------------------------------------------- *)
(** *** [create_json_from_csv] (lines 131-382) *)

(** Lines 164-184: the first separator that yields a column wins. *)
Fixpoint find_separator (fs : filesystem) (filename : string)
    (separators : list string) : M DataFrame :=
  match separators with
  | [] => raise ValueError
  | sep :: rest =>
      df <- pd_read_csv fs (filename ++ ".csv")%string sep ;;
      if Nat.ltb 0 (List.length (df_columns df)) then ret df
      else find_separator fs filename rest
  end.

(** Lines 200-219: the loop over [extra], in the order in which the
    list [extra] holds the names. *)
Definition check_parameters_over (filename : string)
    (parameters extra : list string) : M unit :=
  for_each (fun _ i =>
              if str_mem i parameters
              then logging ERROR (MsgParameterMissing filename i)
              else logging ERROR (MsgParameterNotRecognized filename i))
           extra tt.

(** Lines 197-219, the check made when [storage is False]. *)
Definition check_parameters (filename : string) (parameters index : list string)
  : M unit :=
  let extra := set_xor (py_set parameters) (py_set index) in
  check_parameters_over filename parameters extra.

Definition storage_only_parameters : list string :=
  ["c_rate"; "opex_var"; "soc_initial"; "soc_max"; "soc_min"].

(** Lines 263-304: one step of the loop over [df_copy.index]. *)
Definition storage_check_row (filename column : string)
    (column_parameters : list string) (df_copy : DataFrame) (i : string)
  : M DataFrame :=
  if negb (str_mem i column_parameters) then
    if negb (str_mem i storage_only_parameters) then
      logging WARNING (MsgStorageParameterNotRecognized filename i) ;;;
      ret (df_set df_copy i column (CellStr "NaN"))
    else if match df_at df_copy i column with
            | Some c => negb (isnull c)
            | None => false
            end then
      logging WARNING (MsgStorageShouldBeNaN filename i column) ;;;
      ret (df_set df_copy i column (CellStr "NaN"))
    else
      logging DEBUG (MsgStorageNaNCorrect filename i column) ;;;
      ret df_copy
  else if match df_at df_copy i column with
          | Some c => isnull c
          | None => false
          end then
    logging WARNING (MsgStorageNaNSetToZero filename i column) ;;;
    ret (df_set df_copy i column (CellInt 0))
  else ret df_copy.

(** Lines 245-248: the parameters that the role of a column adds. *)
Definition role_parameters (column : string) : option (list string) :=
  if String.eqb column "storage capacity" then
    Some ["soc_initial"; "soc_max"; "soc_min"]
  else if String.eqb column "input power" || String.eqb column "output power"
  then Some ["c_rate"; "opex_var"]
  else None.

(** Lines 236-306, the storage branch for one column. [extra] is the local
    variable of that name: unbound ([None]) until a column with a valid
    role name has been met. The result is the variable [extra], the table
    [df_copy] and the filtered table [df]. *)
Definition storage_check_column (filename column : string)
    (parameters : list string) (extra : option (list string))
    (df_copy : DataFrame)
  : M (option (list string) * DataFrame * DataFrame) :=
  (if negb (Nat.eqb (List.length (df_columns df_copy)) 4) then
     logging ERROR (MsgStorageColumnCount filename
                      (List.length (df_columns df_copy)))
   else ret tt) ;;;
  extra <- (match role_parameters column with
            | Some role => ret (Some role)
            | None =>
                logging ERROR (MsgStorageColumnInvalid filename column) ;;;
                ret extra
            end) ;;
  extra_now <- lift UnboundLocalError extra ;;
  let column_parameters := parameters ++ extra_now in
  for_each (fun _ i =>
              logging WARNING (MsgStorageParameterMissing filename i column))
           (set_diff (py_set column_parameters) (py_set (df_index df_copy)))
           tt ;;;
  df_copy <- for_each (storage_check_row filename column column_parameters)
                      (df_index df_copy) df_copy ;;
  ret (extra, df_copy, df_notna df_copy column).

(** [k in v] for a text [k]. *)
Definition py_contains (k : string) (v : value) : M bool :=
  match v with
  | VDict d => ret (dict_has d k)
  | VStr s => ret (str_contains k s)
  | VList l =>
      ret (existsb (fun x => match x with
                             | VStr s => String.eqb s k
                             | _ => false
                             end) l)
  | _ => raise TypeError
  end.

(** [v[k]] for a text [k]. *)
Definition py_getitem (v : value) (k : string) : M value :=
  match v with
  | VDict d => lift KeyError (dict_get d k)
  | _ => raise TypeError
  end.

(** Lines 326-340: one item of a bracketed list. The state is
    [column_dict] and the part of [value_list] already replaced. *)
Definition convert_list_item (filename : string) (row : Series)
    (i column : string) (st : dict * list value) (item : string)
  : M (dict * list value) :=
  let (column_dict, converted) := st in
  column_dict <- conversion filename column_dict row i column (CellStr item) ;;
  unit <- series_get row "unit" ;;
  if negb (cell_eq_str unit "str") then
    entry <- lift KeyError (dict_get column_dict i) ;;
    has_value <- py_contains "value" entry ;;
    if has_value then
      v <- py_getitem entry "value" ;;
      ret (column_dict, converted ++ [v])
    else
      ret (column_dict, converted ++ [entry])
  else
    entry <- lift KeyError (dict_get column_dict i) ;;
    ret (column_dict, converted ++ [entry]).

(** Lines 307-354: one row of the loop over [df.iterrows()]. The state is
    [column_dict] and [asset_name_string]. *)
Definition convert_row (filename column : string) (st : dict * string)
    (r : string * Series) : M (dict * string) :=
  let (column_dict, asset_name_string) := st in
  let (i, row) := r in
  asset_name_string <-
    (if String.eqb i "label" then
       c <- series_get row column ;;
       match c with
       | CellStr s => ret (asset_name_string ++ s ++ ", ")%string
       | _ => raise TypeError
       end
     else ret asset_name_string) ;;
  c <- series_get row column ;;
  if str_with_either "[" "]" c then
    match c with
    | CellStr s =>
        if negb (char_in "[" s) || negb (char_in "]" s) then
          logging WARNING (MsgBracketMissing filename column i) ;;;
          ret (column_dict, asset_name_string)
        else
          let value_string := remove_char "]" (remove_char "[" s) in
          let value_list := split_on ";" value_string in
          '(column_dict, value_list) <-
             for_each (convert_list_item filename row i column)
                      value_list (column_dict, []) ;;
          unit <- series_get row "unit" ;;
          let column_dict :=
            if negb (cell_eq_str unit "str") then
              dict_set column_dict i
                (VDict [("value", VList value_list);
                        ("unit", value_of_cell unit)])
            else dict_set column_dict i (VList value_list) in
          logging INFO (MsgDefinedAsList i column) ;;;
          ret (column_dict, asset_name_string)
    | _ => ret (column_dict, asset_name_string)
    end
  else
    column_dict <- conversion filename column_dict row i column c ;;
    ret (column_dict, asset_name_string).

(** The variables that the loop over the columns carries. *)
Record loop_state : Type := {
  single_dict : dict;
  asset_name_string : string;
  df : DataFrame;
  df_copy : DataFrame;
  extra : option (list string)
}.

(** [df.loc["storage_filename"][column][:-4]] (line 360). A repeated
    label makes the slice a Series and not a file name; the call then
    ends in the same [TypeError] as a missing file does. *)
Definition storage_filename_of (df : DataFrame) (column : string) : M string :=
  match filter (fun r => String.eqb (fst r) "storage_filename") (df_rows df) with
  | [] => raise KeyError
  | [r] =>
      if str_mem column (df_columns df) then
        match cell_at (snd r) column with
        | CellStr s => ret (drop_last 4 s)
        | _ => raise TypeError
        end
      else raise KeyError
  | _ => raise TypeError
  end.

(** Lines 231-362: one column. [add_storage] is
    [add_storage_components] for this input directory. *)
Definition convert_column (add_storage : string -> M (option dict))
    (filename : string) (parameters : list string) (storage : bool)
    (st : loop_state) (column : string) : M loop_state :=
  if negb (String.eqb column "unit") then
    let column_dict : dict := [] in
    '(extra, df_copy, df) <-
       (if storage then
          storage_check_column filename column parameters (extra st)
                               (df_copy st)
        else ret (extra st, df_copy st, df st)) ;;
    '(column_dict, asset_name_string) <-
       for_each (convert_row filename column) (iterrows df)
                (column_dict, asset_name_string st) ;;
    let single_dict := dict_set (single_dict st) column (VDict column_dict) in
    single_dict <-
      (if String.eqb filename "energyStorage" then
         name <- storage_filename_of df column ;;
         storage_dict <- add_storage name ;;
         match storage_dict with
         | Some sd =>
             ret (dict_set single_dict column
                    (VDict (dict_update column_dict sd)))
         | None => raise TypeError
         end
       else ret single_dict) ;;
    ret {| single_dict := single_dict;
           asset_name_string := asset_name_string;
           df := df; df_copy := df_copy; extra := extra |}
  else ret st.

(** Lines 221-382: everything after the parameter check. *)
Definition convert_table (add_storage : string -> M (option dict))
    (filename : string) (parameters : list string) (storage : bool)
    (df : DataFrame) : M dict :=
  (if Nat.eqb (List.length (df_columns df)) 1
   then logging DEBUG (MsgNoAssets filename) else ret tt) ;;;
  let st := {| single_dict := []; asset_name_string := "";
               df := df; df_copy := df;
               extra := if storage then None
                        else Some (set_xor (py_set parameters)
                                           (py_set (df_index df))) |} in
  st <- for_each (convert_column add_storage filename parameters storage)
                 (df_columns df) st ;;
  logging INFO (MsgAssetsAdded filename (drop_last 2 (asset_name_string st))) ;;;
  if str_mem filename ["economic_data"; "project_data"; "simulation_settings"]
  then ret (single_dict st)
  else if storage then ret (single_dict st)
  else ret [(filename, VDict (single_dict st))].

(** The body of [create_json_from_csv]. The first component of the result
    is the list object [parameters] as the call leaves it: line 189
    appends to the caller's list. *)
Definition create_json_from_csv_body
    (add_storage : string -> M (option dict)) (fs : filesystem)
    (filename : string) (parameters : list string) (storage : bool)
  : list string * M dict :=
  match (logging DEBUG (MsgLoadingCsv filename) ;;;
         find_separator fs filename CSV_SEPARATORS) with
  | (log, Ok df) =>
      let new_parameter := "maximumCap" in
      let present := str_mem new_parameter (df_index df) in
      let parameters :=
        if present then parameters ++ [new_parameter] else parameters in
      (parameters,
       (log, Ok tt) ;;;
       (if present then ret tt
        else logging WARNING (MsgMaximumCapNotUsed filename)) ;;;
       (if negb storage then check_parameters filename parameters (df_index df)
        else ret tt) ;;;
       convert_table add_storage filename parameters storage df)
  | (log, Raise e) => (parameters, (log, Raise e))
  | (log, OutOfFuel) => (parameters, (log, OutOfFuel))
  end.

(** The list of parameters common to the three columns of a storage
    table (lines 450-460). *)
Definition storage_parameters : list string :=
  ["age_installed"; "capex_fix"; "capex_var"; "efficiency"; "installedCap";
   "label"; "lifetime"; "opex_fix"; "unit"].

(** [add_storage_components] (lines 432-467), over the function it calls.
    [None] is the [None] that the function returns when it falls off its
    first branch. *)
Definition add_storage_components_with
    (create : string -> list string -> bool -> list string * M dict)
    (fs : filesystem) (storage_filename : string) : M (option dict) :=
  if negb (path_exists fs (storage_filename ++ ".csv")%string) then
    logging ERROR (MsgStorageFileMissing storage_filename) ;;;
    ret None
  else
    let parameters := storage_parameters in
    single_dict <- snd (create storage_filename parameters true) ;;
    ret (Some single_dict).

(** [create_json_from_csv] and [add_storage_components] call each other;
    [fuel] bounds the depth of the calls. *)
Fixpoint create_json_from_csv (fuel : nat) (fs : filesystem)
    (filename : string) (parameters : list string) (storage : bool)
  : list string * M dict :=
  match fuel with
  | O => (parameters, ([], OutOfFuel))
  | S fuel =>
      create_json_from_csv_body
        (add_storage_components_with (create_json_from_csv fuel fs) fs)
        fs filename parameters storage
  end.

Definition add_storage_components (fuel : nat) (fs : filesystem)
    (storage_filename : string) : M (option dict) :=
  add_storage_components_with (create_json_from_csv fuel fs) fs
                              storage_filename.

(* ----------------------------------------------------------------- *)
(** *** [create_input_json] (lines 41-128) *)

(** Lines 81-99: the loop over [os.listdir(input_directory)]. The dict
    [REQUIRED_CSV_PARAMETERS] is part of the state because
    [create_json_from_csv] appends to the list it is handed, and that list
    is the one stored in the dict; it is returned apart from the
    computation since it keeps its changes when the loop raises. *)
Fixpoint read_all_csv (fuel : nat) (fs : filesystem) (files : list string)
    (required : list (string * list string))
    (input_json : dict) (list_assets : list string)
  : list (string * list string) * M (dict * list string) :=
  match files with
  | [] => (required, ret (input_json, list_assets))
  | f :: rest =>
      let filename := drop_last 4 f in
      if str_mem filename REQUIRED_CSV_FILES then
        let list_assets := list_assets ++ [filename] in
        match dict_get required filename with
        | None => (required, raise KeyError)
        | Some parameters =>
            let (parameters, m) :=
              create_json_from_csv fuel fs filename parameters false in
            let required := dict_set required filename parameters in
            match m with
            | (log, Ok single_dict) =>
                let (required, m') :=
                  read_all_csv fuel fs rest required
                               (dict_update input_json single_dict)
                               list_assets in
                (required, (log, Ok tt) ;;; m')
            | (log, Raise e) => (required, (log, Raise e))
            | (log, OutOfFuel) => (required, (log, OutOfFuel))
            end
        end
      else if str_contains "storage_" filename then
        read_all_csv fuel fs rest required input_json
                     (list_assets ++ [filename])
      else
        let (required, m') :=
          read_all_csv fuel fs rest required input_json list_assets in
        (required, logging ERROR (MsgFileNotRecognized f) ;;; m')
  end.

(** Lines 101-116. *)
Definition check_required_files (list_assets : list string) : M unit :=
  let extra := set_xor (py_set list_assets) (py_set REQUIRED_CSV_FILES) in
  for_each (fun _ i =>
              if str_mem i REQUIRED_CSV_FILES
              then logging ERROR (MsgRequiredFileMissing i)
              else if str_contains "storage_" i then ret tt
              else logging DEBUG (MsgUnknownFilename i))
           extra tt.

(** [create_input_json]. The result is the input directory and
    [REQUIRED_CSV_PARAMETERS] as the call leaves them, and what the call
    returns: [outfile.name] under [pass_back]. The artifact is modelled
    by the tree that [json.dump] serializes. *)
Definition create_input_json (fuel : nat) (fs : filesystem)
    (required : list (string * list string)) (pass_back : bool)
  : filesystem * list (string * list string) * M (option string) :=
  let output_filename := CSV_FNAME in
  if path_exists fs output_filename then
    (fs, required, logging INFO MsgLoadingAll ;;; raise FileExistsError)
  else
    let (required, m) := read_all_csv fuel fs (dict_keys fs) required [] [] in
    match (logging INFO MsgLoadingAll ;;;
           '(input_json, list_assets) <- m ;;
           check_required_files list_assets ;;;
           ret input_json) with
    | (log, Ok input_json) =>
        (dict_set fs output_filename (FileJson (VDict input_json)),
         required,
         (log, Ok tt) ;;;
         logging INFO MsgJsonStored ;;;
         logging DEBUG MsgJsonCreated ;;;
         ret (if pass_back then Some output_filename else None))
    | (log, Raise e) => (fs, required, (log, Raise e))
    | (log, OutOfFuel) => (fs, required, (log, OutOfFuel))
    end.

End Csv.

(* ================================================================= *)
(** ** Computations that also change an object of the caller *)

(** A computation over a state [S] that outlives an exception: what has
    been written to a dict or list before a [raise] stays written. *)
Definition SM (S A : Type) : Type := S -> S * M A.

Definition sm_ret (S A : Type) (a : A) : SM S A := fun s => (s, ret a).
Arguments sm_ret {S A} a.

Definition sm_lift (S A : Type) (m : M A) : SM S A := fun s => (s, m).
Arguments sm_lift {S A} m.

Definition sm_get (S : Type) : SM S S := fun s => (s, ret s).
Arguments sm_get {S}.

Definition sm_put (S : Type) (s : S) : SM S unit := fun _ => (s, ret tt).

Definition sm_bind (S A B : Type) (m : SM S A) (k : A -> SM S B) : SM S B :=
  fun s =>
    match m s with
    | (s1, (l, Ok a)) =>
        match k a s1 with
        | (s2, (l', r)) => (s2, (l ++ l', r))
        end
    | (s1, (l, Raise e)) => (s1, (l, Raise e))
    | (s1, (l, OutOfFuel)) => (s1, (l, OutOfFuel))
    end.

Declare Scope sm_scope.
Delimit Scope sm_scope with sm.
Notation "x <~ m ;; k" := (sm_bind m (fun x => k))
  (at level 61, m at next level, right associativity) : sm_scope.
Notation "m ;;~ k" := (sm_bind m (fun _ => k))
  (at level 61, right associativity) : sm_scope.
Open Scope sm_scope.

Fixpoint sm_for (S A : Type) (body : A -> SM S unit) (l : list A)
  : SM S unit :=
  match l with
  | [] => sm_ret tt
  | a :: r => body a ;;~ sm_for body r
  end.

Definition str_ends_with (suffix s : string) : bool :=
  let n := String.length suffix in
  let m := String.length s in
  Nat.leb n m && String.eqb (substring (m - n) n s) suffix.

(* ================================================================= *)
(** ** [compare_input_parameters_with_reference] (utils, lines 120-276) *)

Section Utils.
Context {F : PyFloat}.

(** An entry of [KNOWN_EXTRA_PARAMETERS]: what is stored under [UNIT] and
    under [DEFAULT_VALUE]. The text under [WARNING_TEXT] only feeds the
    log line. *)
Record known_extra : Type := {
  ke_unit : value;
  ke_default : value
}.

(** The names imported from [utils.constants] and
    [utils.constants_json_strings]. [REQUIRED_MVS_PARAMETERS] maps an
    extension to the required sub parameters of every group, [None]
    standing for a group of user-defined names. *)
Class MvsConstants : Type := {
  JSON_EXT : string;
  CSV_EXT : string;
  REQUIRED_MVS_PARAMETERS :
    list (string * list (string * option (list string)));
  KNOWN_EXTRA_PARAMETERS : list (string * known_extra);
  MISSING_PARAMETERS_KEY : string;
  EXTRA_PARAMETERS_KEY : string;
  UNIT : string;
  VALUE : string;
  PROJECT_DATA : string;
  ECONOMIC_DATA : string;
  SIMULATION_SETTINGS : string;
  CONSTRAINTS : string;
  FIX_COST : string;
  ENERGY_CONSUMPTION : string;
  ENERGY_CONVERSION : string;
  ENERGY_PRODUCTION : string;
  ENERGY_STORAGE : string;
  ENERGY_BUSSES : string;
  ENERGY_PROVIDERS : string
}.

(** File access of the function, by folder path: the json config of a
    folder as [json.load] reads it (a JSON object), the listing of its
    csv folder, and the distinct entries of the first column of one of
    its csv files, [df.iloc[:, 0].unique().tolist()], of which the
    lists of names of this embedding hold those that are text. *)
Class MvsFiles : Type := {
  json_load_config : string -> M dict;
  listdir_csv : string -> M (list string);
  read_csv_first_column : string -> string -> M (list string)
}.

Context {C : MvsConstants} {E : MvsFiles}.

(** The argument [folder_path]: a dict that is already loaded, or a
    path. *)
Inductive folder : Type :=
| FolderDict (d : dict)
| FolderPath (path : string).

(** The variable [main_parameters]: the config dict, or the list of csv
    file names. *)
Inductive main_params : Type :=
| MainDict (d : dict)
| MainList (names : list string).

(** The variable [sub_params]. It refers to a part of [main_parameters]
    and sees what is written there later: [{"non-asset":
    main_parameters[mp].keys()}] holds a view of the keys of group [mp],
    and for a group of assets [sub_params] is the dict
    [main_parameters[mp]] itself. *)
Inductive sub_params_ref : Type :=
| NonAssetKeys (mp : string)
| NonAssetList (names : list string)
| Assets (mp : string).

Record cmp_state : Type := {
  main_parameters : main_params;
  extra_parameters : list (string * list string);
  missing_parameters : list (string * list string);
  sub_params : option sub_params_ref
}.

Definition with_main (s : cmp_state) (m : main_params) : cmp_state :=
  {| main_parameters := m; extra_parameters := extra_parameters s;
     missing_parameters := missing_parameters s; sub_params := sub_params s |}.

Definition with_extra (s : cmp_state) (e : list (string * list string))
  : cmp_state :=
  {| main_parameters := main_parameters s; extra_parameters := e;
     missing_parameters := missing_parameters s; sub_params := sub_params s |}.

Definition with_missing (s : cmp_state) (m : list (string * list string))
  : cmp_state :=
  {| main_parameters := main_parameters s;
     extra_parameters := extra_parameters s;
     missing_parameters := m; sub_params := sub_params s |}.

Definition with_sub (s : cmp_state) (r : sub_params_ref) : cmp_state :=
  {| main_parameters := main_parameters s;
     extra_parameters := extra_parameters s;
     missing_parameters := missing_parameters s; sub_params := Some r |}.

(** Lines 149-165. *)
Definition load_main_parameters (folder_path : folder) (ext : string)
  : M (option main_params) :=
  if String.eqb ext JSON_EXT then
    match folder_path with
    | FolderDict d => ret (Some (MainDict d))
    | FolderPath p => d <- json_load_config p ;; ret (Some (MainDict d))
    end
  else if String.eqb ext CSV_EXT then
    match folder_path with
    | FolderDict _ => raise TypeError
    | FolderPath p =>
        l <- listdir_csv p ;;
        ret (Some (MainList
                     (map (drop_last 4)
                          (filter (str_ends_with ".csv") l))))
    end
  else ret None.

(** [{UNIT: KNOWN_EXTRA_PARAMETERS[sp][UNIT],
      VALUE: KNOWN_EXTRA_PARAMETERS[sp][DEFAULT_VALUE]}]. *)
Definition default_node (ke : known_extra) : value :=
  VDict (dict_set [(UNIT, ke_unit ke)] VALUE (ke_default ke)).

(** [main_parameters[mp][sp] = node] (line 227). *)
Definition set_group_parameter (main : main_params) (mp sp : string)
    (node : value) : M main_params :=
  match main with
  | MainList _ => raise TypeError
  | MainDict d =>
      match dict_get d mp with
      | None => raise KeyError
      | Some (VDict g) =>
          ret (MainDict (dict_set d mp (VDict (dict_set g sp node))))
      | Some _ => raise TypeError
      end
  end.

(** [main_parameters[mp][k][sp] = node] (line 239). *)
Definition set_asset_parameter (main : main_params) (mp k sp : string)
    (node : value) : M main_params :=
  match main with
  | MainList _ => raise TypeError
  | MainDict d =>
      match dict_get d mp with
      | None => raise KeyError
      | Some (VDict g) =>
          match dict_get g k with
          | None => raise KeyError
          | Some (VDict a) =>
              ret (MainDict
                     (dict_set d mp
                        (VDict (dict_set g k (VDict (dict_set a sp node))))))
          | Some _ => raise TypeError
          end
      | Some _ => raise TypeError
      end
  end.

(** [d.get(mp, [])]. *)
Definition names_under (d : list (string * list string)) (mp : string)
  : list string :=
  match dict_get d mp with Some l => l | None => [] end.

(** [param_list = d.get(mp, []); param_list.append(sp);
    d[mp] = param_list]. *)
Definition append_name (d : list (string * list string)) (mp sp : string)
  : list (string * list string) :=
  dict_set d mp (names_under d mp ++ [sp]).

(** Lines 220-260: one name of [not_matching_params]. *)
Definition reconcile_name (set_default : bool) (mp k : string)
    (required : list string) (sp : string) : SM cmp_state unit :=
  s <~ sm_get ;;
  if str_mem sp required then
    match (if set_default then dict_get KNOWN_EXTRA_PARAMETERS sp
           else None) with
    | Some ke =>
        if String.eqb k "non-asset" then
          main <~ sm_lift (set_group_parameter (main_parameters s) mp sp
                                               (default_node ke)) ;;
          sm_put (with_main s main) ;;~
          sm_lift (logging WARNING (MsgDefaultNonAsset sp mp))
        else
          main <~ sm_lift (set_asset_parameter (main_parameters s) mp k sp
                                               (default_node ke)) ;;
          sm_put (with_main s main) ;;~
          sm_lift (logging WARNING (MsgDefaultAsset sp k mp))
    | None =>
        sm_put (with_missing s (append_name (missing_parameters s) mp sp))
    end
  else
    let param_list := names_under (extra_parameters s) mp in
    if negb (str_mem sp param_list) then
      sm_put (with_extra s (append_name (extra_parameters s) mp sp))
    else sm_ret tt.

(** Lines 210-260: the body of the loop over [sub_params] for one key
    [k]; [sub_parameters] computes [set(sub_params[k])]. *)
Definition reconcile_sub (set_default : bool) (mp k : string)
    (required : option (list string)) (sub_parameters : M (list string))
  : SM cmp_state unit :=
  match required with
  | Some req =>
      names <~ sm_lift sub_parameters ;;
      let not_matching_params := set_xor (py_set names) (py_set req) in
      sm_for (reconcile_name set_default mp k req) not_matching_params
  | None => sm_ret tt
  end.

(** The items of a list as [set] takes them: a list or a dict among
    them cannot be hashed. An item that is a number, a truth value or
    [None] is a name that is not text. Line 221 finds no such name among
    the required ones, which are text, so all that the function does
    with it is to append it to the extra names of its group (lines
    257-260); the lists of names of this embedding hold the names that
    are text, and such an item is left out of them. *)
Fixpoint names_of_items (l : list value) : M (list string) :=
  match l with
  | [] => ret []
  | VStr s :: r => names <- names_of_items r ;; ret (s :: names)
  | VList _ :: _ | VDict _ :: _ => raise TypeError
  | _ :: r => names_of_items r
  end.

(** [set(v)] (line 213) for the value [v] that stands where the
    parameters of an asset are expected: the keys of a dict, the
    characters of a text, the items of a list; a number, a truth value
    or [None] cannot be iterated. *)
Definition names_of (v : option value) : M (list string) :=
  match v with
  | Some (VDict a) => ret (dict_keys a)
  | Some (VStr s) =>
      ret (map (fun c => String c EmptyString) (list_ascii_of_string s))
  | Some (VList l) => names_of_items l
  | Some _ => raise TypeError
  | None => raise KeyError
  end.

(** [l[k]] for a list [l] and a value [k] of the config: an integer
    indexes the list, from its end when it is negative, and a truth
    value is the integer 0 or 1. *)
Definition list_item (l : list value) (k : value) : M value :=
  let index (z : Z) : M value :=
    let n := Z.of_nat (List.length l) in
    let z := if Z.ltb z 0 then (z + n)%Z else z in
    if Z.leb 0 z && Z.ltb z n
    then lift IndexError (nth_error l (Z.to_nat z))
    else raise IndexError in
  match k with
  | VInt z => index z
  | VBool b => index (if b then 1%Z else 0%Z)
  | _ => raise TypeError
  end.

Definition group_of (main : main_params) (mp : string) : option value :=
  match main with
  | MainDict d => dict_get d mp
  | MainList _ => None
  end.

(** One asset [k] of the loop [for k in sub_params] over the dict of
    group [mp0], which had [size] keys when the loop began. A dict that
    has changed size makes the iterator raise when it is advanced. *)
Definition reconcile_asset (set_default : bool) (mp mp0 : string)
    (required : option (list string)) (size : nat) (k : string)
  : SM cmp_state unit :=
  s <~ sm_get ;;
  let sub_parameters :=
    match group_of (main_parameters s) mp0 with
    | Some (VDict g) => names_of (dict_get g k)
    | _ => raise TypeError
    end in
  reconcile_sub set_default mp k required sub_parameters ;;~
  s <~ sm_get ;;
  match group_of (main_parameters s) mp0 with
  | Some (VDict g) =>
      if Nat.eqb (List.length g) size then sm_ret tt
      else sm_lift (raise RuntimeError)
  | _ => sm_lift (raise RuntimeError)
  end.

(** Lines 209-260: [for k in sub_params]. Where [sub_params] is the
    value of a group of assets, the loop runs over the keys of that dict.
    An empty text or list gives no iteration; a text fails at
    [sub_params[k]] and a number, a truth value or [None] at the loop. A
    list is indexed by its own items (line 210): where nothing is
    required of the group that is all that happens to an item; where
    something is, [set(sub_parameters)] needs an item that can be
    iterated, and that item, being no index, ends the call in an
    exception when the loop meets it. The steps between the two are not
    followed here: the call is taken to end in [TypeError] at once. *)
Definition reconcile_group (set_default : bool) (mp : string)
    (required : option (list string)) : SM cmp_state unit :=
  s <~ sm_get ;;
  match sub_params s with
  | None => sm_lift (raise UnboundLocalError)
  | Some (NonAssetKeys mp0) =>
      reconcile_sub set_default mp "non-asset" required
                    (names_of (group_of (main_parameters s) mp0))
  | Some (NonAssetList names) =>
      reconcile_sub set_default mp "non-asset" required (ret names)
  | Some (Assets mp0) =>
      match group_of (main_parameters s) mp0 with
      | Some (VDict g) =>
          sm_for (reconcile_asset set_default mp mp0 required (List.length g))
                 (dict_keys g)
      | Some (VStr EmptyString) | Some (VList []) => sm_ret tt
      | Some (VList (k :: rest)) =>
          let items := k :: rest in
          match required with
          | None =>
              sm_lift (for_each (fun _ k => list_item items k ;;; ret tt)
                                items tt)
          | Some _ =>
              sm_lift (sub_parameters <- list_item items k ;;
                       names_of (Some sub_parameters) ;;;
                       raise TypeError)
          end
      | _ => sm_lift (raise TypeError)
      end
  end.

(** Lines 180-207: the choice of [sub_params] for a required group. *)
Definition select_sub_params (folder_path : folder) (ext mp : string)
  : SM cmp_state unit :=
  s <~ sm_get ;;
  if String.eqb ext JSON_EXT then
    if str_mem mp [PROJECT_DATA; ECONOMIC_DATA; SIMULATION_SETTINGS;
                   CONSTRAINTS; FIX_COST] then
      match group_of (main_parameters s) mp with
      | Some (VDict _) => sm_put (with_sub s (NonAssetKeys mp))
      | Some _ => sm_lift (raise AttributeError)
      | None => sm_lift (raise KeyError)
      end
    else if str_mem mp [ENERGY_CONSUMPTION; ENERGY_CONVERSION;
                        ENERGY_PRODUCTION; ENERGY_STORAGE; ENERGY_BUSSES;
                        ENERGY_PROVIDERS] then
      match group_of (main_parameters s) mp with
      | Some _ => sm_put (with_sub s (Assets mp))
      | None => sm_lift (raise KeyError)
      end
    else sm_ret tt
  else if String.eqb ext CSV_EXT then
    match folder_path with
    | FolderPath p =>
        names <~ sm_lift (read_csv_first_column p mp) ;;
        sm_put (with_sub s (NonAssetList names))
    | FolderDict _ => sm_lift (raise TypeError)
    end
  else sm_ret tt.

(** Lines 172-260: one name [mp] of [main_parameters]. *)
Definition compare_group (folder_path : folder) (ext : string)
    (set_default : bool)
    (required_parameters : list (string * option (list string)))
    (mp : string) : SM cmp_state unit :=
  match dict_get required_parameters mp with
  | None =>
      s <~ sm_get ;;
      sm_put (with_extra s (dict_set (extra_parameters s) mp []))
  | Some required =>
      select_sub_params folder_path ext mp ;;~
      reconcile_group set_default mp required
  end.

Definition main_names (main : main_params) : list string :=
  match main with
  | MainDict d => dict_keys d
  | MainList names => names
  end.

(** Lines 262-265. *)
Definition missing_groups
    (required_parameters : list (string * option (list string)))
    (main : main_params) (missing : list (string * option (list string)))
  : list (string * option (list string)) :=
  fold_left (fun acc kv =>
               if negb (str_mem (fst kv) (main_names main))
               then dict_set acc (fst kv) (snd kv) else acc)
            required_parameters missing.

(** The dict that the function returns: at most the two keys
    [MISSING_PARAMETERS_KEY] and [EXTRA_PARAMETERS_KEY]. *)
Definition answer : Type :=
  list (string * list (string * option (list string))).

(** [warn_missing_parameters] (lines 279-308). *)
Definition warn_missing_parameters (comparison_with_reference : answer)
  : M unit :=
  if dict_has comparison_with_reference MISSING_PARAMETERS_KEY
  then raise MissingParameterError
  else ret tt.

(** Lines 262-271: the dict that is returned, from the state that the
    loop over [main_parameters] leaves. *)
Definition build_answer
    (required_parameters : list (string * option (list string)))
    (s : cmp_state) : answer :=
  let missing :=
    missing_groups required_parameters (main_parameters s)
      (map (fun kv => (fst kv, Some (snd kv))) (missing_parameters s)) in
  let extra :=
    map (fun kv => (fst kv, Some (snd kv))) (extra_parameters s) in
  let answer : answer := [] in
  let answer :=
    if Nat.ltb 0 (List.length missing)
    then dict_set answer MISSING_PARAMETERS_KEY missing else answer in
  if Nat.ltb 0 (List.length extra)
  then dict_set answer EXTRA_PARAMETERS_KEY extra else answer.

(** Lines 172-276, once [main_parameters] and [required_parameters] are
    there. *)
Definition compare_loaded (folder_path : folder) (ext : string)
    (flag_missing set_default : bool)
    (required_parameters : list (string * option (list string)))
    (main : main_params) : SM cmp_state answer :=
  sm_for (compare_group folder_path ext set_default required_parameters)
         (main_names main) ;;~
  s <~ sm_get ;;
  let answer := build_answer required_parameters s in
  (if flag_missing then sm_lift (warn_missing_parameters answer)
   else sm_ret tt) ;;~
  sm_ret answer.

(** [compare_input_parameters_with_reference]. The first component of
    the result is the argument [folder_path] as the call leaves it: when
    it is a dict, [main_parameters] is that very dict (line 153), and the
    defaults are written into it. *)
Definition compare_input_parameters_with_reference (folder_path : folder)
    (ext : string) (flag_missing set_default : bool) : folder * M answer :=
  match load_main_parameters folder_path ext with
  | (log, Ok main) =>
      match dict_get REQUIRED_MVS_PARAMETERS ext with
      | None => (folder_path, (log, Raise KeyError))
      | Some required_parameters =>
          match main with
          | None => (folder_path, (log, Raise UnboundLocalError))
          | Some main =>
              let s0 := {| main_parameters := main;
                           extra_parameters := []; missing_parameters := [];
                           sub_params := None |} in
              match compare_loaded folder_path ext flag_missing set_default
                                   required_parameters main s0 with
              | (s, (log', r)) =>
                  (match folder_path, main_parameters s with
                   | FolderDict _, MainDict d => FolderDict d
                   | _, _ => folder_path
                   end,
                   (log ++ log', r))
              end
          end
      end
  | (log, Raise e) => (folder_path, (log, Raise e))
  | (log, OutOfFuel) => (folder_path, (log, OutOfFuel))
  end.

End Utils.

(* ================================================================= *)
(** ** [set_nested_value] (utils, lines 311-345) *)

(** Whether the function changes its argument is a question about
    objects, so here dicts and lists live in a heap and are named by
    references; two references to one location are two names of the same
    object. *)
Section Heap.
Context {F : PyFloat}.

Definition loc : Type := nat.

Inductive hval : Type :=
| HNone
| HBool (b : bool)
| HInt (z : Z)
| HFloat (f : pyfloat)
| HStr (s : string)
| HRef (l : loc).

Inductive obj : Type :=
| ODict (entries : list (string * hval))
| OList (items : list hval).

(** Location [l] is position [l]; a new object goes to the end. *)
Definition heap : Type := list obj.

Fixpoint heap_write (h : heap) (l : loc) (o : obj) : heap :=
  match h, l with
  | [], _ => []
  | _ :: r, O => o :: r
  | x :: r, S l => x :: heap_write r l o
  end.

Definition alloc (o : obj) : SM heap hval :=
  fun h => (h ++ [o], ret (HRef (List.length h))).

(** A reference always names an object; should a location lie outside
    the heap, the model stops as it does without fuel. *)
Definition deref (l : loc) : SM heap obj :=
  fun h => (h, match nth_error h l with
               | Some o => ret o
               | None => ([], OutOfFuel)
               end).

Fixpoint copy_list (cp : hval -> SM heap hval) (vs : list hval)
  : SM heap (list hval) :=
  match vs with
  | [] => sm_ret []
  | v :: r => v' <~ cp v ;; r' <~ copy_list cp r ;; sm_ret (v' :: r')
  end.

(** [copy.deepcopy]: every dict and list reached from [v] is copied to a
    new object, keys and atoms are kept. The memo table of [deepcopy],
    which keeps shared parts shared and ends the copy of a structure
    that contains itself, is not modelled; [fuel] bounds the depth of
    nesting. *)
Fixpoint deepcopy (fuel : nat) (v : hval) : SM heap hval :=
  match v with
  | HRef l =>
      match fuel with
      | O => sm_lift ([], OutOfFuel)
      | S fuel =>
          o <~ deref l ;;
          match o with
          | ODict entries =>
              vs <~ copy_list (deepcopy fuel) (map snd entries) ;;
              alloc (ODict (combine (map fst entries) vs))
          | OList items =>
              vs <~ copy_list (deepcopy fuel) items ;;
              alloc (OList vs)
          end
      end
  | atom => sm_ret atom
  end.

(** [v[k]] for a text [k]. *)
Definition getitem (v : hval) (k : string) : SM heap hval :=
  match v with
  | HRef l =>
      o <~ deref l ;;
      match o with
      | ODict entries => sm_lift (lift KeyError (dict_get entries k))
      | OList _ => sm_lift (raise TypeError)
      end
  | _ => sm_lift (raise TypeError)
  end.

(** [v[k] = x] for a text [k]. *)
Definition setitem (v : hval) (k : string) (x : hval) : SM heap unit :=
  match v with
  | HRef l =>
      o <~ deref l ;;
      match o with
      | ODict entries =>
          fun h => (heap_write h l (ODict (dict_set entries k x)), ret tt)
      | OList _ => sm_lift (raise TypeError)
      end
  | _ => sm_lift (raise TypeError)
  end.

(** [preserves n m]: running [m] leaves the objects at the first [n]
    locations as they are, and drops no location. *)
Definition preserves (A : Type) (n : nat) (m : SM heap A) : Prop :=
  forall h h' r,
    n <= List.length h -> m h = (h', r) ->
    firstn n h' = firstn n h /\ List.length h <= List.length h'.

(** The argument [keys]: a tuple of keys, or something that is not a
    tuple. *)
Inductive keys_arg : Type :=
| KeysTuple (keys : list string)
| KeysOther.

(** The branch [isinstance(keys, tuple) is True] (lines 334-342). *)
Fixpoint set_nested_value_tuple (fuel : nat) (dct value : hval)
    (keys : list string) : SM heap hval :=
  answer <~ deepcopy fuel dct ;;
  match keys with
  | [] => sm_lift (raise ValueError)
  | k :: [] => setitem answer k value ;;~ sm_ret answer
  | k :: rest =>
      sub <~ getitem dct k ;;
      new <~ set_nested_value_tuple fuel sub value rest ;;
      setitem answer k new ;;~
      sm_ret answer
  end.

Definition set_nested_value (fuel : nat) (dct value : hval) (keys : keys_arg)
  : SM heap hval :=
  match keys with
  | KeysTuple keys => set_nested_value_tuple fuel dct value keys
  | KeysOther => sm_lift (raise TypeError)
  end.

(** [denotes P h v t]: in the heap [h] the value [v] denotes the nested
    value [t], and reading it off only looks at objects whose location
    satisfies [P]. *)
#[warnings="-register-all"]
Inductive denotes (P : loc -> Prop) (h : heap) : hval -> value -> Prop :=
| den_none : denotes P h HNone VNone
| den_bool b : denotes P h (HBool b) (VBool b)
| den_int z : denotes P h (HInt z) (VInt z)
| den_float f : denotes P h (HFloat f) (VFloat f)
| den_str s : denotes P h (HStr s) (VStr s)
| den_dict l entries d :
    P l ->
    nth_error h l = Some (ODict entries) ->
    map fst entries = map fst d ->
    Forall2 (denotes P h) (map snd entries) (map snd d) ->
    denotes P h (HRef l) (VDict d)
| den_list l items vs :
    P l ->
    nth_error h l = Some (OList items) ->
    Forall2 (denotes P h) items vs ->
    denotes P h (HRef l) (VList vs).

(** The nested value that a heap value denotes. *)
Definition represents (h : heap) (v : hval) (t : value) : Prop :=
  denotes (fun _ => True) h v t.

(** What the docstring promises, on nested values: the value under the
    path [keys] is set to [x]; [None] when the path is empty or does not
    lead through dicts. *)
Fixpoint nested_set (t : value) (keys : list string) (x : value)
  : option value :=
  match keys, t with
  | [], _ => None
  | k :: [], VDict d => Some (VDict (dict_set d k x))
  | k :: rest, VDict d =>
      match dict_get d k with
      | Some sub =>
          match nested_set sub rest x with
          | Some sub' => Some (VDict (dict_set d k sub'))
          | None => None
          end
      | None => None
      end
  | _, _ => None
  end.

(** Depth of nesting of a value. *)
Fixpoint depth (v : value) : nat :=
  match v with
  | VList l => S (list_max (map depth l))
  | VDict d => S (list_max (map (fun kv => depth (snd kv)) d))
  | _ => 0
  end.

End Heap.

(* ================================================================= *)
(** ** [get_nested_value] and [split_nested_path] (utils, lines 348-418) *)

Section NestedPaths.
Context {F : PyFloat}.

(** The branch [isinstance(keys, tuple) is True] of [get_nested_value]
    (lines 369-376). *)
Fixpoint get_nested_value_tuple (dct : hval) (keys : list string)
  : SM heap hval :=
  match keys with
  | [] => sm_lift (raise ValueError)
  | k :: [] => getitem dct k
  | k :: rest => sub <~ getitem dct k ;; get_nested_value_tuple sub rest
  end.

Definition get_nested_value (dct : hval) (keys : keys_arg) : SM heap hval :=
  match keys with
  | KeysTuple keys => get_nested_value_tuple dct keys
  | KeysOther => sm_lift (raise TypeError)
  end.

End NestedPaths.

(** The argument [path] of [split_nested_path]: a text, a tuple of keys,
    or anything else. *)
Inductive path_arg : Type :=
| PathStr (s : string)
| PathTuple (keys : list string)
| PathOther.

(** [s.count(c)] for a one-character [c]. *)
Fixpoint count_char (c : ascii) (s : string) : nat :=
  match s with
  | EmptyString => 0
  | String a r => (if Ascii.eqb a c then 1 else 0) + count_char c r
  end.

(** [c.join(l)] for a one-character [c]. *)
Fixpoint join_with (c : ascii) (l : list string) : string :=
  match l with
  | [] => EmptyString
  | [w] => w
  | w :: r => (w ++ String c (join_with c r))%string
  end.

(** [SEPARATORS = (".", ",")] (line 397). *)
Definition SEPARATORS : list ascii := ["."%char; ","%char].

(** Lines 403-410: one separator of the loop. The state is
    [separator_count] and [keys_separator]. *)
Definition check_separator (path : string) (st : nat * option ascii)
    (separator : ascii) : M (nat * option ascii) :=
  let (separator_count, keys_separator) := st in
  if char_in separator path then
    if Nat.ltb 0 (count_char separator path) then
      if Nat.ltb 0 separator_count then raise ValueError
      else ret (count_char separator path, Some separator)
    else ret (separator_count, keys_separator)
  else ret (separator_count, keys_separator).

(** [split_nested_path] (lines 382-418). [keys_list] stays [None] for a
    text without separator, and [tuple(None)] on the last line is a
    [TypeError]. *)
Definition split_nested_path (path : path_arg) : M (list string) :=
  keys_list <-
    match path with
    | PathStr s =>
        '(_, keys_separator) <-
           for_each (check_separator s) SEPARATORS (0, None) ;;
        match keys_separator with
        | Some sep => ret (Some (split_on sep s))
        | None => ret None
        end
    | PathTuple keys => ret (Some keys)
    | PathOther => raise TypeError
    end ;;
  lift TypeError keys_list.

(* ================================================================= *)
(** ** [find_json_input_folders], [find_csv_input_folders]
       (utils, lines 44-117) *)

(** What lies at a path that names a directory: the names of its files
    and its sub-directories, the latter in [os.scandir] order. Names
    within one directory are distinct. *)
#[warnings="-register-all"]
Inductive folder_tree : Type :=
| FolderTree (files : list string) (folders : list (string * folder_tree)).

Definition files_of (d : folder_tree) : list string :=
  match d with FolderTree files _ => files end.

Definition folders_of (d : folder_tree) : list (string * folder_tree) :=
  match d with FolderTree _ folders => folders end.

(** [os.path.join(a, b)] of [posixpath]. *)
Definition path_join (a b : string) : string :=
  if prefix "/" b then b
  else if String.eqb a "" || str_ends_with "/" a then (a ++ b)%string
  else (a ++ "/" ++ b)%string.

(** The names [JSON_FNAME], [CSV_ELEMENTS] and [OUTPUT_FOLDER] of
    [utils.constants]; the first two name an entry of a directory. *)
Class FolderConstants : Type := {
  JSON_FNAME : string;
  CSV_ELEMENTS : string;
  OUTPUT_FOLDER : string
}.

Section Folders.
Context {K : FolderConstants}.

(** [os.path.exists(os.path.join(path, name))] for the directory [d] at
    [path]. *)
Definition has_entry (d : folder_tree) (name : string) : bool :=
  str_mem name (files_of d) || str_mem name (map fst (folders_of d)).

(** [[fn.name for fn in os.scandir(path) if fn.is_dir() and fn.name not in
    ignore_folders]], each name with the directory it names. *)
Definition folder_list (ignore_folders : list string) (d : folder_tree)
  : list (string * folder_tree) :=
  filter (fun f => negb (str_mem (fst f) ignore_folders)) (folders_of d).

(** [find_json_input_folders(path, specific_file_name, ignore_folders)]
    where [d] is the directory at [path]. *)
Fixpoint find_json_input_folders (path specific_file_name : string)
    (ignore_folders : list string) (d : folder_tree) : list string :=
  match d with
  | FolderTree files folders =>
      if has_entry (FolderTree files folders) JSON_FNAME then [path]
      else
        (fix search (l : list (string * folder_tree)) (answer : list string)
           : list string :=
           match l with
           | [] => answer
           | (folder, sub) :: r =>
               if negb (str_mem folder ignore_folders) then
                 search r
                   (answer ++
                    find_json_input_folders (path_join path folder)
                      specific_file_name ignore_folders sub)
               else search r answer
           end) folders []
  end.

(** [find_csv_input_folders(path, specific_folder_name, ignore_folders)]
    where [d] is the directory at [path]. The call of line 114 passes no
    [ignore_folders], so below [path] the default [(OUTPUT_FOLDER,)]
    applies. *)
Fixpoint find_csv_input_folders (path specific_folder_name : string)
    (ignore_folders : list string) (d : folder_tree) : list string :=
  match d with
  | FolderTree files folders =>
      if str_mem CSV_ELEMENTS
           (map fst (folder_list ignore_folders (FolderTree files folders)))
      then [path]
      else
        (fix search (l : list (string * folder_tree)) (answer : list string)
           : list string :=
           match l with
           | [] => answer
           | (folder, sub) :: r =>
               if negb (str_mem folder ignore_folders) then
                 search r
                   (answer ++
                    find_csv_input_folders (path_join path folder)
                      specific_folder_name [OUTPUT_FOLDER] sub)
               else search r answer
           end) folders []
  end.

(** What the folder [f] of the directory at [path] adds to the answer of
    [find_json_input_folders] (lines 74-79). *)
Definition json_below (path specific_file_name : string)
    (ignore_folders : list string) (f : string * folder_tree) : list string :=
  if negb (str_mem (fst f) ignore_folders)
  then find_json_input_folders (path_join path (fst f)) specific_file_name
         ignore_folders (snd f)
  else [].

(** The same for [find_csv_input_folders] (lines 113-116). *)
Definition csv_below (path specific_folder_name : string)
    (ignore_folders : list string) (f : string * folder_tree) : list string :=
  if negb (str_mem (fst f) ignore_folders)
  then find_csv_input_folders (path_join path (fst f)) specific_folder_name
         [OUTPUT_FOLDER] (snd f)
  else [].

(** [reaches ignore path d p d']: the directory [d'] at [p] is [d] at
    [path] or lies below it, and every folder entered on the way passes
    the test [fn.name not in ignore]. *)
Inductive reaches (ignore : list string)
  : string -> folder_tree -> string -> folder_tree -> Prop :=
| reaches_here path d : reaches ignore path d path d
| reaches_down path d folder sub p d' :
    In (folder, sub) (folders_of d) ->
    str_mem folder ignore = false ->
    reaches ignore (path_join path folder) sub p d' ->
    reaches ignore path d p d'.

(** [finds ignore path d p d']: as [reaches], and moreover the directory
    [d'] holds an entry named [JSON_FNAME] while no directory above it on
    the way from [path] does. *)
Inductive finds (ignore : list string)
  : string -> folder_tree -> string -> folder_tree -> Prop :=
| finds_here path d :
    has_entry d JSON_FNAME = true -> finds ignore path d path d
| finds_below path d folder sub p d' :
    has_entry d JSON_FNAME = false ->
    In (folder, sub) (folders_of d) ->
    str_mem folder ignore = false ->
    finds ignore (path_join path folder) sub p d' ->
    finds ignore path d p d'.

(** [finds_csv ignore path d p]: the directory at [p] is [d] at [path]
    or lies below it, it has a folder named [CSV_ELEMENTS] that is not
    ignored, and no directory above it on the way from [path] has one.
    The folders of [d] are entered by [ignore], and those further down
    by [[OUTPUT_FOLDER]]. *)
Inductive finds_csv : list string -> string -> folder_tree -> string -> Prop :=
| finds_csv_here ignore path d :
    str_mem CSV_ELEMENTS (map fst (folder_list ignore d)) = true ->
    finds_csv ignore path d path
| finds_csv_below ignore path d folder sub p :
    str_mem CSV_ELEMENTS (map fst (folder_list ignore d)) = false ->
    In (folder, sub) (folders_of d) ->
    str_mem folder ignore = false ->
    finds_csv [OUTPUT_FOLDER] (path_join path folder) sub p ->
    finds_csv ignore path d p.

End Folders.

(* ================================================================= *)
(** ** Shapes of nodes and inputs for closed examples *)

Section Nodes.
Context {F : PyFloat}.

(** [{"value": v, "unit": u}], the node that [conversion] stores for a
    parameter whose unit is not ["str"]. *)
Definition value_unit (v u : value) : value :=
  VDict [("value", v); ("unit", u)].

End Nodes.

(** The first row of a record of the result, by column (asset) name and
    parameter name. *)
Definition parameter_of {F : PyFloat} (single_dict : dict)
    (column i : string) : option value :=
  match dict_get single_dict column with
  | Some (VDict column_dict) => dict_get column_dict i
  | _ => None
  end.

(** A float model with NaN alone and a json reader that reads nothing,
    for examples that parse neither a float literal nor a brace
    literal. *)
Definition nan_only : PyFloat :=
  {| pyfloat := unit; float_nan := tt; float_of_str := fun _ => None |}.

Definition no_json : @PyJson nan_only :=
  {| json_loads := fun _ => None |}.

Definition example_constants : CsvConstants :=
  {| CSV_FNAME := "mvs_csv_config.json";
     CSV_SEPARATORS := [","; ";"; "&"];
     REQUIRED_CSV_FILES := ["energyConversion"; "energyStorage"] |}.

(** A file in which the comma is the separator. *)
Definition comma_separated (t : DataFrame) : @file nan_only :=
  FileCsv (fun sep => if String.eqb sep ","
                      then Some t
                      else Some {| df_columns := []; df_rows := [] |}).

(** [energyConversion.csv] with one asset whose efficiency lacks the
    closing bracket. *)
Definition conversion_table : DataFrame :=
  {| df_columns := ["unit"; "transformer"];
     df_rows :=
       [("unit", [("unit", CellStr "str"); ("transformer", CellStr "str")]);
        ("label", [("unit", CellStr "str");
                   ("transformer", CellStr "Transformer")]);
        ("efficiency", [("unit", CellStr "factor");
                        ("transformer", CellStr "[1;2")]);
        ("maximumCap", [("unit", CellStr "kW");
                        ("transformer", CellStr "None")])] |}.

Definition conversion_parameters : list string :=
  ["unit"; "label"; "efficiency"].

(** A storage table whose column [storage capacity] has no [soc_min]. *)
Definition storage_table : DataFrame :=
  {| df_columns := ["unit"; "storage capacity"; "input power"; "output power"];
     df_rows :=
       [("label", [("unit", CellStr "str");
                   ("storage capacity", CellStr "capacity");
                   ("input power", CellStr "charge");
                   ("output power", CellStr "discharge")]);
        ("efficiency", [("unit", CellStr "factor");
                        ("storage capacity", CellStr "1");
                        ("input power", CellStr "1");
                        ("output power", CellStr "1")]);
        ("soc_max", [("unit", CellStr "factor");
                     ("storage capacity", CellStr "1")]);
        ("soc_min", [("unit", CellStr "factor")]);
        ("c_rate", [("unit", CellStr "factor");
                    ("input power", CellStr "1");
                    ("output power", CellStr "1")])] |}.

(** [energyStorage.csv] with two assets; the sub-table of the first one
    is [storage_01.csv], that of the second one [storage_02.csv]. *)
Definition energy_storage_table : DataFrame :=
  {| df_columns := ["unit"; "battery"; "tank"];
     df_rows :=
       [("label", [("unit", CellStr "str"); ("battery", CellStr "Battery");
                   ("tank", CellStr "Tank")]);
        ("storage_filename", [("unit", CellStr "str");
                              ("battery", CellStr "storage_01.csv");
                              ("tank", CellStr "storage_02.csv")])] |}.

(** An input directory in which [storage_01.csv] is missing. *)
Definition directory_without_storage_01 : @filesystem nan_only :=
  [("energyConversion.csv", comma_separated conversion_table);
   ("energyStorage.csv", comma_separated energy_storage_table);
   ("storage_02.csv", comma_separated storage_table)].

(** An input directory with every storage sub-table. *)
Definition directory : @filesystem nan_only :=
  [("energyConversion.csv", comma_separated conversion_table);
   ("energyStorage.csv", comma_separated energy_storage_table);
   ("storage_01.csv", comma_separated storage_table);
   ("storage_02.csv", comma_separated storage_table)].

(** Constants and files for the examples of
    [compare_input_parameters_with_reference]: two groups, one a bag of
    parameters and one of assets, and a known extra parameter in each. *)
Definition example_mvs_constants : @MvsConstants nan_only :=
  {| JSON_EXT := "json";
     CSV_EXT := "csv";
     REQUIRED_MVS_PARAMETERS :=
       [("json",
         [("simulation_settings",
           Some ["evaluated_period"; "timestep"; "output_lp_file"]);
          ("energyProduction",
           Some ["label"; "installedCap"; "maximumCap"])]);
        ("csv", [])];
     KNOWN_EXTRA_PARAMETERS :=
       [("maximumCap",
         {| ke_unit := VStr "None or float"; ke_default := VNone |});
        ("output_lp_file",
         {| ke_unit := VStr "bool"; ke_default := VBool false |})];
     MISSING_PARAMETERS_KEY := "missing_parameters";
     EXTRA_PARAMETERS_KEY := "extra_parameters";
     UNIT := "unit";
     VALUE := "value";
     PROJECT_DATA := "project_data";
     ECONOMIC_DATA := "economic_data";
     SIMULATION_SETTINGS := "simulation_settings";
     CONSTRAINTS := "constraints";
     FIX_COST := "fixcost";
     ENERGY_CONSUMPTION := "energyConsumption";
     ENERGY_CONVERSION := "energyConversion";
     ENERGY_PRODUCTION := "energyProduction";
     ENERGY_STORAGE := "energyStorage";
     ENERGY_BUSSES := "energyBusses";
     ENERGY_PROVIDERS := "energyProviders" |}.

Definition no_files : @MvsFiles nan_only :=
  {| json_load_config := fun _ => raise FileNotFoundError;
     listdir_csv := fun _ => raise FileNotFoundError;
     read_csv_first_column := fun _ _ => raise FileNotFoundError |}.


Definition example_required : list (string * list string) :=
  [("energyConversion", conversion_parameters);
   ("energyStorage", ["unit"; "label"; "storage_filename"])].

(** A float model in which [float] reads the text ["NaN"] and nothing
    else, for examples that convert a cell overwritten with that text. *)
Definition nan_literal : PyFloat :=
  {| pyfloat := unit; float_nan := tt;
     float_of_str := fun s => if String.eqb s "NaN" then Some tt else None |}.

Definition no_json_nan_literal : @PyJson nan_literal :=
  {| json_loads := fun _ => None |}.

(** A storage table in which the column [storage capacity] holds a value
    for [c_rate], and the column [output power] has no label. *)
Definition storage_table_out_of_place : DataFrame :=
  {| df_columns := ["unit"; "storage capacity"; "input power"; "output power"];
     df_rows :=
       [("efficiency", [("unit", CellStr "factor");
                        ("storage capacity", CellStr "1");
                        ("input power", CellStr "1");
                        ("output power", CellStr "1")]);
        ("c_rate", [("unit", CellStr "factor");
                    ("storage capacity", CellStr "1");
                    ("input power", CellStr "1");
                    ("output power", CellStr "1")]);
        ("label", [("unit", CellStr "str");
                   ("storage capacity", CellStr "capacity");
                   ("input power", CellStr "charge")])] |}.

(** [energyProduction.csv] with one asset whose label is empty. *)
Definition table_without_label : DataFrame :=
  {| df_columns := ["unit"; "pv"];
     df_rows :=
       [("label", [("unit", CellStr "str")]);
        ("installedCap", [("unit", CellStr "kWp"); ("pv", CellStr "50")])] |}.

(** A file in which the semicolon is the separator. *)
Definition semicolon_separated (t : DataFrame) : @file nan_only :=
  FileCsv (fun sep => if String.eqb sep ";"
                      then Some t
                      else Some {| df_columns := []; df_rows := [] |}).

(** A file that no separator splits into columns. *)
Definition unparsable : @file nan_only :=
  FileCsv (fun _ => Some {| df_columns := []; df_rows := [] |}).

Definition example_folder_constants : FolderConstants :=
  {| JSON_FNAME := "mvs_config.json";
     CSV_ELEMENTS := "csv_elements";
     OUTPUT_FOLDER := "MVS_outputs" |}.

(** A folder with an output folder, an input folder [site_a] that has
    both a config file and csv files, and an input folder [site_b] one
    level further down. *)
Definition example_tree : folder_tree :=
  FolderTree ["README.md"]
    [("MVS_outputs", FolderTree ["mvs_config.json"] []);
     ("site_a",
      FolderTree ["mvs_config.json"]
        [("csv_elements", FolderTree ["project_data.csv"] [])]);
     ("archive",
      FolderTree [] [("site_b", FolderTree ["mvs_config.json"] [])])].



(** A config dict with an unrequired group and with an asset that is
    given as the list of the names of its parameters. *)
Definition config_with_listed_asset : list (string * @value nan_only) :=
  [("weather", VDict []);
   ("energyProduction",
    VDict [("pv", VList [VStr "label"; VStr "installedCap";
                         VStr "maximumCap"])])].


(** A folder in which a copy of the config file lies below a folder
    that holds one. *)
Definition example_tree_with_copy : folder_tree :=
  FolderTree []
    [("site_a",
      FolderTree ["mvs_config.json"]
        [("backup", FolderTree ["mvs_config.json"] [])])].

(** A folder with csv folders in a folder [old] directly in it, in a
    folder [old] further down, and in the output folder. *)
Definition example_tree_old : folder_tree :=
  FolderTree []
    [("old", FolderTree [] [("csv_elements", FolderTree [] [])]);
     ("site",
      FolderTree [] [("old", FolderTree [] [("csv_elements", FolderTree [] [])])]);
     ("MVS_outputs",
      FolderTree []
        [("run", FolderTree [] [("csv_elements", FolderTree [] [])])])].

(** The dict [{"a": 1, "b": {"b1": {"b11": 11}}}] in a heap: the outer
    dict is at location 2. *)
Definition example_heap : @heap nan_only :=
  [ODict [("b11", HInt 11)];
   ODict [("b1", HRef 0)];
   ODict [("a", HInt 1); ("b", HRef 1)]].

Definition example_heap_value : @value nan_only :=
  VDict [("a", VInt 1); ("b", VDict [("b1", VDict [("b11", VInt 11)])])].

(* ================================================================= *)
(** * Properties *)

Unset Implicit Arguments.

(** ** Dicts and names *)

Lemma str_mem_In (x : string) (l : list string) :
  str_mem x l = true <-> In x l.
Proof.
  unfold str_mem. rewrite existsb_exists. split.
  - intros [y [Hin Heq]]. apply String.eqb_eq in Heq. now subst.
  - intros Hin. exists x. split; [assumption | apply String.eqb_refl].
Qed.

Lemma str_mem_false (x : string) (l : list string) :
  str_mem x l = false <-> ~ In x l.
Proof.
  rewrite <- str_mem_In. destruct (str_mem x l); split; congruence.
Qed.

Lemma dict_get_set_same {A : Type} (d : list (string * A)) k v :
  dict_get (dict_set d k v) k = Some v.
Proof.
  induction d as [|[k' v'] d IH]; simpl.
  - now rewrite String.eqb_refl.
  - destruct (String.eqb k' k) eqn:E; simpl.
    + now rewrite String.eqb_refl.
    + now rewrite E.
Qed.

Lemma dict_get_set_other {A : Type} (d : list (string * A)) k k' v :
  k <> k' -> dict_get (dict_set d k v) k' = dict_get d k'.
Proof.
  intros Hne. induction d as [|[k0 v0] d IH]; simpl.
  - destruct (String.eqb_spec k k'); congruence.
  - destruct (String.eqb_spec k0 k) as [->|Hk]; simpl.
    + destruct (String.eqb_spec k k'); congruence.
    + now rewrite IH.
Qed.

Lemma dict_set_set {A : Type} (d : list (string * A)) k v w :
  dict_set (dict_set d k v) k w = dict_set d k w.
Proof.
  induction d as [|[k' v'] d IH]; simpl.
  - now rewrite String.eqb_refl.
  - destruct (String.eqb k' k) eqn:E; simpl.
    + now rewrite String.eqb_refl.
    + now rewrite E, IH.
Qed.

Lemma dict_has_set {A : Type} (d : list (string * A)) k v :
  dict_has (dict_set d k v) k = true.
Proof. unfold dict_has. now rewrite dict_get_set_same. Qed.

(** ** Sequencing *)

Lemma bind_ret_l {A B : Type} (a : A) (k : A -> M B) : bind (ret a) k = k a.
Proof. unfold bind, ret. now destruct (k a). Qed.

Lemma bind_ok {A B : Type} (l : list diag) (a : A) (k : A -> M B) :
  bind (l, Ok a) k = (l ++ fst (k a), snd (k a)).
Proof. unfold bind. now destruct (k a). Qed.

Lemma bind_logging {B : Type} lvl msg (k : unit -> M B) :
  bind (logging lvl msg) k = (Log lvl msg :: fst (k tt), snd (k tt)).
Proof. unfold logging. now rewrite bind_ok. Qed.

Lemma bind_inv_ok {A B : Type} (m : M A) (k : A -> M B) log b :
  bind m k = (log, Ok b) ->
  exists l1 a l2, m = (l1, Ok a) /\ k a = (l2, Ok b) /\ log = l1 ++ l2.
Proof.
  destruct m as [l1 [a|e|]]; simpl; try discriminate.
  destruct (k a) as [l2 r] eqn:E. intros H. injection H as <- ->.
  now exists l1, a, l2.
Qed.

(** ** Cells with one bracket or one brace: [conversion], [convert_row] *)

Section CsvProperties.
Context {F : PyFloat} {J : PyJson} {K : CsvConstants}.

(** What the label row adds to [asset_name_string]. *)
Lemma convert_row_label filename column column_dict names i row s :
  series_get row column = ret (CellStr s) ->
  convert_row filename column (column_dict, names) (i, row) =
  (let names' := if String.eqb i "label"
                 then (names ++ s ++ ", ")%string else names in
   if char_in "[" s || char_in "]" s then
     if negb (char_in "[" s) || negb (char_in "]" s) then
       logging WARNING (MsgBracketMissing filename column i) ;;;
       ret (column_dict, names')
     else
       '(column_dict, value_list) <-
          for_each (convert_list_item filename row i column)
                   (split_on ";" (remove_char "]" (remove_char "[" s)))
                   (column_dict, []) ;;
       unit <- series_get row "unit" ;;
       let column_dict :=
         if negb (cell_eq_str unit "str") then
           dict_set column_dict i
             (value_unit (VList value_list) (value_of_cell unit))
         else dict_set column_dict i (VList value_list) in
       logging INFO (MsgDefinedAsList i column) ;;;
       ret (column_dict, names')
   else
     column_dict <- conversion filename column_dict row i column (CellStr s) ;;
     ret (column_dict, names')).
Proof.
  intros Hcell. unfold convert_row. rewrite Hcell.
  destruct (String.eqb i "label"); rewrite !bind_ret_l; reflexivity.
Qed.

(** C1, as the code has it. A cell whose text holds exactly one of the
    two bracket characters, and a cell without brackets whose text holds
    exactly one of the two brace characters, is reported by a warning and
    raises nothing; no entry is stored for its parameter, so the record
    under construction is left as it was (no raw string is put in). *)
Theorem unbalanced_cell_is_skipped filename column column_dict names i row s :
  series_get row column = ret (CellStr s) ->
  (xorb (char_in "[" s) (char_in "]" s) = true ->
   convert_row filename column (column_dict, names) (i, row) =
   ([Log WARNING (MsgBracketMissing filename column i)],
    Ok (column_dict,
        if String.eqb i "label" then (names ++ s ++ ", ")%string else names)))
  /\
  (char_in "[" s = false -> char_in "]" s = false ->
   xorb (char_in "{" s) (char_in "}" s) = true ->
   convert_row filename column (column_dict, names) (i, row) =
   ([Log WARNING (MsgBraceMissing filename column i)],
    Ok (column_dict,
        if String.eqb i "label" then (names ++ s ++ ", ")%string else names))).
Proof.
  intros Hcell. rewrite (convert_row_label _ _ _ _ _ _ _ Hcell). split.
  - intros Hx.
    destruct (char_in "[" s), (char_in "]" s); simpl in *;
      try discriminate; reflexivity.
  - intros Hl Hr Hx. rewrite Hl, Hr. simpl.
    unfold conversion. simpl.
    destruct (char_in "{" s), (char_in "}" s); simpl in *;
      try discriminate; reflexivity.
Qed.

End CsvProperties.

Lemma unbalanced_cell_is_skipped_witness :
  let row := {| s_index := ["unit"; "transformer"];
                s_data := [("unit", CellStr "factor");
                           ("transformer", CellStr "[1;2")] |} in
  series_get row "transformer" = ret (CellStr "[1;2") /\
  xorb (char_in "[" "[1;2") (char_in "]" "[1;2") = true /\
  @convert_row nan_only no_json "energyConversion" "transformer"
     ([], "") ("efficiency", row) =
  ([Log WARNING (MsgBracketMissing "energyConversion" "transformer"
                                   "efficiency")],
   Ok ([], "")).
Proof.
  intros row. split; [reflexivity|]. split; [reflexivity|].
  apply (proj1 (@unbalanced_cell_is_skipped nan_only no_json
                  "energyConversion" "transformer" [] "" "efficiency" row
                  "[1;2" eq_refl)).
  reflexivity.
Defined.

(** C1, as the claim states it, fails: the table [conversion_table] has
    the cell ["[1;2"] for the efficiency of its asset, the table is
    converted without an exception, and the record of the asset holds
    no entry for the efficiency, hence no raw string ["[1;2"]. *)
Lemma unbalanced_cell_no_raw_string :
  exists log single_dict,
    snd (@create_json_from_csv nan_only no_json example_constants 1
           directory "energyConversion" conversion_parameters false) =
    (log, Ok [("energyConversion", VDict single_dict)]) /\
    In (Log WARNING (MsgBracketMissing "energyConversion" "transformer"
                                       "efficiency")) log /\
    parameter_of single_dict "transformer" "efficiency" = None /\
    parameter_of single_dict "transformer" "efficiency" <>
    Some (VStr "[1;2").
Proof.
  eexists. eexists. split; [vm_compute; reflexivity|].
  split; [simpl; tauto|]. split; [reflexivity|]. discriminate.
Qed.
(** A cell with both brackets and a single brace in its first item is
    not covered by the above: nothing is stored for the item, and the
    look-up [column_dict[i]] of line 331 raises [KeyError]. *)
Example bracketed_item_with_one_brace :
  let row := {| s_index := ["unit"; "transformer"];
                s_data := [("unit", CellStr "factor");
                           ("transformer", CellStr "[{a;1]")] |} in
  @convert_row nan_only no_json "energyConversion" "transformer"
     ([], "") ("efficiency", row) =
  ([Log WARNING (MsgBraceMissing "energyConversion" "transformer"
                                 "efficiency")],
   Raise KeyError).
Proof. reflexivity. Qed.

(** ** Bracketed lists and booleans *)

(** Left identity of [bind], wherever a [ret] feeds a continuation. *)
Ltac bind_ret :=
  repeat match goal with
         | |- context [bind (ret ?a) ?k] => rewrite (@bind_ret_l _ _ a k)
         end.

Section Coercion.
Context {F : PyFloat} {J : PyJson}.

(** An integer literal without braces under a unit that is neither
    ["str"] nor ["bool"] becomes a [value_unit] node. *)
Lemma conversion_int filename column_dict row i column s u z :
  series_get row "unit" = ret (CellStr u) ->
  u <> "str" -> u <> "bool" ->
  char_in "{" s = false -> char_in "}" s = false ->
  s <> "None" ->
  int_of_str s = Some z ->
  conversion filename column_dict row i column (CellStr s) =
  ret (dict_set column_dict i (value_unit (VInt z) (VStr u))).
Proof.
  intros Hunit Hstr Hbool Hl Hr Hnone Hint.
  unfold conversion. simpl. rewrite Hl, Hr. simpl.
  rewrite Hunit, bind_ret_l. simpl.
  destruct (String.eqb_spec u "str"); [contradiction|].
  destruct (String.eqb_spec u "bool"); [contradiction|].
  destruct (String.eqb_spec s "None"); [contradiction|].
  rewrite Hint, bind_ret_l. reflexivity.
Qed.

(** C7. The cell ["[1;2;3]"] of a row whose unit is ["factor"] is
    split on [;] and each part is converted under the same unit; the
    parameter gets one node that holds the list of the three integers 1,
    2 and 3 and the unit ["factor"]. *)
Theorem bracketed_list_of_three filename column column_dict names i row :
  series_get row column = ret (CellStr "[1;2;3]") ->
  series_get row "unit" = ret (CellStr "factor") ->
  convert_row filename column (column_dict, names) (i, row) =
  ([Log INFO (MsgDefinedAsList i column)],
   Ok (dict_set column_dict i
         (value_unit (VList [VInt 1; VInt 2; VInt 3]) (VStr "factor")),
       if String.eqb i "label"
       then (names ++ "[1;2;3]" ++ ", ")%string else names)).
Proof.
  intros Hcell Hunit.
  rewrite (convert_row_label _ _ _ _ _ _ _ Hcell).
  cbn [char_in Ascii.eqb Bool.eqb orb negb andb remove_char split_on].
  assert (Hitem : forall d s z, int_of_str s = Some z ->
            char_in "{" s = false -> char_in "}" s = false -> s <> "None" ->
            conversion filename d row i column (CellStr s) =
            ret (dict_set d i (value_unit (VInt z) (VStr "factor")))).
  { intros d s z Hz Hl Hr Hn.
    apply conversion_int; try assumption; discriminate. }
  assert (Hstep : forall d acc s z rest, int_of_str s = Some z ->
            char_in "{" s = false -> char_in "}" s = false -> s <> "None" ->
            for_each (convert_list_item filename row i column) (s :: rest)
                     (d, acc) =
            for_each (convert_list_item filename row i column) rest
                     (dict_set d i (value_unit (VInt z) (VStr "factor")),
                      acc ++ [VInt z])).
  { intros d acc s z rest Hz Hl Hr Hn.
    cbn [for_each convert_list_item].
    rewrite (Hitem d s z Hz Hl Hr Hn). bind_ret. rewrite Hunit. bind_ret.
    cbn [cell_eq_str String.eqb Ascii.eqb Bool.eqb negb].
    rewrite dict_get_set_same. cbn [lift]. bind_ret.
    unfold value_unit at 1. cbn [py_contains dict_has dict_get String.eqb
                                 Ascii.eqb Bool.eqb].
    bind_ret.
    unfold value_unit at 1.
    cbn [py_getitem dict_get String.eqb Ascii.eqb Bool.eqb lift].
    bind_ret. reflexivity. }
  rewrite (Hstep _ _ "1" 1%Z) by (reflexivity || discriminate).
  rewrite (Hstep _ _ "2" 2%Z) by (reflexivity || discriminate).
  rewrite (Hstep _ _ "3" 3%Z) by (reflexivity || discriminate).
  cbn [for_each app]. bind_ret. rewrite Hunit. bind_ret.
  cbn [cell_eq_str String.eqb Ascii.eqb Bool.eqb negb value_of_cell].
  rewrite !dict_set_set. reflexivity.
Qed.


End Coercion.

Lemma bracketed_list_of_three_witness :
  let row := {| s_index := ["unit"; "transformer"];
                s_data := [("unit", CellStr "factor");
                           ("transformer", CellStr "[1;2;3]")] |} in
  series_get row "transformer" = ret (CellStr "[1;2;3]") /\
  series_get row "unit" = ret (CellStr "factor") /\
  @convert_row nan_only no_json "energyConversion" "transformer"
     ([], "") ("efficiency", row) =
  ([Log INFO (MsgDefinedAsList "efficiency" "transformer")],
   Ok ([("efficiency",
         value_unit (VList [VInt 1; VInt 2; VInt 3]) (VStr "factor"))], "")).
Proof.
  intros row. split; [reflexivity|]. split; [reflexivity|].
  apply (@bracketed_list_of_three nan_only no_json
           "energyConversion" "transformer" [] "" "efficiency" row);
    reflexivity.
Defined.



(** ** The parameter list of the caller, the artifact, reconciliation *)

Section TableProperties.
Context {F : PyFloat} {J : PyJson} {K : CsvConstants}.


Lemma path_exists_set (fs : filesystem) name f :
  path_exists (dict_set fs name f) name = true.
Proof. apply dict_has_set. Qed.

(** C5. When the artifact exists in the input directory,
    [create_input_json] raises [FileExistsError] before it reads or
    writes anything: the directory and the required parameters are
    left as they were. So a second call after a call that succeeded
    raises, and leaves the directory, with the artifact of the first
    call, untouched. *)
Theorem artifact_is_never_overwritten fuel fs required pass_back :
  (path_exists fs CSV_FNAME = true ->
   create_input_json fuel fs required pass_back =
   (fs, required, ([Log INFO MsgLoadingAll], Raise FileExistsError)))
  /\
  (forall fs1 required1 log name,
     create_input_json fuel fs required pass_back =
     (fs1, required1, (log, Ok name)) ->
     (exists tree, dict_get fs1 CSV_FNAME = Some (FileJson tree)) /\
     forall fuel' pass_back',
       create_input_json fuel' fs1 required1 pass_back' =
       (fs1, required1, ([Log INFO MsgLoadingAll], Raise FileExistsError))).
Proof.
  assert (Hfirst : forall fuel fs required pass_back,
    path_exists fs CSV_FNAME = true ->
    create_input_json fuel fs required pass_back =
    (fs, required, ([Log INFO MsgLoadingAll], Raise FileExistsError))).
  { clear. intros fuel fs required pass_back Hex.
    unfold create_input_json. rewrite Hex. reflexivity. }
  split; [apply Hfirst|].
  intros fs1 required1 log name Hcall.
  unfold create_input_json in Hcall.
  destruct (path_exists fs CSV_FNAME) eqn:Hex.
  { injection Hcall as _ _ _ Hr. discriminate. }
  destruct (read_all_csv fuel fs (dict_keys fs) required [] [])
    as [required' m] eqn:Hread.
  destruct (logging INFO MsgLoadingAll;;; _) as [log' [input_json|e|]] eqn:Hm;
    try (injection Hcall as _ _ _ Hr; discriminate).
  injection Hcall as <- _ _ _.
  split.
  - eexists. apply dict_get_set_same.
  - intros fuel' pass_back'. apply Hfirst. apply path_exists_set.
Qed.

Lemma in_set_diff x a b : In x (set_diff a b) <-> In x a /\ ~ In x b.
Proof.
  unfold set_diff. rewrite filter_In, negb_true_iff, str_mem_false. tauto.
Qed.

Lemma in_py_set x l : In x (py_set l) <-> In x l.
Proof. unfold py_set. apply nodup_In. Qed.

Lemma in_set_xor x a b :
  In x (set_xor (py_set a) (py_set b)) <->
  (In x a /\ ~ In x b) \/ (In x b /\ ~ In x a).
Proof.
  unfold set_xor. rewrite in_app_iff, !in_set_diff, !in_py_set. tauto.
Qed.

Lemma check_parameters_over_log filename parameters extra :
  check_parameters_over filename parameters extra =
  (map (fun i => if str_mem i parameters
                 then Log ERROR (MsgParameterMissing filename i)
                 else Log ERROR (MsgParameterNotRecognized filename i))
       extra,
   Ok tt).
Proof.
  unfold check_parameters_over.
  induction extra as [|a l IH]; [reflexivity|].
  cbn [for_each map]. destruct (str_mem a parameters);
    rewrite bind_logging, IH; reflexivity.
Qed.

Lemma check_parameters_log filename parameters index :
  check_parameters filename parameters index =
  (map (fun i => if str_mem i parameters
                 then Log ERROR (MsgParameterMissing filename i)
                 else Log ERROR (MsgParameterNotRecognized filename i))
       (set_xor (py_set parameters) (py_set index)),
   Ok tt).
Proof. unfold check_parameters. apply check_parameters_over_log. Qed.

End TableProperties.

Section Reconcile.
Context {F : PyFloat} {C : MvsConstants}.

Lemma reconcile_name_no_default mp k req sp s :
  reconcile_name false mp k req sp s =
  (if str_mem sp req
   then with_missing s (append_name (missing_parameters s) mp sp)
   else if str_mem sp (names_under (extra_parameters s) mp) then s
        else with_extra s (append_name (extra_parameters s) mp sp),
   ([], Ok tt)).
Proof.
  unfold reconcile_name, sm_bind, sm_get, sm_put, sm_ret. cbn.
  destruct (str_mem sp req); [reflexivity|].
  destruct (str_mem sp (names_under (extra_parameters s) mp)); reflexivity.
Qed.

Lemma names_under_append d mp sp :
  names_under (append_name d mp sp) mp = names_under d mp ++ [sp].
Proof. unfold append_name, names_under at 1. now rewrite dict_get_set_same. Qed.

(** Without default filling, reconciling a list of names files each of
    them under missing (when required) or under extra (otherwise) and
    leaves [main_parameters] alone. *)
Lemma reconcile_names_no_default mp k req l : forall s,
  exists s',
    sm_for (reconcile_name false mp k req) l s = (s', ([], Ok tt)) /\
    main_parameters s' = main_parameters s /\
    (forall x, In x (names_under (missing_parameters s') mp) <->
               In x (names_under (missing_parameters s) mp) \/
               (In x l /\ In x req)) /\
    (forall x, In x (names_under (extra_parameters s') mp) <->
               In x (names_under (extra_parameters s) mp) \/
               (In x l /\ ~ In x req)).
Proof.
  induction l as [|sp l IH]; intros s.
  - exists s. cbn. repeat split; try tauto.
  - cbn [sm_for]. unfold sm_bind. rewrite reconcile_name_no_default.
    destruct (str_mem sp req) eqn:Hreq.
    + destruct (IH (with_missing s (append_name (missing_parameters s) mp sp)))
        as (s' & Hrun & Hmain & Hmiss & Hextra).
      exists s'. rewrite Hrun. split; [reflexivity|].
      split; [exact Hmain|]. apply str_mem_In in Hreq. split.
      * intros x. rewrite Hmiss. cbn [missing_parameters with_missing].
        rewrite names_under_append, in_app_iff. cbn [In].
        split; [intros [[H|[<-|[]]]|[H1 H2]]|intros [H|[[<-|H1] H2]]]; tauto.
      * intros x. rewrite Hextra. cbn [extra_parameters with_missing In].
        split; [intros [H|[H1 H2]]|intros [H|[[<-|H1] H2]]]; tauto.
    + apply str_mem_false in Hreq.
      destruct (str_mem sp (names_under (extra_parameters s) mp)) eqn:Hseen.
      * destruct (IH s) as (s' & Hrun & Hmain & Hmiss & Hextra).
        exists s'. rewrite Hrun. split; [reflexivity|].
        split; [exact Hmain|]. apply str_mem_In in Hseen. split.
        -- intros x. rewrite Hmiss. cbn [In].
           split; [intros [H|[H1 H2]]|intros [H|[[<-|H1] H2]]]; tauto.
        -- intros x. rewrite Hextra. cbn [In].
           split; [intros [H|[H1 H2]]|intros [H|[[<-|H1] H2]]]; tauto.
      * destruct (IH (with_extra s (append_name (extra_parameters s) mp sp)))
          as (s' & Hrun & Hmain & Hmiss & Hextra).
        exists s'. rewrite Hrun. split; [reflexivity|].
        split; [exact Hmain|]. split.
        -- intros x. rewrite Hmiss. cbn [missing_parameters with_extra In].
           split; [intros [H|[H1 H2]]|intros [H|[[<-|H1] H2]]]; tauto.
        -- intros x. rewrite Hextra. cbn [extra_parameters with_extra].
           rewrite names_under_append, in_app_iff. cbn [In].
           split; [intros [[H|[<-|[]]]|[H1 H2]]|intros [H|[[<-|H1] H2]]];
             tauto.
Qed.

End Reconcile.

Section ReconcileClaim.
Context {F : PyFloat} {J : PyJson} {K : CsvConstants} {C : MvsConstants}.

(** C6. Both reconciliations report the symmetric difference and go
    on. In [create_json_from_csv] the check logs an error for exactly
    the names that are required and not provided (missing) and for
    exactly the names that are provided and not required (not
    recognized), and returns normally. In
    [compare_input_parameters_with_reference], without default filling,
    reconciling the names of one group adds to the missing names of the
    group exactly the required names that are not provided, adds to its
    extra names exactly the provided names that are not required, logs
    nothing, raises nothing and leaves the parameters alone. Both hold
    in whatever order the names of the symmetric difference are gone
    through: the log of the check is the same up to the order of its
    lines. For the required names a, b, c and the provided names a, b, d
    the symmetric difference is c, d; in either order the check logs c
    as missing and d as not recognized, and the missing name is c and
    the extra name is d. *)
Theorem reconcile_is_symmetric_difference
    filename mp k (required provided : list string) s :
  (snd (check_parameters filename required provided) = Ok tt /\
   (forall name,
      In (Log ERROR (MsgParameterMissing filename name))
         (fst (check_parameters filename required provided)) <->
      In name required /\ ~ In name provided) /\
   (forall name,
      In (Log ERROR (MsgParameterNotRecognized filename name))
         (fst (check_parameters filename required provided)) <->
      In name provided /\ ~ In name required))
  /\
  (exists s',
     reconcile_sub false mp k (Some required) (ret provided) s =
     (s', ([], Ok tt)) /\
     main_parameters s' = main_parameters s /\
     (forall name,
        In name (names_under (missing_parameters s') mp) <->
        In name (names_under (missing_parameters s) mp) \/
        (In name required /\ ~ In name provided)) /\
     (forall name,
        In name (names_under (extra_parameters s') mp) <->
        In name (names_under (extra_parameters s) mp) \/
        (In name provided /\ ~ In name required)))
  /\
  (forall order,
     Permutation order (set_xor (py_set required) (py_set provided)) ->
     (exists log,
        check_parameters_over filename required order = (log, Ok tt) /\
        Permutation log (fst (check_parameters filename required provided)))
     /\
     (exists s',
        sm_for (reconcile_name false mp k required) order s =
        (s', ([], Ok tt)) /\
        main_parameters s' = main_parameters s /\
        (forall name,
           In name (names_under (missing_parameters s') mp) <->
           In name (names_under (missing_parameters s) mp) \/
           (In name required /\ ~ In name provided)) /\
        (forall name,
           In name (names_under (extra_parameters s') mp) <->
           In name (names_under (extra_parameters s) mp) \/
           (In name provided /\ ~ In name required))))
  /\
  (Permutation (set_xor (py_set ["a"; "b"; "c"]) (py_set ["a"; "b"; "d"]))
               ["c"; "d"] /\
   forall order,
     Permutation order ["c"; "d"] ->
     (exists log,
        check_parameters_over filename ["a"; "b"; "c"] order = (log, Ok tt) /\
        Permutation log
          [Log ERROR (MsgParameterMissing filename "c");
           Log ERROR (MsgParameterNotRecognized filename "d")]) /\
     sm_for (reconcile_name false mp "non-asset" ["a"; "b"; "c"]) order
       {| main_parameters := MainDict []; extra_parameters := [];
          missing_parameters := []; sub_params := None |} =
     ({| main_parameters := MainDict []; extra_parameters := [(mp, ["d"])];
         missing_parameters := [(mp, ["c"])]; sub_params := None |},
      ([], Ok tt))).
Proof.
  split; [|split; [|split]].
  - rewrite check_parameters_log. cbn [fst snd].
    split; [reflexivity|]. split; intros name; rewrite in_map_iff.
    + split.
      * intros (x & Hx & Hin). apply in_set_xor in Hin.
        destruct (str_mem x required) eqn:Hreq; [|discriminate].
        injection Hx as ->. apply str_mem_In in Hreq. tauto.
      * intros [Hr Hp]. exists name. split.
        -- apply str_mem_In in Hr. now rewrite Hr.
        -- apply in_set_xor. tauto.
    + split.
      * intros (x & Hx & Hin). apply in_set_xor in Hin.
        destruct (str_mem x required) eqn:Hreq; [discriminate|].
        injection Hx as ->. apply str_mem_false in Hreq. tauto.
      * intros [Hp Hr]. exists name. split.
        -- apply str_mem_false in Hr. now rewrite Hr.
        -- apply in_set_xor. tauto.
  - unfold reconcile_sub, sm_bind, sm_lift. cbn [ret].
    destruct (reconcile_names_no_default mp k required
                (set_xor (py_set provided) (py_set required)) s)
      as (s' & Hrun & Hmain & Hmiss & Hextra).
    exists s'. rewrite Hrun. split; [reflexivity|].
    split; [exact Hmain|]. split; intros name.
    + rewrite Hmiss, in_set_xor. tauto.
    + rewrite Hextra, in_set_xor. tauto.
  - intros order Hperm. split.
    + rewrite check_parameters_over_log, check_parameters_log. cbn [fst].
      eexists. split; [reflexivity|]. now apply Permutation_map.
    + destruct (reconcile_names_no_default mp k required order s)
        as (s' & Hrun & Hmain & Hmiss & Hextra).
      exists s'. split; [exact Hrun|]. split; [exact Hmain|].
      assert (Hin : forall x, In x order <->
                (In x required /\ ~ In x provided) \/
                (In x provided /\ ~ In x required)).
      { intros x. rewrite <- in_set_xor. split; intros H.
        - eapply Permutation_in; eauto.
        - eapply Permutation_in; [apply Permutation_sym|]; eauto. }
      split; intros name.
      * rewrite Hmiss, Hin. tauto.
      * rewrite Hextra, Hin. tauto.
  - split; [reflexivity|].
    intros order Hperm. apply Permutation_sym in Hperm.
    apply Permutation_length_2_inv in Hperm.
    destruct Hperm as [-> | ->].
    + split; [|reflexivity].
      rewrite check_parameters_over_log. eexists. split; [reflexivity|].
      reflexivity.
    + split; [|reflexivity].
      rewrite check_parameters_over_log. eexists. split; [reflexivity|].
      cbn. apply perm_swap.
Qed.

End ReconcileClaim.

(** ** A storage sub-table that does not exist *)

Section MissingStorage.
Context {F : PyFloat} {J : PyJson} {K : CsvConstants}.

(** What [add_storage_components] does for a file that is not there: it
    logs an error and returns [None]. *)
Lemma add_storage_components_missing fuel (fs : filesystem) name :
  path_exists fs (name ++ ".csv")%string = false ->
  add_storage_components fuel fs name =
  ([Log ERROR (MsgStorageFileMissing name)], Ok None).
Proof.
  intros Hno. unfold add_storage_components, add_storage_components_with.
  rewrite Hno. reflexivity.
Qed.

(** Whenever the rows of a column of [energyStorage.csv] have been
    converted and the sub-table that the column names is not there, the
    step for the column ends in [TypeError], after the error has been
    logged. *)
Lemma missing_storage_file_raises fuel (fs : filesystem) parameters st column
    log column_dict names name :
  column <> "unit" ->
  for_each (convert_row "energyStorage" column) (iterrows (df st))
           ([], asset_name_string st) = (log, Ok (column_dict, names)) ->
  storage_filename_of (df st) column = ret name ->
  path_exists fs (name ++ ".csv")%string = false ->
  convert_column (add_storage_components fuel fs) "energyStorage" parameters
                 false st column =
  (log ++ [Log ERROR (MsgStorageFileMissing name)], Raise TypeError).
Proof.
  intros Hcol Hrows Hname Hno. unfold convert_column.
  destruct (String.eqb_spec column "unit"); [contradiction|].
  cbn [negb]. rewrite bind_ret_l, Hrows, bind_ok.
  cbn beta iota. cbn [String.eqb Ascii.eqb Bool.eqb].
  rewrite Hname, bind_ret_l.
  rewrite (add_storage_components_missing fuel fs name Hno).
  rewrite bind_ok. reflexivity.
Qed.

End MissingStorage.

(** C3 fails on the code. In [directory_without_storage_01] the asset
    [battery] of [energyStorage.csv] names the sub-table
    [storage_01.csv], which is not there. [add_storage_components] logs
    the error and returns [None], and [single_dict[column].update(None)]
    raises [TypeError]: the conversion of the table stops there, the
    asset [tank], whose sub-table exists, is never read, and
    [create_input_json] ends in the same exception without writing the
    artifact. With the sub-table in place the same run completes. *)
Theorem missing_storage_file_stops_the_run :
  (exists log,
     snd (@create_json_from_csv nan_only no_json example_constants 2
            directory_without_storage_01 "energyStorage"
            ["unit"; "label"; "storage_filename"] false) =
     (log, Raise TypeError) /\
     In (Log ERROR (MsgStorageFileMissing "storage_01")) log /\
     ~ In (Log DEBUG (MsgLoadingCsv "storage_02")) log)
  /\
  (exists required log,
     @create_input_json nan_only no_json example_constants 2
        directory_without_storage_01 example_required true =
     (directory_without_storage_01, required, (log, Raise TypeError)))
  /\
  (exists fs required log,
     @create_input_json nan_only no_json example_constants 2
        directory example_required true =
     (fs, required, (log, Ok (Some "mvs_csv_config.json")))).
Proof.
  split; [|split].
  - eexists. split; [vm_compute; reflexivity|]. split.
    + simpl. tauto.
    + simpl. intros H.
      repeat (destruct H as [H|H]; [discriminate H|]). exact H.
  - eexists. eexists. vm_compute. reflexivity.
  - eexists. eexists. eexists. vm_compute. reflexivity.
Qed.

(** ** Storage tables: a required parameter without a value *)

Lemma filter_map_same {A : Type} (p : A -> bool) (f : A -> A) (l : list A) :
  (forall a, p (f a) = p a) -> filter p (map f l) = map f (filter p l).
Proof.
  intros Hp. induction l as [|a l IH]; [reflexivity|].
  cbn [map filter]. rewrite Hp. destruct (p a); cbn [map]; now rewrite IH.
Qed.

Lemma filter_map_id {A : Type} (p : A -> bool) (f : A -> A) (l : list A) :
  (forall a, p (f a) = p a) -> (forall a, p a = true -> f a = a) ->
  filter p (map f l) = filter p l.
Proof.
  intros Hp Hid. rewrite filter_map_same by assumption.
  induction l as [|a l IH]; [reflexivity|].
  cbn [filter]. destruct (p a) eqn:E; [|assumption].
  cbn [map]. now rewrite IH, Hid.
Qed.

Lemma cell_at_set_same data column v :
  cell_at (dict_set data column v) column = v.
Proof. unfold cell_at. now rewrite dict_get_set_same. Qed.

Lemma cell_at_set_other data column c v :
  column <> c -> cell_at (dict_set data column v) c = cell_at data c.
Proof. intros H. unfold cell_at. now rewrite dict_get_set_other. Qed.

Lemma df_at_set_other_row df i j column c v :
  i <> j -> df_at (df_set df j column v) i c = df_at df i c.
Proof.
  intros Hne. unfold df_at, df_set. cbn [df_rows].
  rewrite filter_map_id; [reflexivity| |].
  - intros [l d]. cbn [fst]. now destruct (String.eqb l j).
  - intros [l d]. cbn [fst]. intros Hl. apply String.eqb_eq in Hl. subst l.
    destruct (String.eqb_spec i j); [contradiction|reflexivity].
Qed.

Lemma df_at_set_same df i column c v x :
  df_at df i c = Some x ->
  df_at (df_set df i column v) i c =
  Some (if String.eqb column c then v else x).
Proof.
  unfold df_at, df_set. cbn [df_rows]. intros H.
  rewrite filter_map_same.
  2:{ intros [l d]. cbn [fst].
      destruct (String.eqb l i) eqn:E; cbn [fst]; now rewrite E. }
  destruct (filter (fun r => String.eqb (fst r) i) (df_rows df))
    as [|[l d] [|? ?]] eqn:Hf; try discriminate.
  injection H as <-.
  assert (Hl : String.eqb l i = true).
  { assert (Hin : In (l, d) (filter (fun r => String.eqb (fst r) i)
                                    (df_rows df)))
      by (rewrite Hf; now left).
    apply filter_In in Hin. exact (proj2 Hin). }
  cbn [map fst snd]. rewrite Hl. cbn [snd].
  destruct (String.eqb_spec column c) as [<-|Hc].
  - now rewrite cell_at_set_same.
  - now rewrite cell_at_set_other.
Qed.

Lemma df_at_in_index df i c x : df_at df i c = Some x -> In i (df_index df).
Proof.
  unfold df_at, df_index. intros H.
  destruct (filter (fun r => String.eqb (fst r) i) (df_rows df))
    as [|r l] eqn:Hf; [discriminate|].
  assert (Hin : In r (filter (fun r => String.eqb (fst r) i) (df_rows df)))
    by (rewrite Hf; now left).
  apply filter_In in Hin. destruct Hin as [Hin Hl].
  apply String.eqb_eq in Hl. subst i. now apply in_map.
Qed.

Section StorageProperties.
Context {F : PyFloat} {J : PyJson} {K : CsvConstants}.

Variables (filename column i : string) (column_parameters : list string).
Hypothesis required_here : In i column_parameters.
Hypothesis not_unit_column : column <> "unit".

(** One step of the check, seen from the cell of [i] in [column]: it is
    [0] afterwards if it was [0] or if the step is the one for [i], and
    the cell of [i] in the column [unit] stays. *)
Lemma storage_check_row_cell df j u :
  df_at df i "unit" = Some u ->
  df_at df i column = Some CellNaN \/ df_at df i column = Some (CellInt 0) ->
  exists log df',
    storage_check_row filename column column_parameters df j =
    (log, Ok df') /\
    df_columns df' = df_columns df /\
    df_at df' i "unit" = Some u /\
    (j = i -> df_at df' i column = Some (CellInt 0)) /\
    (j = i -> df_at df i column = Some CellNaN ->
     In (Log WARNING (MsgStorageNaNSetToZero filename i column)) log) /\
    (j <> i -> df_at df' i column = df_at df i column).
Proof.
  intros Hu Hcell. unfold storage_check_row.
  destruct (String.eqb_spec j i) as [->|Hne].
  - apply str_mem_In in required_here. rewrite required_here. cbn [negb].
    destruct Hcell as [Hc|Hc]; rewrite Hc; cbn [isnull].
    + rewrite bind_logging. cbn [ret fst snd].
      eexists. eexists. split; [reflexivity|].
      split; [reflexivity|]. split; [|split; [|split]].
      * rewrite (df_at_set_same _ _ _ _ _ _ Hu).
        destruct (String.eqb_spec column "unit"); [contradiction|reflexivity].
      * intros _. rewrite (df_at_set_same _ _ _ _ _ _ Hc).
        now rewrite String.eqb_refl.
      * intros _ _. now left.
      * intros H. contradiction.
    + eexists. eexists. split; [reflexivity|].
      split; [reflexivity|]. split; [exact Hu|]. split; [|split].
      * intros _. exact Hc.
      * intros _ H. discriminate.
      * intros H. contradiction.
  - assert (Hset : forall v,
              df_at (df_set df j column v) i "unit" = Some u /\
              df_at (df_set df j column v) i column = df_at df i column).
    { intros v. rewrite !df_at_set_other_row by congruence. now split. }
    destruct (negb (str_mem j column_parameters)).
    + destruct (negb (str_mem j storage_only_parameters)).
      * rewrite bind_logging. cbn [ret fst snd].
        eexists. eexists. split; [reflexivity|].
        destruct (Hset (CellStr "NaN")) as [H1 H2].
        repeat split; try assumption; intros; congruence.
      * destruct (match df_at df j column with
                  | Some c => negb (isnull c) | None => false end).
        -- rewrite bind_logging. cbn [ret fst snd].
           eexists. eexists. split; [reflexivity|].
           destruct (Hset (CellStr "NaN")) as [H1 H2].
           repeat split; try assumption; intros; congruence.
        -- rewrite bind_logging. cbn [ret fst snd].
           eexists. eexists. split; [reflexivity|].
           repeat split; try assumption; intros; congruence.
    + destruct (match df_at df j column with
                | Some c => isnull c | None => false end).
      * rewrite bind_logging. cbn [ret fst snd].
        eexists. eexists. split; [reflexivity|].
        destruct (Hset (CellInt 0)) as [H1 H2].
        repeat split; try assumption; intros; congruence.
      * eexists. eexists. split; [reflexivity|].
        repeat split; try assumption; intros; congruence.
Qed.

(** The loop of the check over a list of labels. *)
Lemma storage_check_rows_cell u l : forall df,
  df_at df i "unit" = Some u ->
  df_at df i column = Some CellNaN \/ df_at df i column = Some (CellInt 0) ->
  exists log df',
    for_each (storage_check_row filename column column_parameters) l df =
    (log, Ok df') /\
    df_columns df' = df_columns df /\
    df_at df' i "unit" = Some u /\
    (In i l -> df_at df' i column = Some (CellInt 0)) /\
    (In i l -> df_at df i column = Some CellNaN ->
     In (Log WARNING (MsgStorageNaNSetToZero filename i column)) log) /\
    (df_at df i column = Some (CellInt 0) ->
     df_at df' i column = Some (CellInt 0)).
Proof.
  induction l as [|j l IH]; intros df Hu Hcell.
  - exists [], df. cbn. repeat split; try tauto.
  - destruct (storage_check_row_cell df j u Hu Hcell)
      as (log1 & df1 & Hrun1 & Hcols1 & Hu1 & Hsame1 & Hlog1 & Hother1).
    assert (Hcell1 : df_at df1 i column = Some CellNaN \/
                     df_at df1 i column = Some (CellInt 0)).
    { destruct (String.eqb_spec j i) as [Heq|Hne].
      - right. now apply Hsame1.
      - rewrite (Hother1 Hne). exact Hcell. }
    destruct (IH df1 Hu1 Hcell1)
      as (log2 & df2 & Hrun2 & Hcols2 & Hu2 & Hin2 & Hlog2 & Hzero2).
    exists (log1 ++ log2), df2. cbn [for_each].
    rewrite Hrun1, bind_ok, Hrun2. cbn [fst snd].
    split; [reflexivity|]. split; [congruence|]. split; [exact Hu2|].
    split; [|split].
    + intros [Heq|Hin].
      * apply Hzero2. now apply Hsame1.
      * now apply Hin2.
    + intros Hin Hnan. apply in_or_app.
      destruct (String.eqb_spec j i) as [Heq|Hne].
      * left. now apply Hlog1.
      * right. destruct Hin as [Heq|Hin]; [contradiction|].
        apply Hlog2; [assumption|]. now rewrite (Hother1 Hne).
    + intros Hzero. apply Hzero2.
      destruct (String.eqb_spec j i) as [Heq|Hne].
      * now apply Hsame1.
      * now rewrite (Hother1 Hne).
Qed.

End StorageProperties.

(** Taking apart a computation that is known to have returned. *)
Ltac inv_ok :=
  repeat match goal with
  | H : bind _ _ = (_, Ok _) |- _ =>
      apply bind_inv_ok in H;
      let H1 := fresh "Hm" in let H2 := fresh "Hk" in
      destruct H as (? & ? & ? & H1 & H2 & ?); cbn beta in H2
  | H : ret _ = (_, Ok _) |- _ => unfold ret in H
  | H : raise _ = (_, Ok _) |- _ => discriminate H
  | H : (_, Raise _) = (_, Ok _) |- _ => discriminate H
  | H : (_, OutOfFuel) = (_, Ok _) |- _ => discriminate H
  | H : (_, Ok _) = (_, Ok _) |- _ => injection H as ? ?
  | H : logging _ _ = (_, Ok _) |- _ => unfold logging in H
  | H : lift _ ?o = (_, Ok _) |- _ => destruct o eqn:?; cbn [lift] in H
  | H : (if ?c then _ else _) = (_, Ok _) |- _ => destruct c eqn:?
  | H : match ?x with _ => _ end = (_, Ok _) |- _ => destruct x eqn:?
  | H : (let (_, _) := ?x in _) = (_, Ok _) |- _ => destruct x eqn:?
  end.

Section RowProperties.
Context {F : PyFloat} {J : PyJson}.

(** [conversion] writes at most the entry of its own parameter. *)
Lemma conversion_keeps_others filename cd row j column v log cd' :
  conversion filename cd row j column v = (log, Ok cd') ->
  forall i, i <> j -> dict_get cd' i = dict_get cd i.
Proof.
  unfold conversion, series_get. intros H i Hne.
  inv_ok; subst; try reflexivity;
    now rewrite dict_get_set_other by congruence.
Qed.

Lemma convert_list_items_keep_others filename row j column l :
  forall cd acc log cd' acc',
    for_each (convert_list_item filename row j column) l (cd, acc) =
    (log, Ok (cd', acc')) ->
    forall i, i <> j -> dict_get cd' i = dict_get cd i.
Proof.
  induction l as [|item l IH]; intros cd acc log cd' acc' H i Hne.
  - cbn in H. inv_ok. now subst.
  - cbn [for_each] in H. apply bind_inv_ok in H.
    destruct H as (l1 & [cd1 acc1] & l2 & Hitem & Hrest & _).
    rewrite (IH _ _ _ _ _ Hrest i Hne).
    unfold convert_list_item in Hitem.
    apply bind_inv_ok in Hitem.
    destruct Hitem as (l3 & cd2 & l4 & Hconv & Hk & _).
    rewrite <- (conversion_keeps_others _ _ _ _ _ _ _ _ Hconv i Hne).
    unfold series_get in Hk. inv_ok; congruence.
Qed.

(** [convert_row] writes at most the entry of its own parameter. *)
Lemma convert_row_keeps_others filename column cd names j row log cd' names' :
  convert_row filename column (cd, names) (j, row) = (log, Ok (cd', names')) ->
  forall i, i <> j -> dict_get cd' i = dict_get cd i.
Proof.
  unfold convert_row. intros H i Hne.
  apply bind_inv_ok in H. destruct H as (l1 & names1 & l2 & _ & H & _).
  apply bind_inv_ok in H. destruct H as (l3 & c & l4 & _ & H & _).
  destruct (str_with_either "[" "]" c).
  - destruct c as [s| |]; [|inv_ok; congruence|inv_ok; congruence].
    destruct (negb (char_in "[" s) || negb (char_in "]" s)).
    + inv_ok. congruence.
    + apply bind_inv_ok in H.
      destruct H as (l5 & [cd1 vl] & l6 & Hitems & H & _).
      rewrite <- (convert_list_items_keep_others _ _ _ _ _ _ _ _ _ _
                    Hitems i Hne).
      unfold series_get in H. inv_ok; subst;
        match goal with
        | |- context [if ?c then _ else _] => destruct c
        end; now rewrite dict_get_set_other by congruence.
  - apply bind_inv_ok in H. destruct H as (l5 & cd1 & l6 & Hconv & H & _).
    rewrite <- (conversion_keeps_others _ _ _ _ _ _ _ _ Hconv i Hne).
    inv_ok. congruence.
Qed.

(** The row of a parameter whose cell is the integer [0]. *)
Lemma convert_row_zero filename column cd names i cols data u log cd' names' :
  cell_at data column = CellInt 0 ->
  cell_at data "unit" = u ->
  convert_row filename column (cd, names)
    (i, {| s_index := cols; s_data := data |}) = (log, Ok (cd', names')) ->
  dict_get cd' i =
  Some (if cell_eq_str u "str" then VInt 0
        else value_unit (VInt 0) (value_of_cell u)).
Proof.
  intros Hcell Hu H. unfold convert_row in H.
  apply bind_inv_ok in H. destruct H as (l1 & names1 & l2 & _ & H & _).
  unfold series_get in H. cbn [s_index s_data] in H.
  destruct (str_mem column cols); [|discriminate H].
  rewrite bind_ret_l, Hcell in H. cbn [str_with_either] in H.
  apply bind_inv_ok in H. destruct H as (l3 & cd1 & l4 & Hconv & H & _).
  inv_ok. subst cd1 names'. clear - Hconv Hu.
  unfold conversion, series_get in Hconv.
  cbn [str_with_either s_index s_data] in Hconv.
  destruct (str_mem "unit" cols); [|discriminate Hconv].
  rewrite bind_ret_l, Hu in Hconv.
  destruct (cell_eq_str u "str").
  - inv_ok. subst. apply dict_get_set_same.
  - cbn [cell_in cell_eq_str int_or_float] in Hconv.
    destruct (cell_eq_str u "bool").
    + rewrite bind_logging in Hconv. cbn [ret fst snd] in Hconv.
      rewrite bind_ok in Hconv. cbn [fst snd ret] in Hconv.
      inv_ok. subst. apply dict_get_set_same.
    + rewrite !bind_ret_l in Hconv. inv_ok. subst. apply dict_get_set_same.
Qed.

End RowProperties.

(** A loop that does not return stops at one of its steps. *)
Lemma for_each_not_ok {A S : Type} (body : S -> A -> M S) (l : list A) :
  forall s log r,
    for_each body l s = (log, r) ->
    (forall x, r <> Ok x) ->
    exists a s0 log0 r0,
      In a l /\ body s0 a = (log0, r0) /\
      (forall x, r0 <> Ok x) /\ (forall e, r = Raise e -> r0 = Raise e).
Proof.
  induction l as [|a l IH]; intros s log r H Hno.
  - cbn in H. injection H as _ <-. now destruct (Hno s).
  - cbn [for_each] in H. unfold bind in H.
    destruct (body s a) as [l1 [s1| e |]] eqn:Hbody.
    + destruct (for_each body l s1) as [l2 r2] eqn:Hrest.
      injection H as _ <-.
      destruct (IH _ _ _ Hrest Hno) as (b & s0 & log0 & r0 & Hin & Hb & H1 & H2).
      exists b, s0, log0, r0. repeat split; auto. now right.
    + injection H as _ <-.
      exists a, s, l1, (Raise e).
      split; [now left|]. split; [exact Hbody|].
      split; [intros x; discriminate|auto].
    + injection H as _ <-.
      exists a, s, l1, OutOfFuel.
      split; [now left|]. split; [exact Hbody|].
      split; [intros x; discriminate|intros e; discriminate].
Qed.

Section StorageColumn.
Context {F : PyFloat} {J : PyJson} {K : CsvConstants}.

(** The loop over the rows of a table in which every row labelled [i]
    holds the integer [0] in [column] and [u] in the column [unit]. *)
Lemma convert_rows_zero filename column i cols u l :
  (forall r, In r l -> fst r = i ->
             cell_at (snd r) column = CellInt 0 /\
             cell_at (snd r) "unit" = u) ->
  forall cd names log cd' names',
    for_each (convert_row filename column)
      (map (fun r => (fst r, {| s_index := cols; s_data := snd r |})) l)
      (cd, names) = (log, Ok (cd', names')) ->
    (In i (map fst l) ->
     dict_get cd' i =
     Some (if cell_eq_str u "str" then VInt 0
           else value_unit (VInt 0) (value_of_cell u))) /\
    (~ In i (map fst l) -> dict_get cd' i = dict_get cd i).
Proof.
  induction l as [|[j data] l IH]; intros Hrows cd names log cd' names' H.
  - cbn in H. inv_ok. subst. cbn. tauto.
  - cbn [map for_each fst snd] in H. apply bind_inv_ok in H.
    destruct H as (l1 & [cd1 names1] & l2 & Hrow & Hrest & _).
    assert (Hrows' : forall r, In r l -> fst r = i ->
              cell_at (snd r) column = CellInt 0 /\
              cell_at (snd r) "unit" = u).
    { intros r Hin. apply Hrows. now right. }
    destruct (IH Hrows' _ _ _ _ _ Hrest) as [Hin Hout].
    cbn [map fst In].
    destruct (String.eqb_spec j i) as [->|Hne].
    + destruct (Hrows (i, data) (or_introl eq_refl) eq_refl) as [Hc Hu].
      cbn [snd] in Hc, Hu.
      pose proof (convert_row_zero _ _ _ _ _ _ _ _ _ _ _ Hc Hu Hrow) as Hz.
      split; [|tauto]. intros _.
      destruct (in_dec string_dec i (map fst l)) as [Hi|Hi].
      * now apply Hin.
      * now rewrite (Hout Hi).
    + pose proof (convert_row_keeps_others _ _ _ _ _ _ _ _ _ Hrow i
                    (not_eq_sym Hne)) as Hk.
      split.
      * intros [Heq|Hi]; [contradiction|]. now apply Hin.
      * intros Hno. rewrite <- Hk. apply Hout. tauto.
Qed.

Lemma for_each_logs_only {A : Type} (body : unit -> A -> M unit) (l : list A) :
  (forall a, exists log, body tt a = (log, Ok tt)) ->
  exists log, for_each body l tt = (log, Ok tt).
Proof.
  intros Hbody. induction l as [|a l [log IH]].
  - now exists [].
  - destruct (Hbody a) as [log1 H1]. exists (log1 ++ log).
    cbn [for_each]. now rewrite H1, bind_ok, IH.
Qed.

(** For a column that bears the name of a role, the storage check
    raises nothing and comes down to the loop over the index. *)
Lemma storage_check_column_role filename column parameters extra df_copy
    role log2 df' :
  role_parameters column = Some role ->
  for_each (storage_check_row filename column (parameters ++ role))
           (df_index df_copy) df_copy = (log2, Ok df') ->
  exists log1,
    storage_check_column filename column parameters extra df_copy =
    (log1 ++ log2, Ok (Some role, df', df_notna df' column)).
Proof.
  intros Hrole Hrows. unfold storage_check_column. rewrite Hrole.
  assert (Hcount : exists l0,
    (if negb (Nat.eqb (List.length (df_columns df_copy)) 4)
     then logging ERROR (MsgStorageColumnCount filename
                           (List.length (df_columns df_copy)))
     else ret tt) = (l0, Ok tt)).
  { destruct (negb _); eexists; reflexivity. }
  destruct Hcount as [l0 ->]. rewrite bind_ok. cbn beta.
  rewrite bind_ret_l. cbn [lift]. rewrite bind_ret_l.
  destruct (for_each_logs_only
              (fun _ i => logging WARNING
                            (MsgStorageParameterMissing filename i column))
              (set_diff (py_set (parameters ++ role))
                        (py_set (df_index df_copy))))
    as [l1 ->].
  { intros a. eexists. reflexivity. }
  rewrite bind_ok. cbn beta. rewrite Hrows, bind_ok. cbn [fst snd ret].
  exists (l0 ++ l1). now rewrite app_nil_r, app_assoc.
Qed.

(** The row of a parameter other than [label] whose cell is the integer
    [0] is converted, whatever has been converted before. *)
Lemma convert_row_zero_ok filename column cd names i cols data :
  i <> "label" ->
  In column cols -> In "unit" cols ->
  cell_at data column = CellInt 0 ->
  exists log,
    convert_row filename column (cd, names)
      (i, {| s_index := cols; s_data := data |}) =
    (log,
     Ok (dict_set cd i
           (if cell_eq_str (cell_at data "unit") "str" then VInt 0
            else value_unit (VInt 0) (value_of_cell (cell_at data "unit"))),
         names)).
Proof.
  intros Hlabel Hcol Hunit Hcell. unfold convert_row.
  destruct (String.eqb_spec i "label"); [contradiction|].
  rewrite bind_ret_l. unfold series_get at 1. cbn [s_index s_data].
  apply str_mem_In in Hcol. rewrite Hcol, bind_ret_l, Hcell.
  cbn [str_with_either]. unfold conversion, series_get.
  cbn [str_with_either s_index s_data].
  apply str_mem_In in Hunit. rewrite Hunit, bind_ret_l.
  destruct (cell_eq_str (cell_at data "unit") "str").
  - rewrite bind_ret_l. eexists. reflexivity.
  - cbn [cell_in cell_eq_str int_or_float].
    destruct (cell_eq_str (cell_at data "unit") "bool").
    + rewrite bind_logging. cbn [ret fst snd]. rewrite !bind_ok.
      cbn [fst snd ret]. eexists. reflexivity.
    + rewrite !bind_ret_l. eexists. reflexivity.
Qed.

(** C2, as the code has it. In a storage table, for a column that bears
    the name of a role and a parameter other than [label] of the role's
    required set (the common parameters and those of the role) whose
    cell is NaN, the check logs a warning and writes the integer [0]
    into the cell, whatever else the conversion of the column does. The
    row of the parameter is then converted without an exception,
    whatever has been converted before it, so that the NaN is never the
    cause of a fatal error: if the conversion of the column does not
    return, it is the row of another parameter that does not. When the
    conversion returns, the record of the column holds the number [0]
    for the parameter, with the unit [u] of the parameter's row (the
    bare [0] when that unit is ["str"]), and not a null. *)
Theorem storage_nan_is_set_to_zero
    add_storage filename parameters st column role i u :
  role_parameters column = Some role ->
  filename <> "energyStorage" ->
  In i (parameters ++ role) ->
  i <> "label" ->
  In column (df_columns (df_copy st)) ->
  In "unit" (df_columns (df_copy st)) ->
  df_at (df_copy st) i column = Some CellNaN ->
  df_at (df_copy st) i "unit" = Some u ->
  let node := if cell_eq_str u "str" then VInt 0
              else value_unit (VInt 0) (value_of_cell u) in
  exists log r logc df',
    convert_column add_storage filename parameters true st column = (log, r) /\
    for_each (storage_check_row filename column (parameters ++ role))
             (df_index (df_copy st)) (df_copy st) = (logc, Ok df') /\
    In (Log WARNING (MsgStorageNaNSetToZero filename i column)) log /\
    df_at df' i column = Some (CellInt 0) /\
    (exists row, In (i, row) (iterrows (df_notna df' column))) /\
    (forall row cd names,
       In (i, row) (iterrows (df_notna df' column)) ->
       exists log',
         convert_row filename column (cd, names) (i, row) =
         (log', Ok (dict_set cd i node, names))) /\
    (forall st',
       r = Ok st' ->
       df_copy st' = df' /\
       parameter_of (single_dict st') column i = Some node) /\
    ((forall st', r <> Ok st') ->
     exists i' row cd names log' r',
       In (i', row) (iterrows (df_notna df' column)) /\
       i' <> i /\
       convert_row filename column (cd, names) (i', row) = (log', r') /\
       (forall x, r' <> Ok x) /\
       (forall e, r = Raise e -> r' = Raise e)).
Proof.
  intros Hrole Hname Hreq Hlabel Hcolumn Hunitcol Hnan Hunit node.
  assert (Hcol : column <> "unit").
  { intros ->. discriminate Hrole. }
  destruct (storage_check_rows_cell filename column i (parameters ++ role)
              Hreq Hcol u (df_index (df_copy st)) (df_copy st) Hunit
              (or_introl Hnan))
    as (log2 & df' & Hrows & Hcols & Hu' & Hzero & Hwarn & _).
  pose proof (df_at_in_index _ _ _ _ Hnan) as Hin.
  specialize (Hzero Hin). specialize (Hwarn Hin Hnan).
  destruct (storage_check_column_role filename column parameters (extra st)
              (df_copy st) role log2 df' Hrole Hrows) as [log1 Hcheck].
  (* the rows labelled [i] of the table that the check leaves *)
  assert (Hrowi : forall row,
            In (i, row) (iterrows (df_notna df' column)) ->
            s_index row = df_columns (df_copy st) /\
            cell_at (s_data row) column = CellInt 0 /\
            cell_at (s_data row) "unit" = u).
  { intros row Hr. unfold iterrows, df_notna in Hr.
    cbn [df_rows df_columns] in Hr. apply in_map_iff in Hr.
    destruct Hr as ([l data] & Heq & Hr). cbn [fst snd] in Heq.
    injection Heq as -> <-. cbn [s_index s_data].
    split; [exact Hcols|].
    apply filter_In in Hr. destruct Hr as [Hr _].
    unfold df_at in Hzero, Hu'.
    destruct (filter (fun r => String.eqb (fst r) i) (df_rows df'))
      as [|r0 [|? ?]] eqn:Hf; try discriminate.
    assert (Hrf : In (i, data) (filter (fun r => String.eqb (fst r) i)
                                       (df_rows df'))).
    { apply filter_In. split; [assumption|]. apply String.eqb_refl. }
    rewrite Hf in Hrf. destruct Hrf as [->|[]]. cbn [snd] in Hzero, Hu'.
    split; congruence. }
  assert (Hhas : exists row, In (i, row) (iterrows (df_notna df' column))).
  { unfold df_at in Hzero.
    destruct (filter (fun r => String.eqb (fst r) i) (df_rows df'))
      as [|[l data] [|? ?]] eqn:Hf; try discriminate.
    injection Hzero as Hzero. cbn [snd] in Hzero.
    assert (Hr0 : In (l, data) (df_rows df') /\ String.eqb l i = true).
    { apply (proj1 (filter_In (fun r => String.eqb (fst r) i) (l, data)
                              (df_rows df'))).
      rewrite Hf. now left. }
    destruct Hr0 as [Hr0 Hl0]. apply String.eqb_eq in Hl0. subst l.
    exists {| s_index := df_columns df'; s_data := data |}.
    unfold iterrows, df_notna. cbn [df_rows df_columns].
    apply in_map_iff. exists (i, data). split; [reflexivity|].
    apply filter_In. split; [assumption|]. cbn [snd]. now rewrite Hzero. }
  assert (Hconvi : forall row cd names,
            In (i, row) (iterrows (df_notna df' column)) ->
            exists log',
              convert_row filename column (cd, names) (i, row) =
              (log', Ok (dict_set cd i node, names))).
  { intros [cols data] cd names Hr.
    destruct (Hrowi _ Hr) as (Hidx & Hc & Hu). cbn [s_index s_data] in *.
    subst cols.
    destruct (convert_row_zero_ok filename column cd names i
                (df_columns (df_copy st)) data Hlabel Hcolumn Hunitcol Hc)
      as [log' Hrun].
    exists log'. rewrite Hrun. unfold node. now rewrite Hu. }
  unfold convert_column.
  destruct (String.eqb_spec column "unit"); [contradiction|].
  cbn [negb]. rewrite Hcheck, bind_ok. cbn beta iota.
  match goal with
  | |- context [for_each ?b ?l ?s] =>
      destruct (for_each b l s) as [log3 r3] eqn:Hconv
  end.
  destruct r3 as [[cd names]|e|].
  - (* the rows are converted *)
    rewrite bind_ok. cbn [fst snd].
    destruct (String.eqb_spec filename "energyStorage"); [contradiction|].
    rewrite !bind_ret_l. cbn [ret].
    eexists. eexists. exists log2, df'.
    split; [reflexivity|]. split; [exact Hrows|].
    split; [apply in_or_app; left; apply in_or_app; now right|].
    split; [exact Hzero|]. split; [exact Hhas|]. split; [exact Hconvi|].
    split.
    + intros st' Hst. injection Hst as <-. cbn [df_copy single_dict].
      split; [reflexivity|].
      unfold parameter_of. rewrite dict_get_set_same.
      unfold iterrows, df_notna in Hconv. cbn [df_rows df_columns] in Hconv.
      set (kept := filter (fun r => negb (isnull (cell_at (snd r) column)))
                          (df_rows df')) in *.
      assert (Hall : forall r, In r kept -> fst r = i ->
                cell_at (snd r) column = CellInt 0 /\
                cell_at (snd r) "unit" = u).
      { intros [l data] Hr Hl. cbn [fst snd] in *. subst l.
        destruct (Hrowi {| s_index := df_columns df'; s_data := data |})
          as (_ & Hc & Hu); [|now split].
        unfold iterrows, df_notna. cbn [df_rows df_columns].
        apply in_map_iff. exists (i, data). split; [reflexivity|exact Hr]. }
      apply (convert_rows_zero filename column i (df_columns df') u kept Hall
               _ _ _ _ _ Hconv).
      destruct Hhas as [row Hrow]. unfold iterrows, df_notna in Hrow.
      cbn [df_rows df_columns] in Hrow. apply in_map_iff in Hrow.
      destruct Hrow as ([l data] & Heq & Hr). injection Heq as -> _.
      apply in_map_iff. exists (i, data). split; [reflexivity|exact Hr].
    + intros Hno. exfalso. eapply Hno. reflexivity.
  - (* a row raises *)
    unfold bind at 1. cbn [fst snd].
    eexists. eexists. exists log2, df'.
    split; [reflexivity|]. split; [exact Hrows|].
    split; [apply in_or_app; left; apply in_or_app; now right|].
    split; [exact Hzero|]. split; [exact Hhas|]. split; [exact Hconvi|].
    split; [intros st' Hst; discriminate Hst|].
    intros _.
    destruct (for_each_not_ok _ _ _ _ _ Hconv)
      as ([i' row] & [cd names] & log' & r' & Hin' & Hrun' & Hno' & Hsame).
    { intros x. discriminate. }
    exists i', row, cd, names, log', r'.
    split; [exact Hin'|]. split.
    + intros ->. destruct (Hconvi row cd names Hin') as [log'' Hok].
      rewrite Hok in Hrun'. injection Hrun' as _ <-. now eapply Hno'.
    + split; [exact Hrun'|]. split; [exact Hno'|].
      intros e0 He0. apply Hsame. injection He0 as ->. reflexivity.
  - unfold bind at 1. cbn [fst snd].
    eexists. eexists. exists log2, df'.
    split; [reflexivity|]. split; [exact Hrows|].
    split; [apply in_or_app; left; apply in_or_app; now right|].
    split; [exact Hzero|]. split; [exact Hhas|]. split; [exact Hconvi|].
    split; [intros st' Hst; discriminate Hst|].
    intros _.
    destruct (for_each_not_ok _ _ _ _ _ Hconv)
      as ([i' row] & [cd names] & log' & r' & Hin' & Hrun' & Hno' & Hsame).
    { intros x. discriminate. }
    exists i', row, cd, names, log', r'.
    split; [exact Hin'|]. split.
    + intros ->. destruct (Hconvi row cd names Hin') as [log'' Hok].
      rewrite Hok in Hrun'. injection Hrun' as _ <-. now eapply Hno'.
    + split; [exact Hrun'|]. split; [exact Hno'|].
      intros e0 He0. discriminate He0.
Qed.

End StorageColumn.

Lemma storage_nan_is_set_to_zero_witness :
  let st := {| single_dict := []; asset_name_string := "";
               df := storage_table; df_copy := storage_table;
               extra := None |} in
  exists log st',
    @convert_column nan_only no_json (fun _ => ret None) "storage_01"
       storage_parameters true st "storage capacity" = (log, Ok st') /\
    In (Log WARNING (MsgStorageNaNSetToZero "storage_01" "soc_min"
                                            "storage capacity")) log /\
    df_at (df_copy st') "soc_min" "storage capacity" = Some (CellInt 0) /\
    @parameter_of nan_only (single_dict st') "storage capacity" "soc_min" =
    Some (value_unit (VInt 0) (VStr "factor")).
Proof.
  intros st.
  destruct (@storage_nan_is_set_to_zero nan_only no_json (fun _ => ret None)
              "storage_01" storage_parameters st "storage capacity"
              ["soc_initial"; "soc_max"; "soc_min"] "soc_min"
              (CellStr "factor")
              eq_refl ltac:(discriminate) ltac:(simpl; tauto)
              ltac:(discriminate) ltac:(simpl; tauto) ltac:(simpl; tauto)
              eq_refl eq_refl)
    as (log & r & logc & df' & Hrun & _ & Hwarn & Hzero & _ & _ & Hok & _).
  assert (Hr : exists st', r = Ok st').
  { vm_compute in Hrun. injection Hrun as _ <-. eexists. reflexivity. }
  destruct Hr as [st' ->]. exists log, st'.
  destruct (Hok st' eq_refl) as [Hdf Hnode].
  split; [exact Hrun|]. split; [exact Hwarn|].
  split; [now rewrite Hdf|exact Hnode].
Defined.

(** C2, as the claim states it, fails: in [storage_table] the column
    [storage capacity] has no value for [soc_min]; the table is
    converted without an exception and with the warning, and the record
    of the column holds the number [0] for [soc_min], not a null. *)
Lemma storage_nan_is_not_kept_as_null :
  exists log single_dict,
    snd (@create_json_from_csv nan_only no_json example_constants 1
           directory "storage_01" storage_parameters true) =
    (log, Ok single_dict) /\
    df_at storage_table "soc_min" "storage capacity" = Some CellNaN /\
    In (Log WARNING (MsgStorageNaNSetToZero "storage_01" "soc_min"
                                            "storage capacity")) log /\
    parameter_of single_dict "storage capacity" "soc_min" =
    Some (value_unit (VInt 0) (VStr "factor")) /\
    parameter_of single_dict "storage capacity" "soc_min" <> Some VNone /\
    parameter_of single_dict "storage capacity" "soc_min" <>
    Some (value_unit VNone (VStr "factor")) /\
    parameter_of single_dict "storage capacity" "soc_min" <>
    Some (VFloat float_nan) /\
    parameter_of single_dict "storage capacity" "soc_min" <>
    Some (value_unit (VFloat float_nan) (VStr "factor")).
Proof.
  eexists. eexists. split; [vm_compute; reflexivity|].
  split; [reflexivity|]. split; [simpl; tauto|].
  split; [reflexivity|]. repeat split; discriminate.
Qed.



Lemma artifact_is_never_overwritten_witness :
  let fs : @filesystem nan_only :=
    [("mvs_csv_config.json", FileJson (VDict []))] in
  path_exists fs "mvs_csv_config.json" = true /\
  @create_input_json nan_only no_json example_constants 2 fs
     example_required true =
  (fs, example_required, ([Log INFO MsgLoadingAll], Raise FileExistsError)).
Proof.
  intros fs. split; [reflexivity|].
  apply (proj1 (@artifact_is_never_overwritten nan_only no_json
                  example_constants 2 fs example_required true)).
  reflexivity.
Defined.

(** ** [set_nested_value]: the argument is left as it is *)

Section HeapProperties.
Context {F : PyFloat}.

(** Induction over [denotes] that reaches the entries of dicts and the
    items of lists. *)
Lemma denotes_ind' (P : loc -> Prop) (h : heap) (Q : hval -> value -> Prop) :
  Q HNone VNone ->
  (forall b, Q (HBool b) (VBool b)) ->
  (forall z, Q (HInt z) (VInt z)) ->
  (forall f, Q (HFloat f) (VFloat f)) ->
  (forall s, Q (HStr s) (VStr s)) ->
  (forall l entries d,
     P l -> nth_error h l = Some (ODict entries) ->
     map fst entries = map fst d ->
     Forall2 (denotes P h) (map snd entries) (map snd d) ->
     Forall2 Q (map snd entries) (map snd d) ->
     Q (HRef l) (VDict d)) ->
  (forall l items vs,
     P l -> nth_error h l = Some (OList items) ->
     Forall2 (denotes P h) items vs ->
     Forall2 Q items vs ->
     Q (HRef l) (VList vs)) ->
  forall v t, denotes P h v t -> Q v t.
Proof.
  intros Qnone Qbool Qint Qfloat Qstr Qdict Qlist.
  fix IH 3. intros v t H.
  destruct H as [ | | | | | l entries d Hp Hn Hk Hc | l items vs Hp Hn Hc];
    auto.
  - apply (Qdict l entries d Hp Hn Hk Hc).
    revert Hc. generalize (map snd entries) (map snd d).
    fix IHl 3. intros xs ys Hc.
    destruct Hc as [|x y xs ys Hxy Hc]; constructor.
    + apply IH. exact Hxy.
    + apply IHl. exact Hc.
  - apply (Qlist l items vs Hp Hn Hc).
    revert Hc. generalize items vs.
    fix IHl 3. intros xs ys Hc.
    destruct Hc as [|x y xs ys Hxy Hc]; constructor.
    + apply IH. exact Hxy.
    + apply IHl. exact Hc.
Qed.

(** A value keeps its denotation in any heap that agrees with the first
    one on the locations read. *)
Lemma denotes_weaken (P Q : loc -> Prop) (h h' : heap) v t :
  (forall l, P l -> Q l /\ nth_error h' l = nth_error h l) ->
  denotes P h v t -> denotes Q h' v t.
Proof.
  intros Hagree. revert v t.
  apply (denotes_ind' P h (fun v t => denotes Q h' v t)); try constructor.
  - intros l entries d Hp Hn Hk _ Hc. destruct (Hagree l Hp) as [Hq Hn'].
    apply den_dict with (entries := entries); try assumption. congruence.
  - intros l items vs Hp Hn _ Hc. destruct (Hagree l Hp) as [Hq Hn'].
    apply den_list with (items := items); try assumption. congruence.
Qed.

(** Only locations of the heap are read. *)
Lemma denotes_bound (P : loc -> Prop) (h : heap) v t :
  denotes P h v t -> denotes (fun l => P l /\ l < List.length h) h v t.
Proof.
  revert v t.
  apply (denotes_ind' P h
           (fun v t => denotes (fun l => P l /\ l < List.length h) h v t));
    try constructor.
  - intros l entries d Hp Hn Hk _ Hc.
    apply den_dict with (entries := entries); try assumption.
    split; [assumption|]. apply nth_error_Some. congruence.
  - intros l items vs Hp Hn _ Hc.
    apply den_list with (items := items); try assumption.
    split; [assumption|]. apply nth_error_Some. congruence.
Qed.


Lemma sm_bind_run {S A B : Type} (m : SM S A) (k : A -> SM S B) s s1 a :
  m s = (s1, ([], Ok a)) -> sm_bind m k s = k a s1.
Proof.
  unfold sm_bind. intros ->. now destruct (k a s1) as [s2 [l' r]].
Qed.

Lemma sm_bind_inv {S A B : Type} (m : SM S A) (k : A -> SM S B) s s' log r :
  sm_bind m k s = (s', (log, r)) ->
  (exists s1 l1 a l2,
     m s = (s1, (l1, Ok a)) /\ k a s1 = (s', (l2, r)) /\ log = l1 ++ l2) \/
  (exists e, m s = (s', (log, Raise e)) /\ r = Raise e) \/
  (m s = (s', (log, OutOfFuel)) /\ r = OutOfFuel).
Proof.
  unfold sm_bind. destruct (m s) as [s1 [l1 [a|e|]]].
  - destruct (k a s1) as [s2 [l2 r2]] eqn:Hk. intros H. injection H as <- <- <-.
    left. now exists s1, l1, a, l2.
  - intros H. injection H as <- <- <-. right. left. now exists e.
  - intros H. injection H as <- <- <-. right. now right.
Qed.

Lemma heap_write_length (h : heap) l o :
  List.length (heap_write h l o) = List.length h.
Proof.
  revert l. induction h as [|x h IH]; intros [|l]; cbn; auto.
Qed.

Lemma heap_write_same (h : heap) l o :
  l < List.length h -> nth_error (heap_write h l o) l = Some o.
Proof.
  revert l. induction h as [|x h IH]; intros [|l]; cbn; try lia; auto.
  intros H. apply IH. lia.
Qed.

Lemma heap_write_other (h : heap) l l' o :
  l <> l' -> nth_error (heap_write h l o) l' = nth_error h l'.
Proof.
  revert l l'. induction h as [|x h IH]; intros [|l] [|l'] Hne; cbn; auto;
    congruence.
Qed.

Lemma heap_write_firstn (h : heap) n l o :
  n <= l -> firstn n (heap_write h l o) = firstn n h.
Proof.
  revert n l. induction h as [|x h IH]; intros [|n] [|l] Hle; cbn; auto.
  - lia.
  - f_equal. apply IH. lia.
Qed.

Lemma firstn_app_one (h : heap) n o :
  n <= List.length h -> firstn n (h ++ [o]) = firstn n h.
Proof.
  intros Hle. rewrite firstn_app.
  replace (n - List.length h) with 0 by lia. cbn. apply app_nil_r.
Qed.

(** *** What a run leaves in place *)

Lemma preserves_ret {A : Type} n (a : A) : preserves n (sm_ret a).
Proof. intros h h' r Hn H. injection H as <- _. auto. Qed.

Lemma preserves_lift {A : Type} n (m : M A) : preserves n (sm_lift m).
Proof. intros h h' r Hn H. injection H as <- _. auto. Qed.

Lemma preserves_deref n l : preserves n (deref l).
Proof. intros h h' r Hn H. injection H as <- _. auto. Qed.

Lemma preserves_alloc n o : preserves n (alloc o).
Proof.
  intros h h' r Hn H. injection H as <- _. split.
  - now apply firstn_app_one.
  - rewrite length_app. lia.
Qed.

Lemma preserves_bind {A B : Type} n (R : A -> Prop)
    (m : SM heap A) (k : A -> SM heap B) :
  preserves n m ->
  (forall h h' l a, n <= List.length h -> m h = (h', (l, Ok a)) -> R a) ->
  (forall a, R a -> preserves n (k a)) ->
  preserves n (sm_bind m k).
Proof.
  intros Hm Hpost Hk h h' [log r] Hn H.
  apply sm_bind_inv in H.
  destruct H as [(h1 & l1 & a & l2 & Hrun & Hcont & _)|[(e & Hrun & _)|[Hrun _]]].
  - destruct (Hm _ _ _ Hn Hrun) as [Hf1 Hl1].
    assert (Hn1 : n <= List.length h1) by lia.
    destruct (Hk a (Hpost _ _ _ _ Hn Hrun) _ _ _ Hn1 Hcont) as [Hf2 Hl2].
    split; [congruence|lia].
  - exact (Hm _ _ _ Hn Hrun).
  - exact (Hm _ _ _ Hn Hrun).
Qed.

Lemma preserves_copy_list n (cp : hval -> SM heap hval) vs :
  (forall v, preserves n (cp v)) -> preserves n (copy_list cp vs).
Proof.
  intros Hcp. induction vs as [|v vs IH]; cbn [copy_list].
  - apply preserves_ret.
  - apply preserves_bind with (R := fun _ => True); auto.
    intros a _.
    apply preserves_bind with (R := fun _ => True); auto.
    intros a' _. apply preserves_ret.
Qed.

Lemma preserves_deepcopy n fuel : forall v, preserves n (deepcopy fuel v).
Proof.
  induction fuel as [|fuel IH]; intros v;
    destruct v; try apply preserves_ret; cbn [deepcopy].
  - apply preserves_lift.
  - apply preserves_bind with (R := fun _ => True);
      [apply preserves_deref|auto|].
    intros [entries|items] _.
    + apply preserves_bind with (R := fun _ => True);
        [now apply preserves_copy_list|auto|].
      intros vs _. apply preserves_alloc.
    + apply preserves_bind with (R := fun _ => True);
        [now apply preserves_copy_list|auto|].
      intros vs _. apply preserves_alloc.
Qed.

(** What [deepcopy] returns is an atom or a reference to an object that
    was not there before. *)
Lemma deepcopy_fresh fuel v (h h' : heap) log a :
  deepcopy fuel v h = (h', (log, Ok a)) ->
  match a with HRef la => List.length h <= la | _ => True end.
Proof.
  destruct fuel as [|fuel];
    destruct v; try (intros H; injection H as _ _ <-; exact I);
    [discriminate|].
  cbn [deepcopy]. intros H.
  apply sm_bind_inv in H.
  destruct H as [(h1 & l1 & o & l2 & Hd & H & _)|[(e & _ & ?)|[_ ?]]];
    try discriminate.
  injection Hd as <- _. clear l1.
  destruct o as [entries|items]; apply sm_bind_inv in H;
    destruct H as [(h1 & l1 & vs & l3 & Hc & H & _)|[(e & _ & ?)|[_ ?]]];
    try discriminate;
    injection H as _ _ <-;
    apply (preserves_copy_list 0 (deepcopy fuel) _
             (preserves_deepcopy 0 fuel) h h1 _ (Nat.le_0_l _) Hc).
Qed.

Lemma preserves_getitem n v k : preserves n (getitem v k).
Proof.
  destruct v; try apply preserves_lift. cbn [getitem].
  apply preserves_bind with (R := fun _ => True);
    [apply preserves_deref|auto|].
  intros [entries|items] _; apply preserves_lift.
Qed.

Lemma preserves_setitem n v k x :
  match v with HRef la => n <= la | _ => True end ->
  preserves n (setitem v k x).
Proof.
  destruct v; try (intros _; apply preserves_lift). intros Hla.
  cbn [setitem].
  apply preserves_bind with (R := fun _ => True);
    [apply preserves_deref|auto|].
  intros [entries|items] _; [|apply preserves_lift].
  intros h h' r Hn H. injection H as <- _. split.
  - now apply heap_write_firstn.
  - now rewrite heap_write_length.
Qed.

Lemma preserves_set_nested_value_tuple n fuel value keys :
  forall dct, preserves n (set_nested_value_tuple fuel dct value keys).
Proof.
  induction keys as [|k rest IH]; intros dct.
  - cbn [set_nested_value_tuple].
    apply preserves_bind with (R := fun _ => True);
      [apply preserves_deepcopy|auto|].
    intros a _. apply preserves_lift.
  - cbn [set_nested_value_tuple].
    apply preserves_bind
      with (R := fun a => match a with HRef la => n <= la | _ => True end);
      [apply preserves_deepcopy| |].
    + intros h h' l a Hn Hrun. apply deepcopy_fresh in Hrun.
      destruct a; auto. lia.
    + intros answer Hfresh. destruct rest as [|k2 rest].
      * apply preserves_bind with (R := fun _ => True);
          [now apply preserves_setitem|auto|].
        intros _ _. apply preserves_ret.
      * apply preserves_bind with (R := fun _ => True);
          [apply preserves_getitem|auto|].
        intros sub _.
        apply preserves_bind with (R := fun _ => True); [apply IH|auto|].
        intros new _.
        apply preserves_bind with (R := fun _ => True);
          [now apply preserves_setitem|auto|].
        intros _ _. apply preserves_ret.
Qed.


(** *** What a run returns *)

Lemma map_fst_combine {A B : Type} (ks : list A) (vs : list B) :
  List.length ks = List.length vs -> map fst (combine ks vs) = ks.
Proof.
  revert vs. induction ks as [|k ks IH]; intros [|v vs] H; cbn in *;
    try discriminate; auto. f_equal. apply IH. lia.
Qed.

Lemma map_snd_combine {A B : Type} (ks : list A) (vs : list B) :
  List.length ks = List.length vs -> map snd (combine ks vs) = vs.
Proof.
  revert vs. induction ks as [|k ks IH]; intros [|v vs] H; cbn in *;
    try discriminate; auto. f_equal. apply IH. lia.
Qed.

Lemma Forall2_weaken {A B : Type} (R R' : A -> B -> Prop) xs ys :
  (forall x y, R x y -> R' x y) -> Forall2 R xs ys -> Forall2 R' xs ys.
Proof. intros H HF. induction HF; constructor; auto. Qed.

(** Entries that denote the entries of a dict, looked up and updated by
    key. *)
Lemma aligned_get {A B : Type} (R : A -> B -> Prop)
    (es : list (string * A)) (d : list (string * B)) k y :
  map fst es = map fst d ->
  Forall2 R (map snd es) (map snd d) ->
  dict_get d k = Some y ->
  exists x, dict_get es k = Some x /\ R x y.
Proof.
  revert d. induction es as [|[k1 x1] es IH]; intros [|[k2 y2] d] Hk HR Hget;
    cbn in *; try discriminate.
  injection Hk as <- Hk. inversion HR as [|? ? ? ? Hxy HR']; subst.
  destruct (String.eqb k1 k).
  - injection Hget as <-. now exists x1.
  - now apply IH with (d := d).
Qed.

Lemma aligned_set {A B : Type} (R : A -> B -> Prop)
    (es : list (string * A)) (d : list (string * B)) k x y :
  map fst es = map fst d ->
  Forall2 R (map snd es) (map snd d) ->
  R x y ->
  map fst (dict_set es k x) = map fst (dict_set d k y) /\
  Forall2 R (map snd (dict_set es k x)) (map snd (dict_set d k y)).
Proof.
  revert d. induction es as [|[k1 x1] es IH]; intros [|[k2 y2] d] Hk HR Hxy;
    cbn in *; try discriminate.
  - split; [reflexivity|]. now constructor.
  - injection Hk as <- Hk. inversion HR as [|? ? ? ? Hxy1 HR']; subst.
    destruct (String.eqb k1 k); cbn.
    + split; [now f_equal|]. now constructor.
    + destruct (IH d Hk HR' Hxy) as [H1 H2].
      split; [now f_equal|]. now constructor.
Qed.

Lemma dict_get_In {A : Type} (d : list (string * A)) k v :
  dict_get d k = Some v -> In (k, v) d.
Proof.
  induction d as [|[k' v'] d IH]; cbn; [discriminate|].
  destruct (String.eqb_spec k' k) as [->|Hne].
  - intros H. injection H as <-. now left.
  - intros H. right. now apply IH.
Qed.

Lemma depth_entry (d : dict) k sub :
  dict_get d k = Some sub -> depth sub < depth (VDict d).
Proof.
  intros Hget. apply dict_get_In in Hget. cbn [depth].
  assert (Hall : Forall (fun n => n <= list_max
                                        (map (fun kv => depth (snd kv)) d))
                        (map (fun kv => depth (snd kv)) d))
    by (apply list_max_le; apply le_n).
  rewrite Forall_forall in Hall.
  specialize (Hall (depth sub)). apply Nat.lt_succ_r. apply Hall.
  apply in_map_iff. now exists (k, sub).
Qed.

Lemma depth_entries (d : dict) fuel :
  depth (VDict d) <= S fuel -> Forall (fun t => depth t <= fuel) (map snd d).
Proof.
  cbn [depth]. intros H. apply Forall_forall. intros t Hin.
  apply in_map_iff in Hin. destruct Hin as ([k v] & <- & Hin). cbn [snd].
  assert (Hle : list_max (map (fun kv => depth (snd kv)) d) <= fuel) by lia.
  apply list_max_le in Hle. rewrite Forall_forall in Hle.
  apply Hle. apply in_map_iff. now exists (k, v).
Qed.

Lemma depth_items (vs : list value) fuel :
  depth (VList vs) <= S fuel -> Forall (fun t => depth t <= fuel) vs.
Proof.
  cbn [depth]. intros H.
  assert (Hle : list_max (map depth vs) <= fuel) by lia.
  apply list_max_le in Hle. rewrite Forall_forall in Hle.
  apply Forall_forall. intros t Hin. apply Hle. now apply in_map.
Qed.

Lemma nth_error_extends (h0 e : heap) l :
  l < List.length h0 -> nth_error (h0 ++ e) l = nth_error h0 l.
Proof. intros H. now apply nth_error_app1. Qed.

Lemma extends_app (h0 h ext : heap) :
  (exists e, h = h0 ++ e) -> exists e, h ++ ext = h0 ++ e.
Proof. intros [e ->]. exists (e ++ ext). now rewrite app_assoc. Qed.

(** The copies of a list of values, one after the other. *)
Lemma copy_list_denotes (h0 : heap) fuel xs ys :
  Forall2 (fun v t =>
             forall h, (exists e, h = h0 ++ e) -> depth t <= fuel ->
               exists ext a,
                 deepcopy fuel v h = (h ++ ext, ([], Ok a)) /\
                 denotes (fun l => List.length h <= l) (h ++ ext) a t) xs ys ->
  Forall (fun t => depth t <= fuel) ys ->
  forall h, (exists e, h = h0 ++ e) ->
    exists ext vs,
      copy_list (deepcopy fuel) xs h = (h ++ ext, ([], Ok vs)) /\
      Forall2 (denotes (fun l => List.length h <= l /\
                                 l < List.length (h ++ ext))
                       (h ++ ext)) vs ys.
Proof.
  intros HQ. induction HQ as [|x y xs ys Hxy HQ IH]; intros Hdepth h Hext.
  - exists [], []. cbn. rewrite app_nil_r. split; [reflexivity|constructor].
  - inversion Hdepth as [|? ? Hy Hys]; subst.
    destruct (Hxy h Hext Hy) as (ext1 & a & Hrun1 & Hden1).
    destruct (IH Hys (h ++ ext1) (extends_app _ _ _ Hext))
      as (ext2 & vs & Hrun2 & Hden2).
    exists (ext1 ++ ext2), (a :: vs). cbn [copy_list].
    rewrite (sm_bind_run _ _ _ _ _ Hrun1).
    rewrite (sm_bind_run _ _ _ _ _ Hrun2).
    rewrite app_assoc.
    split; [reflexivity|]. constructor.
    + apply denotes_bound in Hden1.
      eapply denotes_weaken; [|exact Hden1]. cbn beta.
      intros l [Hl1 Hl2]. split.
      * rewrite length_app. lia.
      * now apply nth_error_extends.
    + eapply Forall2_weaken; [|exact Hden2]. cbn beta.
      intros v t Hvt. eapply denotes_weaken; [|exact Hvt]. cbn beta.
      intros l [Hl1 Hl2]. rewrite length_app in Hl1.
      split; [lia|reflexivity].
Qed.


(** [deepcopy] of a value that denotes [t] in [h0], run in a heap that
    extends [h0] with enough fuel: it returns a value that denotes [t]
    and reads only new objects; for a dict the new object is the last
    one of the heap, and its entries read only the objects between. *)
Lemma deepcopy_denotes (h0 : heap) (P : loc -> Prop) v t :
  (forall l, P l -> l < List.length h0) ->
  denotes P h0 v t ->
  forall fuel h, (exists e, h = h0 ++ e) -> depth t <= fuel ->
    exists ext a,
      deepcopy fuel v h = (h ++ ext, ([], Ok a)) /\
      denotes (fun l => List.length h <= l) (h ++ ext) a t /\
      (forall d, t = VDict d ->
         exists la entries,
           a = HRef la /\ List.length h <= la /\
           List.length (h ++ ext) = S la /\
           nth_error (h ++ ext) la = Some (ODict entries) /\
           map fst entries = map fst d /\
           Forall2 (denotes (fun l => List.length h <= l /\ l < la)
                            (h ++ ext))
                   (map snd entries) (map snd d)).
Proof.
  intros Hbound. revert v t.
  apply (denotes_ind' P h0
    (fun v t =>
       forall fuel h, (exists e, h = h0 ++ e) -> depth t <= fuel ->
         exists ext a,
           deepcopy fuel v h = (h ++ ext, ([], Ok a)) /\
           denotes (fun l => List.length h <= l) (h ++ ext) a t /\
           (forall d, t = VDict d ->
              exists la entries,
                a = HRef la /\ List.length h <= la /\
                List.length (h ++ ext) = S la /\
                nth_error (h ++ ext) la = Some (ODict entries) /\
                map fst entries = map fst d /\
                Forall2 (denotes (fun l => List.length h <= l /\ l < la)
                                 (h ++ ext))
                        (map snd entries) (map snd d))));
    try (intros; exists []; eexists; rewrite app_nil_r;
         destruct fuel; (split; [reflexivity|]);
         (split; [constructor|]); intros; discriminate).
  - (* a dict *)
    intros l entries d Hp Hn Hk _ HQ fuel h Hext Hdepth.
    destruct fuel as [|fuel]; [cbn [depth] in Hdepth; lia|].
    assert (Hderef : deref l h = (h, ([], Ok (ODict entries)))).
    { unfold deref. destruct Hext as [e ->].
      now rewrite (nth_error_extends _ _ _ (Hbound l Hp)), Hn. }
    destruct (copy_list_denotes h0 fuel (map snd entries) (map snd d))
      with (h := h) as (ext & vs & Hcopy & Hvs).
    { eapply Forall2_weaken; [|exact HQ]. cbn beta.
      intros x y Hxy h1 Hext1 Hy.
      destruct (Hxy fuel h1 Hext1 Hy) as (ext1 & a & H1 & H2 & _).
      now exists ext1, a. }
    { now apply depth_entries. }
    { exact Hext. }
    assert (Hlen : List.length (map fst entries) = List.length vs).
    { apply Forall2_length in Hvs. apply Forall2_length in HQ.
      rewrite !length_map in *. congruence. }
    exists (ext ++ [ODict (combine (map fst entries) vs)]).
    exists (HRef (List.length (h ++ ext))).
    cbn [deepcopy].
    rewrite (sm_bind_run _ _ _ _ _ Hderef).
    rewrite (sm_bind_run _ _ _ _ _ Hcopy).
    unfold alloc, ret. rewrite <- app_assoc.
    assert (Hnth : nth_error (h ++ ext ++ [ODict (combine (map fst entries) vs)])
                     (List.length (h ++ ext)) =
                   Some (ODict (combine (map fst entries) vs))).
    { rewrite app_assoc, nth_error_app2 by lia.
      now rewrite Nat.sub_diag. }
    assert (Hsub : Forall2
              (denotes (fun l0 => List.length h <= l0 /\
                                  l0 < List.length (h ++ ext))
                       (h ++ ext ++ [ODict (combine (map fst entries) vs)]))
              vs (map snd d)).
    { eapply Forall2_weaken; [|exact Hvs]. cbn beta.
      intros x y Hxy. eapply denotes_weaken; [|exact Hxy]. cbn beta.
      intros l0 [Hl1 Hl2]. split; [now split|].
      rewrite app_assoc. now apply nth_error_extends. }
    split; [reflexivity|]. split.
    + apply den_dict with (entries := combine (map fst entries) vs).
      * rewrite length_app. lia.
      * exact Hnth.
      * now rewrite map_fst_combine.
      * rewrite map_snd_combine by assumption.
        eapply Forall2_weaken; [|exact Hsub]. cbn beta.
        intros x y Hxy. eapply denotes_weaken; [|exact Hxy]. cbn beta.
        intros l0 [Hl1 Hl2]. now split.
    + intros d' Hd'. injection Hd' as <-.
      exists (List.length (h ++ ext)), (combine (map fst entries) vs).
      split; [reflexivity|]. split; [rewrite length_app; lia|].
      split; [rewrite !length_app; cbn; lia|].
      split; [exact Hnth|].
      split; [now rewrite map_fst_combine|].
      now rewrite map_snd_combine.
  - (* a list *)
    intros l items vs0 Hp Hn _ HQ fuel h Hext Hdepth.
    destruct fuel as [|fuel]; [cbn [depth] in Hdepth; lia|].
    assert (Hderef : deref l h = (h, ([], Ok (OList items)))).
    { unfold deref. destruct Hext as [e ->].
      now rewrite (nth_error_extends _ _ _ (Hbound l Hp)), Hn. }
    destruct (copy_list_denotes h0 fuel items vs0)
      with (h := h) as (ext & vs & Hcopy & Hvs).
    { eapply Forall2_weaken; [|exact HQ]. cbn beta.
      intros x y Hxy h1 Hext1 Hy.
      destruct (Hxy fuel h1 Hext1 Hy) as (ext1 & a & H1 & H2 & _).
      now exists ext1, a. }
    { now apply depth_items. }
    { exact Hext. }
    exists (ext ++ [OList vs]).
    exists (HRef (List.length (h ++ ext))).
    cbn [deepcopy].
    rewrite (sm_bind_run _ _ _ _ _ Hderef).
    rewrite (sm_bind_run _ _ _ _ _ Hcopy).
    unfold alloc, ret. rewrite <- app_assoc.
    split; [reflexivity|]. split; [|intros; discriminate].
    apply den_list with (items := vs).
    + rewrite length_app. lia.
    + rewrite app_assoc, nth_error_app2 by lia.
      now rewrite Nat.sub_diag.
    + eapply Forall2_weaken; [|exact Hvs]. cbn beta.
      intros x y Hxy. eapply denotes_weaken; [|exact Hxy]. cbn beta.
      intros l0 [Hl1 Hl2]. split; [assumption|].
      rewrite app_assoc. now apply nth_error_extends.
Qed.


Lemma heap_write_app (h e : heap) l o :
  List.length h <= l ->
  heap_write (h ++ e) l o = h ++ heap_write e (l - List.length h) o.
Proof.
  revert l. induction h as [|x h IH]; intros l Hl; cbn [app List.length].
  - now rewrite Nat.sub_0_r.
  - destruct l as [|l]; [cbn in Hl; lia|]. cbn [heap_write Nat.sub].
    f_equal. apply IH. cbn in Hl. lia.
Qed.

(** Writing the entry [k] of a fresh copy [la] of a dict: the copy
    denotes the updated dict, as long as the value written does not read
    [la]. *)
Lemma setitem_denotes (h : heap) n (P0 : loc -> Prop) la entries d k x y :
  n <= la ->
  nth_error h la = Some (ODict entries) ->
  map fst entries = map fst d ->
  Forall2 (denotes (fun l => n <= l /\ l < la) h) (map snd entries)
          (map snd d) ->
  denotes (fun l => (n <= l \/ P0 l) /\ l <> la) h x y ->
  setitem (HRef la) k x h =
  (heap_write h la (ODict (dict_set entries k x)), ([], Ok tt)) /\
  denotes (fun l => n <= l \/ P0 l)
          (heap_write h la (ODict (dict_set entries k x)))
          (HRef la) (VDict (dict_set d k y)).
Proof.
  intros Hn Hnth Hkeys Hsub Hx.
  assert (Hla : la < List.length h) by (apply nth_error_Some; congruence).
  split.
  - unfold setitem, sm_bind, deref. now rewrite Hnth.
  - destruct (aligned_set
                (denotes (fun l => n <= l \/ P0 l)
                         (heap_write h la (ODict (dict_set entries k x))))
                entries d k x y Hkeys) as [Hk' Hs'].
    + eapply Forall2_weaken; [|exact Hsub]. cbn beta.
      intros v t Hvt. eapply denotes_weaken; [|exact Hvt]. cbn beta.
      intros l [Hl1 Hl2]. split; [now left|].
      apply heap_write_other. lia.
    + eapply denotes_weaken; [|exact Hx]. cbn beta.
      intros l [Hl1 Hl2]. split; [assumption|].
      apply heap_write_other. congruence.
    + apply den_dict with (entries := dict_set entries k x);
        try assumption; [now left|now apply heap_write_same].
Qed.

Lemma nested_set_cons (d : dict) k k2 rest x :
  nested_set (VDict d) (k :: k2 :: rest) x =
  match dict_get d k with
  | Some sub =>
      match nested_set sub (k2 :: rest) x with
      | Some sub' => Some (VDict (dict_set d k sub'))
      | None => None
      end
  | None => None
  end.
Proof. reflexivity. Qed.

(** The tuple branch, for a path that leads through dicts. *)
Lemma set_nested_value_tuple_denotes (h0 : heap) (P0 : loc -> Prop) value tv :
  (forall l, P0 l -> l < List.length h0) ->
  denotes P0 h0 value tv ->
  forall keys dct t t' fuel h,
    denotes (fun l => l < List.length h0) h0 dct t ->
    (exists e, h = h0 ++ e) ->
    depth t <= fuel ->
    nested_set t keys tv = Some t' ->
    exists ext la,
      set_nested_value_tuple fuel dct value keys h =
      (h ++ ext, ([], Ok (HRef la))) /\
      List.length h <= la /\
      denotes (fun l => List.length h <= l \/ P0 l) (h ++ ext) (HRef la) t'.
Proof.
  intros Hbound Hvalue.
  induction keys as [|k rest IH]; intros dct t t' fuel h Hdct Hext Hdepth Hset.
  - discriminate.
  - assert (Hd : exists d, t = VDict d).
    { destruct t; try (destruct rest; discriminate). now eexists. }
    destruct Hd as [d ->].
    destruct (deepcopy_denotes h0 (fun l => l < List.length h0) dct (VDict d)
                (fun l H => H) Hdct fuel h Hext Hdepth)
      as (ext1 & a & Hcopy & _ & Htop).
    destruct (Htop d eq_refl)
      as (la & entries & -> & Hla & Hlen & Hnth & Hkeys & Hsub).
    assert (Hh0 : List.length h0 <= List.length h).
    { destruct Hext as [e ->]. rewrite length_app. lia. }
    cbn [set_nested_value_tuple].
    rewrite (sm_bind_run _ _ _ _ _ Hcopy).
    destruct rest as [|k2 rest].
    + (* the last key *)
      cbn in Hset. injection Hset as <-.
      destruct (setitem_denotes (h ++ ext1) (List.length h) P0 la entries d
                  k value tv Hla Hnth Hkeys Hsub) as [Hrun Hden].
      { eapply denotes_weaken; [|exact Hvalue]. cbn beta.
        intros l Hl. pose proof (Hbound l Hl).
        split; [split; [now right|lia]|].
        destruct Hext as [e ->]. rewrite <- app_assoc.
        now apply nth_error_extends. }
      exists (heap_write ext1 (la - List.length h)
                (ODict (dict_set entries k value))), la.
      rewrite <- heap_write_app by assumption.
      rewrite (sm_bind_run _ _ _ _ _ Hrun).
      split; [reflexivity|]. now split.
    + (* a key on the way *)
      rewrite nested_set_cons in Hset.
      destruct (dict_get d k) as [sub|] eqn:Hget; [|discriminate].
      destruct (nested_set sub (k2 :: rest) tv) as [sub'|] eqn:Hsub';
        [|discriminate].
      injection Hset as <-.
      inversion Hdct as [ | | | | | l0 entries0 d0 Hp0 Hn0 Hk0 Hc0 | ]; subst.
      destruct (aligned_get _ entries0 d k sub Hk0 Hc0 Hget)
        as (subv & Hgetv & Hsubv).
      assert (Hgetitem : getitem (HRef l0) k (h ++ ext1) =
                         (h ++ ext1, ([], Ok subv))).
      { assert (Hderef : deref l0 (h ++ ext1) =
                           (h ++ ext1, ([], Ok (ODict entries0)))).
        { unfold deref. destruct Hext as [e ->]. rewrite <- app_assoc.
          now rewrite (nth_error_extends _ _ _ Hp0), Hn0. }
        unfold getitem. rewrite (sm_bind_run _ _ _ _ _ Hderef).
        unfold sm_lift. now rewrite Hgetv. }
      rewrite (sm_bind_run _ _ _ _ _ Hgetitem).
      pose proof (depth_entry d k sub Hget) as Hdsub.
      destruct (IH subv sub sub' fuel (h ++ ext1) Hsubv
                  (extends_app _ _ _ Hext) ltac:(lia) Hsub')
        as (ext2 & lb & Hrec & Hlb & Hnew).
      rewrite (sm_bind_run _ _ _ _ _ Hrec).
      assert (Hla1 : la < List.length (h ++ ext1)) by lia.
      destruct (setitem_denotes ((h ++ ext1) ++ ext2) (List.length h) P0 la
                  entries d k (HRef lb) sub' Hla) as [Hrun Hden].
      { now rewrite nth_error_extends. }
      { exact Hkeys. }
      { eapply Forall2_weaken; [|exact Hsub]. cbn beta.
        intros v t Hvt. eapply denotes_weaken; [|exact Hvt]. cbn beta.
        intros l [Hl1 Hl2]. split; [now split|].
        apply nth_error_extends. lia. }
      { eapply denotes_weaken; [|exact Hnew]. cbn beta.
        intros l [Hl|Hl].
        - split; [split; [left; rewrite length_app in Hl; lia|lia]|].
          reflexivity.
        - pose proof (Hbound l Hl). split; [split; [now right|lia]|].
          reflexivity. }
      exists (heap_write (ext1 ++ ext2) (la - List.length h)
                (ODict (dict_set entries k (HRef lb)))), la.
      rewrite <- heap_write_app by assumption. rewrite app_assoc.
      rewrite (sm_bind_run _ _ _ _ _ Hrun).
      split; [reflexivity|]. now split.
Qed.


(** C10. [set_nested_value] writes to no object that was there before
    the call: whatever it returns or raises, the heap after the call is
    the heap before it followed by new objects, so the argument [dct]
    and everything it holds is as it was. Keys that are not a tuple give
    [TypeError] with nothing done. For an argument that denotes the
    nested value [t], with fuel for its depth: the empty tuple gives
    [ValueError], after the copy has been made; and a tuple that leads
    through dicts of [t] gives a reference to a new dict that denotes [t]
    with the entry at the end of the path set to the given value, and
    that reads only new objects and the objects of that value. *)
Theorem set_nested_value_leaves_its_input fuel (h : heap) dct value keys :
  (forall h' r,
     set_nested_value fuel dct value keys h = (h', r) ->
     exists ext, h' = h ++ ext)
  /\
  (keys = KeysOther ->
   set_nested_value fuel dct value keys h = (h, ([], Raise TypeError)))
  /\
  (forall t,
     represents h dct t -> depth t <= fuel ->
     (keys = KeysTuple [] ->
      exists ext,
        set_nested_value fuel dct value keys h =
        (h ++ ext, ([], Raise ValueError)))
     /\
     (forall ks P0 tv t',
        keys = KeysTuple ks ->
        denotes P0 h value tv ->
        nested_set t ks tv = Some t' ->
        exists ext la,
          set_nested_value fuel dct value keys h =
          (h ++ ext, ([], Ok (HRef la))) /\
          List.length h <= la /\
          denotes (fun l => List.length h <= l \/ P0 l) (h ++ ext)
                  (HRef la) t' /\
          represents (h ++ ext) dct t)).
Proof.
  split; [|split].
  - intros h' r Hrun.
    assert (Hp : preserves (List.length h)
                   (set_nested_value fuel dct value keys)).
    { destruct keys as [ks|]; cbn [set_nested_value].
      - apply preserves_set_nested_value_tuple.
      - apply preserves_lift. }
    destruct (Hp h h' r (le_n _) Hrun) as [Hfirst _].
    rewrite firstn_all in Hfirst.
    exists (skipn (List.length h) h').
    transitivity (firstn (List.length h) h' ++ skipn (List.length h) h').
    + symmetry. apply firstn_skipn.
    + now rewrite Hfirst.
  - intros ->. reflexivity.
  - intros t Hdct Hdepth.
    assert (Hdct' : denotes (fun l => l < List.length h) h dct t).
    { apply denotes_bound in Hdct.
      eapply denotes_weaken; [|exact Hdct]. cbn beta.
      intros l [_ Hl]. now split. }
    split.
    + intros ->. cbn [set_nested_value set_nested_value_tuple].
      destruct (deepcopy_denotes h (fun l => l < List.length h) dct t
                  (fun l H => H) Hdct' fuel h
                  (ex_intro _ [] (eq_sym (app_nil_r h))) Hdepth)
        as (ext & a & Hcopy & _).
      exists ext. now rewrite (sm_bind_run _ _ _ _ _ Hcopy).
    + intros ks P0 tv t' -> Hvalue Hset. cbn [set_nested_value].
      apply denotes_bound in Hvalue.
      destruct (set_nested_value_tuple_denotes h
                  (fun l => P0 l /\ l < List.length h) value tv
                  (fun l H => proj2 H) Hvalue ks dct t t' fuel h Hdct'
                  (ex_intro _ [] (eq_sym (app_nil_r h))) Hdepth Hset)
        as (ext & la & Hrun & Hla & Hden).
      exists ext, la. split; [exact Hrun|]. split; [exact Hla|]. split.
      * eapply denotes_weaken; [|exact Hden]. cbn beta.
        intros l [Hl|[Hl _]]; split; auto.
      * eapply denotes_weaken; [|exact Hdct']. cbn beta.
        intros l Hl. split; [exact I|]. now apply nth_error_extends.
Qed.

End HeapProperties.

Lemma set_nested_value_leaves_its_input_witness :
  let h : @heap nan_only :=
    [ODict [("b11", HInt 11)];
     ODict [("b1", HRef 0)];
     ODict [("a", HInt 1); ("b", HRef 1)]] in
  let t : @value nan_only :=
    VDict [("a", VInt 1); ("b", VDict [("b1", VDict [("b11", VInt 11)])])] in
  represents h (HRef 2) t /\
  exists ext la,
    set_nested_value 3 (HRef 2) (HInt 400) (KeysTuple ["b"; "b1"; "b11"]) h =
    (h ++ ext, ([], Ok (HRef la))) /\
    List.length h <= la /\
    denotes (fun l => List.length h <= l \/ True) (h ++ ext) (HRef la)
      (VDict [("a", VInt 1);
              ("b", VDict [("b1", VDict [("b11", VInt 400)])])]) /\
    represents (h ++ ext) (HRef 2) t.
Proof.
  intros h t.
  assert (Ht : represents h (HRef 2) t).
  { unfold represents, h, t.
    eapply den_dict; [exact I|reflexivity|reflexivity|].
    repeat constructor.
    eapply den_dict; [exact I|reflexivity|reflexivity|].
    repeat constructor.
    eapply den_dict; [exact I|reflexivity|reflexivity|].
    repeat constructor. }
  split; [exact Ht|].
  apply (proj2 (proj2 (proj2 (@set_nested_value_leaves_its_input nan_only 3 h
                                (HRef 2) (HInt 400)
                                (KeysTuple ["b"; "b1"; "b11"]))) t Ht
                      (le_n 3))
           ["b"; "b1"; "b11"] (fun _ => True) (VInt 400)).
  - reflexivity.
  - constructor.
  - reflexivity.
Defined.

(** ** Default filling writes into the dict of the caller *)

Lemma sm_bind_inv_ok {S A B : Type} (m : SM S A) (k : A -> SM S B)
    s s' log b :
  sm_bind m k s = (s', (log, Ok b)) ->
  exists s1 l1 a l2,
    m s = (s1, (l1, Ok a)) /\ k a s1 = (s', (l2, Ok b)) /\ log = l1 ++ l2.
Proof.
  intros H. apply sm_bind_inv in H.
  destruct H as [H|[(e & _ & H)|[_ H]]]; [exact H|discriminate|discriminate].
Qed.

(** A loop that returns keeps what each of its steps keeps. *)
Lemma sm_for_inv {S A : Type} (I : S -> Prop) (body : A -> SM S unit) l :
  (forall a s s' log,
     In a l -> I s -> body a s = (s', (log, Ok tt)) -> I s') ->
  forall s s' log,
    I s -> sm_for body l s = (s', (log, Ok tt)) -> I s'.
Proof.
  induction l as [|a l IH]; intros Hbody s s' log Hi Hrun.
  - injection Hrun as <- _. exact Hi.
  - cbn [sm_for] in Hrun. apply sm_bind_inv_ok in Hrun.
    destruct Hrun as (s1 & l1 & [] & l2 & Hstep & Hrest & _).
    apply (IH (fun a' s0 s0' log0 Hin => Hbody a' s0 s0' log0 (or_intror Hin))
              s1 s' l2); [|exact Hrest].
    apply (Hbody a s s1 l1); [now left|exact Hi|exact Hstep].
Qed.

(** A loop that returns and meets [x] on its way takes [I] to [J], when
    the step at [x] does and the other steps keep [I] and [J]. *)
Lemma sm_for_reach {S A : Type} (I J : S -> Prop) (body : A -> SM S unit)
    (x : A) l :
  (forall a s s' log,
     In a l -> a <> x -> I s -> body a s = (s', (log, Ok tt)) -> I s') ->
  (forall s s' log, I s -> body x s = (s', (log, Ok tt)) -> J s') ->
  (forall a s s' log,
     In a l -> J s -> body a s = (s', (log, Ok tt)) -> J s') ->
  (forall a : A, a = x \/ a <> x) ->
  In x l ->
  forall s s' log,
    I s -> sm_for body l s = (s', (log, Ok tt)) -> J s'.
Proof.
  intros H1 H2 H3 Hdec.
  induction l as [|a l IH]; intros Hin s s' log Hi Hrun; [destruct Hin|].
  cbn [sm_for] in Hrun. apply sm_bind_inv_ok in Hrun.
  destruct Hrun as (s1 & l1 & [] & l2 & Hstep & Hrest & _).
  destruct (Hdec a) as [->|Hne].
  - apply (sm_for_inv J body l
             (fun a' s0 s0' log0 Hin' => H3 a' s0 s0' log0 (or_intror Hin'))
             s1 s' l2); [|exact Hrest].
    now apply (H2 s s1 l1).
  - destruct Hin as [Heq|Hin]; [congruence|].
    apply (IH (fun a' s0 s0' log0 Hin' => H1 a' s0 s0' log0 (or_intror Hin'))
              (fun a' s0 s0' log0 Hin' => H3 a' s0 s0' log0 (or_intror Hin'))
              Hin s1 s' l2); [|exact Hrest].
    apply (H1 a s s1 l1); [now left|exact Hne|exact Hi|exact Hstep].
Qed.


Section DefaultFilling.
Context {F : PyFloat} {C : MvsConstants} {E : MvsFiles}.

Lemma set_group_parameter_ok main mp sp node log main' :
  set_group_parameter main mp sp node = (log, Ok main') ->
  exists d g,
    main = MainDict d /\ dict_get d mp = Some (VDict g) /\
    main' = MainDict (dict_set d mp (VDict (dict_set g sp node))).
Proof.
  unfold set_group_parameter. intros H.
  destruct main as [d|]; [|discriminate].
  destruct (dict_get d mp) as [[]|] eqn:Hg; try discriminate.
  injection H as _ <-. eexists. eexists.
  split; [reflexivity|]. split; [exact Hg|reflexivity].
Qed.

Lemma set_asset_parameter_ok main mp k sp node log main' :
  set_asset_parameter main mp k sp node = (log, Ok main') ->
  exists d g a,
    main = MainDict d /\ dict_get d mp = Some (VDict g) /\
    dict_get g k = Some (VDict a) /\
    main' = MainDict (dict_set d mp
                        (VDict (dict_set g k (VDict (dict_set a sp node))))).
Proof.
  unfold set_asset_parameter. intros H.
  destruct main as [d|]; [|discriminate].
  destruct (dict_get d mp) as [[]|] eqn:Hg; try discriminate.
  match type of H with
  | context [dict_get ?g k] => destruct (dict_get g k) as [[]|] eqn:Ha
  end; try discriminate.
  injection H as _ <-. eexists. eexists. eexists.
  split; [reflexivity|]. split; [exact Hg|]. split; [exact Ha|reflexivity].
Qed.

(** What one name can do to the state under default filling, when the
    step returns. *)
Lemma reconcile_name_default mp k req sp s s' log :
  reconcile_name true mp k req sp s = (s', (log, Ok tt)) ->
  (In sp req /\
   exists ke main',
     dict_get KNOWN_EXTRA_PARAMETERS sp = Some ke /\
     s' = with_main s main' /\
     ((k = "non-asset" /\
       exists d g,
         main_parameters s = MainDict d /\ dict_get d mp = Some (VDict g) /\
         main' = MainDict (dict_set d mp
                             (VDict (dict_set g sp (default_node ke))))) \/
      (k <> "non-asset" /\
       exists d g a,
         main_parameters s = MainDict d /\ dict_get d mp = Some (VDict g) /\
         dict_get g k = Some (VDict a) /\
         main' = MainDict
                   (dict_set d mp
                      (VDict (dict_set g k
                                (VDict (dict_set a sp (default_node ke))))))))) \/
  (dict_get KNOWN_EXTRA_PARAMETERS sp = None /\
   s' = with_missing s (append_name (missing_parameters s) mp sp)) \/
  (~ In sp req /\
   (s' = s \/ s' = with_extra s (append_name (extra_parameters s) mp sp))).
Proof.
  unfold reconcile_name. intros H.
  apply sm_bind_inv_ok in H.
  destruct H as (s1 & l1 & s0 & l2 & Hget & H & _).
  injection Hget as <- _ <-.
  destruct (str_mem sp req) eqn:Hreq.
  - apply str_mem_In in Hreq.
    destruct (dict_get KNOWN_EXTRA_PARAMETERS sp) as [ke|] eqn:Hke.
    + left. split; [exact Hreq|].
      destruct (String.eqb_spec k "non-asset") as [->|Hk].
      * apply sm_bind_inv_ok in H.
        destruct H as (s2 & l3 & main' & l4 & Hset & H & _).
        unfold sm_lift in Hset. injection Hset as <- Hset.
        apply set_group_parameter_ok in Hset.
        destruct Hset as (d & g & Hmain & Hg & ->).
        apply sm_bind_inv_ok in H.
        destruct H as (s3 & l5 & [] & l6 & Hput & H & _).
        injection Hput as <- _. injection H as <- _.
        exists ke. eexists. split; [reflexivity|]. split; [reflexivity|].
        left. split; [reflexivity|]. now exists d, g.
      * apply sm_bind_inv_ok in H.
        destruct H as (s2 & l3 & main' & l4 & Hset & H & _).
        unfold sm_lift in Hset. injection Hset as <- Hset.
        apply set_asset_parameter_ok in Hset.
        destruct Hset as (d & g & a & Hmain & Hg & Ha & ->).
        apply sm_bind_inv_ok in H.
        destruct H as (s3 & l5 & [] & l6 & Hput & H & _).
        injection Hput as <- _. injection H as <- _.
        exists ke. eexists. split; [reflexivity|]. split; [reflexivity|].
        right. split; [exact Hk|]. now exists d, g, a.
    + right. left. split; [reflexivity|]. now injection H as <- _.
  - apply str_mem_false in Hreq. right. right. split; [exact Hreq|].
    destruct (negb _); injection H as <- _; auto.
Qed.


(** *** What the loops keep, given what one name keeps *)

Section Structure.
Variable Inv : cmp_state -> Prop.
Variables (set_default : bool) (mp : string).

Lemma reconcile_sub_inv k required names :
  (forall req sp s s' log,
     Inv s -> reconcile_name set_default mp k req sp s = (s', (log, Ok tt)) ->
     Inv s') ->
  forall s s' log,
    Inv s ->
    reconcile_sub set_default mp k required names s = (s', (log, Ok tt)) ->
    Inv s'.
Proof.
  intros Hname s s' log Hi Hrun. unfold reconcile_sub in Hrun.
  destruct required as [req|].
  - apply sm_bind_inv_ok in Hrun.
    destruct Hrun as (s1 & l1 & ns & l2 & Hnames & Hloop & _).
    unfold sm_lift in Hnames. injection Hnames as <- _.
    apply (sm_for_inv Inv _ _
             (fun sp s0 s0' log0 _ => Hname req sp s0 s0' log0)
             s s' l2 Hi Hloop).
  - injection Hrun as <- _. exact Hi.
Qed.

Lemma reconcile_asset_inv mp0 required size k :
  (forall req sp s s' log,
     Inv s -> reconcile_name set_default mp k req sp s = (s', (log, Ok tt)) ->
     Inv s') ->
  forall s s' log,
    Inv s ->
    reconcile_asset set_default mp mp0 required size k s =
    (s', (log, Ok tt)) ->
    Inv s'.
Proof.
  intros Hname s s' log Hi Hrun. unfold reconcile_asset in Hrun.
  apply sm_bind_inv_ok in Hrun.
  destruct Hrun as (s1 & l1 & s0 & l2 & Hget & Hrun & _).
  injection Hget as <- _ <-.
  apply sm_bind_inv_ok in Hrun.
  destruct Hrun as (s1 & l3 & [] & l4 & Hsub & Hrun & _).
  apply (reconcile_sub_inv _ _ _ Hname) in Hsub; [|exact Hi].
  apply sm_bind_inv_ok in Hrun.
  destruct Hrun as (s2 & l5 & s3 & l6 & Hget & Hrun & _).
  injection Hget as <- _ <-.
  destruct (group_of (main_parameters s1) mp0) as [[]|];
    try discriminate.
  destruct (Nat.eqb _ size); [|discriminate].
  injection Hrun as <- _. exact Hsub.
Qed.

Lemma reconcile_group_inv required :
  (forall k req sp s s' log,
     Inv s -> reconcile_name set_default mp k req sp s = (s', (log, Ok tt)) ->
     Inv s') ->
  forall s s' log,
    Inv s ->
    reconcile_group set_default mp required s = (s', (log, Ok tt)) ->
    Inv s'.
Proof.
  intros Hname s s' log Hi Hrun. unfold reconcile_group in Hrun.
  apply sm_bind_inv_ok in Hrun.
  destruct Hrun as (s1 & l1 & s0 & l2 & Hget & Hrun & _).
  injection Hget as <- _ <-.
  destruct (sub_params s) as [[mp0|names|mp0]|]; [| | |discriminate].
  - now apply (reconcile_sub_inv _ _ _ (Hname "non-asset")) in Hrun.
  - now apply (reconcile_sub_inv _ _ _ (Hname "non-asset")) in Hrun.
  - destruct (group_of (main_parameters s) mp0) as [v|]; [|discriminate].
    destruct v as [ | | | | [|] | [|k0 l0] | g]; try discriminate;
      try (injection Hrun as <- _; exact Hi).
    + cbv zeta in Hrun. destruct required; unfold sm_lift in Hrun;
        injection Hrun as <- _; exact Hi.
    + apply (sm_for_inv Inv _ _
               (fun k s0 s0' log0 _ =>
                  reconcile_asset_inv mp0 required (List.length g) k (Hname k)
                                      s0 s0' log0)
               s s' l2 Hi Hrun).
Qed.

End Structure.



(** *** Other groups, and the missing names *)




(** *** The group of the parameter *)



Section OneParameter.
Variables (mp sp : string) (req : list string) (ke : known_extra).
Hypothesis sp_required : In sp req.
Hypothesis sp_known : dict_get KNOWN_EXTRA_PARAMETERS sp = Some ke.






End OneParameter.


(** *** The whole call *)

Lemma compare_loaded_ok folder_path ext flag_missing set_default
    required_parameters main s0 sf log ans :
  compare_loaded folder_path ext flag_missing set_default required_parameters
                 main s0 = (sf, (log, Ok ans)) ->
  (exists l1,
     sm_for (compare_group folder_path ext set_default required_parameters)
            (main_names main) s0 = (sf, (l1, Ok tt))) /\
  ans = build_answer required_parameters sf.
Proof.
  unfold compare_loaded. intros H.
  apply sm_bind_inv_ok in H.
  destruct H as (s1 & l1 & [] & l2 & Hloop & H & _).
  apply sm_bind_inv_ok in H.
  destruct H as (s2 & l3 & s3 & l4 & Hget & H & _).
  injection Hget as <- _ <-.
  apply sm_bind_inv_ok in H.
  destruct H as (s2 & l5 & [] & l6 & Hflag & H & _).
  injection H as <- _ <-.
  assert (s2 = s1) as ->.
  { destruct flag_missing.
    - unfold sm_lift in Hflag. now injection Hflag as <- _.
    - now injection Hflag as <- _. }
  split; [now exists l1|reflexivity].
Qed.


Lemma dict_get_map_some {A : Type} (d : list (string * A)) k :
  dict_get (map (fun kv => (fst kv, Some (snd kv))) d) k =
  option_map Some (dict_get d k).
Proof.
  induction d as [|[k' v] d IH]; [reflexivity|]. cbn.
  now destruct (String.eqb k' k).
Qed.


End DefaultFilling.

(* ================================================================= *)
(** ** Reading a nested value: [get_nested_value] *)

Section NestedValueProperties.
Context {F : PyFloat}.

Lemma getitem_reads (v : hval) k (h h' : heap) r :
  getitem v k h = (h', r) -> h' = h.
Proof.
  destruct v; try (cbn; intros H; now injection H as <- _).
  cbn [getitem]. unfold sm_bind, deref.
  destruct (nth_error h l) as [[entries|items]|];
    cbn; try destruct (dict_get entries k); cbn;
    intros H; now injection H as <- _.
Qed.

Lemma getitem_entry (h : heap) la entries k x :
  nth_error h la = Some (ODict entries) ->
  dict_get entries k = Some x ->
  getitem (HRef la) k h = (h, ([], Ok x)).
Proof.
  intros Hla Hk. cbn [getitem]. unfold sm_bind, deref.
  rewrite Hla. cbn. now rewrite Hk.
Qed.

Lemma setitem_ok_inv (v : hval) k x (h h' : heap) log :
  setitem v k x h = (h', (log, Ok tt)) ->
  exists la entries,
    v = HRef la /\ nth_error h la = Some (ODict entries) /\
    h' = heap_write h la (ODict (dict_set entries k x)).
Proof.
  destruct v; try discriminate.
  cbn [setitem]. unfold sm_bind, deref.
  destruct (nth_error h l) as [[entries|items]|] eqn:E; cbn; try discriminate.
  intros H. injection H as <- _. now exists l, entries.
Qed.

Lemma deepcopy_allocates fuel v (h h' : heap) log la :
  deepcopy fuel v h = (h', (log, Ok (HRef la))) -> la < List.length h'.
Proof.
  destruct fuel as [|fuel]; destruct v; try discriminate.
  cbn [deepcopy]. intros H.
  apply sm_bind_inv_ok in H. destruct H as (h1 & l1 & o & l2 & _ & H & _).
  destruct o as [entries|items];
    apply sm_bind_inv_ok in H; destruct H as (h2 & l3 & vs & l4 & _ & H & _);
    unfold alloc in H; injection H as <- _ <-;
    rewrite length_app; simpl; lia.
Qed.

Lemma deepcopy_grows fuel v (h h' : heap) r :
  deepcopy fuel v h = (h', r) -> List.length h <= List.length h'.
Proof.
  intros H.
  exact (proj2 (preserves_deepcopy 0 fuel v h h' r (Nat.le_0_l _) H)).
Qed.

(** The dict that [set_nested_value] returns is a new object, and along
    [keys] it leads through new objects to the value that was given. *)
Lemma set_nested_value_tuple_path fuel value keys :
  forall dct (h h' : heap) log answer,
    set_nested_value_tuple fuel dct value keys h = (h', (log, Ok answer)) ->
    exists la,
      answer = HRef la /\ List.length h <= la /\
      forall h'' : heap,
        (forall l, List.length h <= l -> nth_error h'' l = nth_error h' l) ->
        get_nested_value_tuple answer keys h'' = (h'', ([], Ok value)).
Proof.
  induction keys as [|k rest IH]; intros dct h h' log answer H.
  - cbn [set_nested_value_tuple] in H.
    apply sm_bind_inv_ok in H. destruct H as (? & ? & ? & ? & _ & H & _).
    discriminate.
  - destruct rest as [|k2 rest].
    + cbn [set_nested_value_tuple] in H.
      apply sm_bind_inv_ok in H.
      destruct H as (h1 & l1 & a & l2 & Hcopy & H & _).
      apply sm_bind_inv_ok in H.
      destruct H as (h2 & l3 & [] & l4 & Hset & H & _).
      injection H as <- _ <-.
      apply setitem_ok_inv in Hset.
      destruct Hset as (la & entries & -> & Hla & ->).
      exists la. split; [reflexivity|]. split.
      { exact (deepcopy_fresh fuel dct h h1 l1 (HRef la) Hcopy). }
      intros h'' Hagree. cbn [get_nested_value_tuple].
      apply getitem_entry with (entries := dict_set entries k value).
      * rewrite Hagree
          by exact (deepcopy_fresh fuel dct h h1 l1 (HRef la) Hcopy).
        apply heap_write_same. apply nth_error_Some. congruence.
      * apply dict_get_set_same.
    + cbn [set_nested_value_tuple] in H.
      apply sm_bind_inv_ok in H.
      destruct H as (h1 & l1 & a & l2 & Hcopy & H & _).
      apply sm_bind_inv_ok in H.
      destruct H as (h1' & l3 & sub & l4 & Hget & H & _).
      pose proof (getitem_reads _ _ _ _ _ Hget) as ->.
      apply sm_bind_inv_ok in H.
      destruct H as (h2 & l5 & new & l6 & Hrec & H & _).
      apply sm_bind_inv_ok in H.
      destruct H as (h3 & l7 & [] & l8 & Hset & H & _).
      injection H as <- _ <-.
      apply setitem_ok_inv in Hset.
      destruct Hset as (la & entries & -> & Hla & ->).
      pose proof (deepcopy_fresh fuel dct h h1 l1 (HRef la) Hcopy) as Hfresh.
      pose proof (deepcopy_allocates fuel dct h h1 l1 la Hcopy) as Hin.
      pose proof (deepcopy_grows fuel dct h h1 _ Hcopy) as Hgrow.
      cbn in Hfresh.
      destruct (IH sub h1 h2 l5 new Hrec) as (ln & -> & Hln & Hpath).
      exists la. split; [reflexivity|]. split; [exact Hfresh|].
      intros h'' Hagree.
      change (get_nested_value_tuple (HRef la) (k :: k2 :: rest))
        with (sm_bind (getitem (HRef la) k)
                (fun sub => get_nested_value_tuple sub (k2 :: rest))).
      rewrite sm_bind_run with (s1 := h'') (a := HRef ln).
      * apply Hpath. intros l Hl.
        rewrite Hagree by lia.
        apply heap_write_other. lia.
      * apply getitem_entry with (entries := dict_set entries k (HRef ln)).
        -- rewrite Hagree by exact Hfresh.
           apply heap_write_same. apply nth_error_Some. congruence.
        -- apply dict_get_set_same.
Qed.

(** X1. Reading back along the path that was set gives the very value
    that was given. *)
Theorem get_after_set_returns_the_value fuel dct value keys
    (h h' : heap) log answer :
  set_nested_value fuel dct value keys h = (h', (log, Ok answer)) ->
  get_nested_value answer keys h' = (h', ([], Ok value)).
Proof.
  destruct keys as [keys|]; [|discriminate].
  cbn [set_nested_value get_nested_value]. intros H.
  destruct (set_nested_value_tuple_path fuel value keys dct h h' log answer H)
    as (la & -> & _ & Hpath).
  now apply Hpath.
Qed.

Lemma sm_bind_assoc {S A B C : Type} (m : SM S A) (f : A -> SM S B)
    (g : B -> SM S C) s :
  sm_bind (sm_bind m f) g s = sm_bind m (fun a => sm_bind (f a) g) s.
Proof.
  unfold sm_bind. destruct (m s) as [s1 [l1 [a|e|]]]; [|reflexivity..].
  destruct (f a s1) as [s2 [l2 [b|e|]]]; [|reflexivity..].
  destruct (g b s2) as [s3 [l3 r]]. now rewrite app_assoc.
Qed.

Lemma sm_bind_ext {S A B : Type} (m : SM S A) (f g : A -> SM S B) s :
  (forall a s1, f a s1 = g a s1) -> sm_bind m f s = sm_bind m g s.
Proof.
  intros H. unfold sm_bind. destruct (m s) as [s1 [l1 [a|e|]]]; [|reflexivity..].
  now rewrite H.
Qed.

(** X2. A path can be followed in two steps. *)
Theorem get_nested_value_in_two_steps dct keys1 keys2 (h : heap) :
  keys1 <> [] -> keys2 <> [] ->
  get_nested_value dct (KeysTuple (keys1 ++ keys2)) h =
  sm_bind (get_nested_value dct (KeysTuple keys1))
          (fun sub => get_nested_value sub (KeysTuple keys2)) h.
Proof.
  intros H1 H2. cbn [get_nested_value].
  revert dct h. induction keys1 as [|k rest IH]; [congruence|].
  intros dct h. destruct rest as [|k2 rest].
  - destruct keys2 as [|k' keys2]; [congruence|]. reflexivity.
  - change (get_nested_value_tuple dct ((k :: k2 :: rest) ++ keys2) h)
      with (sm_bind (getitem dct k)
              (fun sub => get_nested_value_tuple sub ((k2 :: rest) ++ keys2)) h).
    change (get_nested_value_tuple dct (k :: k2 :: rest))
      with (sm_bind (getitem dct k)
              (fun sub => get_nested_value_tuple sub (k2 :: rest))).
    rewrite sm_bind_assoc. apply sm_bind_ext.
    intros sub s1. apply IH. discriminate.
Qed.

Lemma get_nested_value_tuple_reads keys :
  forall dct (h h' : heap) log r,
    get_nested_value_tuple dct keys h = (h', (log, r)) -> h' = h /\ log = [].
Proof.
  induction keys as [|k rest IH]; intros dct h h' log r H.
  - injection H as <- <- _. now split.
  - assert (Hitem : forall v (h0 h1 : heap) l0 r0,
               getitem v k h0 = (h1, (l0, r0)) -> h1 = h0 /\ l0 = []).
    { intros v h0 h1 l0 r0 Hg. split; [exact (getitem_reads _ _ _ _ _ Hg)|].
      destruct v; try (now injection Hg as _ <- _).
      cbn [getitem] in Hg. unfold sm_bind, deref in Hg.
      destruct (nth_error h0 l) as [[entries|items]|]; cbn in Hg;
        try (now injection Hg as _ <- _).
      destruct (dict_get entries k); cbn in Hg; now injection Hg as _ <- _. }
    destruct rest as [|k2 rest]; [exact (Hitem _ _ _ _ _ H)|].
    change (get_nested_value_tuple dct (k :: k2 :: rest))
      with (sm_bind (getitem dct k)
              (fun sub => get_nested_value_tuple sub (k2 :: rest))) in H.
    apply sm_bind_inv in H.
    destruct H as [(h1 & l1 & a & l2 & Hg & H & ->)|[(e & Hg & _)|[Hg _]]].
    + destruct (Hitem _ _ _ _ _ Hg) as [-> ->].
      destruct (IH _ _ _ _ _ H) as [-> ->]. now split.
    + exact (Hitem _ _ _ _ _ Hg).
    + exact (Hitem _ _ _ _ _ Hg).
Qed.

(** X3. What [get_nested_value] does at the edges, and that it writes
    nothing. *)
Theorem get_nested_value_reads_only dct keys (h : heap) :
  (forall h' log r,
     get_nested_value dct keys h = (h', (log, r)) -> h' = h /\ log = [])
  /\
  (keys = KeysOther ->
   get_nested_value dct keys h = (h, ([], Raise TypeError)))
  /\
  (keys = KeysTuple [] ->
   get_nested_value dct keys h = (h, ([], Raise ValueError)))
  /\
  (forall la entries k rest,
     dct = HRef la -> keys = KeysTuple (k :: rest) ->
     nth_error h la = Some (ODict entries) ->
     dict_get entries k = None ->
     get_nested_value dct keys h = (h, ([], Raise KeyError)))
  /\
  (forall k rest,
     keys = KeysTuple (k :: rest) ->
     (forall la, dct <> HRef la) ->
     get_nested_value dct keys h = (h, ([], Raise TypeError))).
Proof.
  split; [|split; [|split; [|split]]].
  - intros h' log r H. destruct keys as [keys|].
    + exact (get_nested_value_tuple_reads keys dct h h' log r H).
    + injection H as <- <- _. now split.
  - now intros ->.
  - now intros ->.
  - intros la entries k rest -> -> Hla Hk. cbn [get_nested_value].
    destruct rest as [|k2 rest]; cbn [get_nested_value_tuple getitem];
      unfold sm_bind, deref; rewrite Hla; cbn; now rewrite Hk.
  - intros k rest -> Hatom. cbn [get_nested_value].
    destruct dct; try (now destruct rest). now destruct (Hatom l).
Qed.

End NestedValueProperties.

(** *** Closed instances *)

Lemma example_heap_represents :
  represents example_heap (HRef 2) example_heap_value.
Proof.
  unfold represents, example_heap, example_heap_value.
  eapply den_dict; [exact I|reflexivity|reflexivity|].
  repeat constructor.
  eapply den_dict; [exact I|reflexivity|reflexivity|].
  repeat constructor.
  eapply den_dict; [exact I|reflexivity|reflexivity|].
  repeat constructor.
Qed.

Lemma get_after_set_returns_the_value_witness :
  exists h' answer,
    set_nested_value 3 (HRef 2) (HInt 400) (KeysTuple ["b"; "b1"; "b11"])
      example_heap = (h', ([], Ok answer)) /\
    get_nested_value answer (KeysTuple ["b"; "b1"; "b11"]) h' =
    (h', ([], Ok (HInt 400))).
Proof.
  eexists. eexists. split; [vm_compute; reflexivity|].
  apply (@get_after_set_returns_the_value nan_only 3 (HRef 2) (HInt 400)
           (KeysTuple ["b"; "b1"; "b11"]) example_heap _ [] _).
  vm_compute; reflexivity.
Defined.

Lemma get_nested_value_in_two_steps_witness :
  get_nested_value (HRef 2) (KeysTuple (["b"] ++ ["b1"; "b11"])) example_heap =
  sm_bind (get_nested_value (HRef 2) (KeysTuple ["b"]))
          (fun sub => get_nested_value sub (KeysTuple ["b1"; "b11"]))
          example_heap.
Proof.
  apply (@get_nested_value_in_two_steps nan_only (HRef 2) ["b"] ["b1"; "b11"]
           example_heap); discriminate.
Defined.

(* ================================================================= *)
(** ** Paths given as text: [split_nested_path] *)

Lemma char_in_count c s : char_in c s = Nat.ltb 0 (count_char c s).
Proof.
  induction s as [|a r IH]; [reflexivity|].
  cbn [char_in count_char]. destruct (Ascii.eqb a c); [reflexivity|].
  now rewrite IH.
Qed.

Lemma split_on_not_nil c s : split_on c s <> [].
Proof.
  destruct s as [|a r]; [discriminate|].
  cbn [split_on]. destruct (Ascii.eqb a c); [discriminate|].
  destruct (split_on c r); discriminate.
Qed.

Lemma length_split_on c s : List.length (split_on c s) = S (count_char c s).
Proof.
  induction s as [|a r IH]; [reflexivity|].
  cbn [split_on count_char]. destruct (Ascii.eqb a c).
  - cbn. now rewrite IH.
  - destruct (split_on c r) as [|w ws] eqn:E; [discriminate|].
    cbn in *. exact IH.
Qed.

Lemma join_with_cons c w l :
  l <> [] -> join_with c (w :: l) = (w ++ String c (join_with c l))%string.
Proof. destruct l; [congruence|reflexivity]. Qed.

Lemma join_split_on c s : join_with c (split_on c s) = s.
Proof.
  induction s as [|a r IH]; [reflexivity|].
  cbn [split_on]. destruct (Ascii.eqb_spec a c) as [->|Hne].
  - rewrite join_with_cons by apply split_on_not_nil. now rewrite IH.
  - destruct (split_on c r) as [|w ws] eqn:E.
    + now destruct (split_on_not_nil c r).
    + destruct ws as [|w2 ws].
      * cbn in *. now rewrite IH.
      * rewrite join_with_cons in IH by discriminate.
        rewrite join_with_cons by discriminate.
        cbn [append]. now rewrite IH.
Qed.

Lemma char_in_app c s t : char_in c (s ++ t) = char_in c s || char_in c t.
Proof.
  induction s as [|a r IH]; [reflexivity|].
  cbn. now rewrite IH, orb_assoc.
Qed.

(** A character that is not in a text is in none of its pieces. *)
Lemma split_on_keeps_out c d s :
  char_in d s = false ->
  Forall (fun w => char_in d w = false) (split_on c s).
Proof.
  induction s as [|a r IH]; intros H.
  - now constructor.
  - cbn [char_in] in H. apply orb_false_iff in H. destruct H as [Ha Hr].
    specialize (IH Hr). cbn [split_on]. destruct (Ascii.eqb a c).
    + now constructor.
    + destruct (split_on c r) as [|w ws].
      * constructor; [|constructor]. cbn. now rewrite Ha.
      * inversion IH; subst. constructor; [|assumption].
        cbn. now rewrite Ha.
Qed.

Lemma split_on_pieces c s :
  Forall (fun w => char_in c w = false) (split_on c s).
Proof.
  induction s as [|a r IH]; [now constructor|].
  cbn [split_on]. destruct (Ascii.eqb a c) eqn:E.
  - now constructor.
  - destruct (split_on c r) as [|w ws].
    + constructor; [|constructor]. cbn. now rewrite E.
    + inversion IH; subst. constructor; [|assumption].
      cbn. now rewrite E.
Qed.

Lemma split_on_clean c w :
  char_in c w = false -> split_on c w = [w].
Proof.
  induction w as [|a r IH]; [reflexivity|].
  cbn [char_in split_on]. intros H. apply orb_false_iff in H.
  destruct H as [-> Hr]. now rewrite (IH Hr).
Qed.

Lemma split_on_app c w s :
  char_in c w = false ->
  split_on c (w ++ String c s) = w :: split_on c s.
Proof.
  induction w as [|a r IH]; intros H.
  - cbn. now rewrite Ascii.eqb_refl.
  - cbn [char_in] in H. apply orb_false_iff in H. destruct H as [Ha Hr].
    cbn [append split_on]. rewrite Ha. now rewrite (IH Hr).
Qed.

Lemma split_on_join c l :
  l <> [] -> Forall (fun w => char_in c w = false) l ->
  split_on c (join_with c l) = l.
Proof.
  induction l as [|w l IH]; [congruence|]. intros _ Hall.
  inversion Hall as [|? ? Hw Hl]; subst.
  destruct l as [|w2 l].
  - cbn. now apply split_on_clean.
  - rewrite join_with_cons by discriminate.
    rewrite split_on_app by assumption.
    now rewrite IH by (discriminate || assumption).
Qed.

Lemma char_in_join c d l :
  char_in d (join_with c l) =
  existsb (char_in d) l || (Ascii.eqb c d && Nat.ltb 1 (List.length l)).
Proof.
  induction l as [|w l IH]; [cbn; now rewrite andb_false_r|].
  destruct l as [|w2 l].
  - cbn. now rewrite andb_false_r, !orb_false_r.
  - rewrite join_with_cons by discriminate.
    rewrite char_in_app. cbn [char_in]. rewrite IH.
    cbn [existsb List.length Nat.ltb Nat.leb]. rewrite andb_true_r.
    destruct (char_in d w), (Ascii.eqb c d), (char_in d w2),
      (existsb (char_in d) l), (match l with [] => false | _ => true end);
      try reflexivity; destruct l; reflexivity.
Qed.

Lemma split_nested_path_text s :
  split_nested_path (PathStr s) =
  match char_in "." s, char_in "," s with
  | true, true => ([], Raise ValueError)
  | true, false => ([], Ok (split_on "." s))
  | false, true => ([], Ok (split_on "," s))
  | false, false => ([], Raise TypeError)
  end.
Proof.
  unfold split_nested_path, SEPARATORS.
  cbn [for_each]. unfold check_separator.
  rewrite !(char_in_count "." s), !(char_in_count "," s).
  now destruct (count_char "." s), (count_char "," s).
Qed.

(** X4. Which texts [split_nested_path] accepts. *)
Theorem split_nested_path_cases :
  (forall s,
     split_nested_path (PathStr s) =
     match char_in "." s, char_in "," s with
     | true, true => ([], Raise ValueError)
     | true, false => ([], Ok (split_on "." s))
     | false, true => ([], Ok (split_on "," s))
     | false, false => ([], Raise TypeError)
     end)
  /\ (forall keys, split_nested_path (PathTuple keys) = ([], Ok keys))
  /\ split_nested_path PathOther = ([], Raise TypeError).
Proof.
  split; [exact split_nested_path_text|split; reflexivity].
Qed.

(** X5. The keys of an accepted text, joined again, give the text. *)
Theorem split_nested_path_joins_back s log keys :
  split_nested_path (PathStr s) = (log, Ok keys) ->
  log = [] /\
  2 <= List.length keys /\
  Forall (fun k => char_in "." k = false /\ char_in "," k = false) keys /\
  exists sep, In sep SEPARATORS /\ join_with sep keys = s.
Proof.
  rewrite split_nested_path_text.
  destruct (char_in "." s) eqn:Edot, (char_in "," s) eqn:Ecomma;
    try discriminate; intros H; injection H as <- <-.
  - split; [reflexivity|]. split; [|split].
    + rewrite length_split_on. rewrite char_in_count in Edot.
      apply Nat.ltb_lt in Edot. lia.
    + apply Forall_forall. intros k Hk. split.
      * exact (proj1 (Forall_forall _ _) (split_on_pieces "." s) k Hk).
      * exact (proj1 (Forall_forall _ _)
                 (split_on_keeps_out "." "," s Ecomma) k Hk).
    + exists "."%char. split; [now left|]. apply join_split_on.
  - split; [reflexivity|]. split; [|split].
    + rewrite length_split_on. rewrite char_in_count in Ecomma.
      apply Nat.ltb_lt in Ecomma. lia.
    + apply Forall_forall. intros k Hk. split.
      * exact (proj1 (Forall_forall _ _)
                 (split_on_keeps_out "," "." s Edot) k Hk).
      * exact (proj1 (Forall_forall _ _) (split_on_pieces "," s) k Hk).
    + exists ","%char. split; [right; now left|]. apply join_split_on.
Qed.

Lemma existsb_false_Forall {A : Type} (f : A -> bool) l :
  Forall (fun x => f x = false) l -> existsb f l = false.
Proof.
  induction 1 as [|x l Hx _ IH]; [reflexivity|]. cbn. now rewrite Hx, IH.
Qed.

(** X6. Two or more keys without separator characters, joined by a
    separator, are split into the same keys. *)
Theorem split_nested_path_of_joined_keys sep keys :
  In sep SEPARATORS ->
  2 <= List.length keys ->
  Forall (fun k => char_in "." k = false /\ char_in "," k = false) keys ->
  split_nested_path (PathStr (join_with sep keys)) = ([], Ok keys).
Proof.
  intros Hsep Hlen Hclean.
  assert (Hdot : Forall (fun k => char_in "." k = false) keys).
  { eapply Forall_impl; [|exact Hclean]. now intros k [? ?]. }
  assert (Hcomma : Forall (fun k => char_in "," k = false) keys).
  { eapply Forall_impl; [|exact Hclean]. now intros k [? ?]. }
  assert (Hlt : Nat.ltb 1 (List.length keys) = true)
    by (apply Nat.ltb_lt; lia).
  assert (Hne : keys <> []) by (destruct keys; [cbn in Hlen; lia|discriminate]).
  rewrite split_nested_path_text.
  rewrite !char_in_join, Hlt, !andb_true_r.
  rewrite (existsb_false_Forall _ _ Hdot), (existsb_false_Forall _ _ Hcomma).
  destruct Hsep as [<-|[<-|[]]]; cbn [orb Ascii.eqb Bool.eqb andb].
  - now rewrite split_on_join.
  - now rewrite split_on_join.
Qed.

(* ================================================================= *)
(** ** Searching for input folders *)

Section FolderProperties.
Context {K : FolderConstants}.

Lemma folder_tree_ind' (P : folder_tree -> Prop) :
  (forall files folders,
     Forall (fun f => P (snd f)) folders -> P (FolderTree files folders)) ->
  forall d, P d.
Proof.
  intros Hdir. fix IH 1. intros [files folders]. apply Hdir.
  induction folders as [|[name sub] r IHr]; constructor.
  - apply IH.
  - exact IHr.
Qed.

Lemma find_json_input_folders_eq path name ignore files folders :
  find_json_input_folders path name ignore (FolderTree files folders) =
  if has_entry (FolderTree files folders) JSON_FNAME then [path]
  else flat_map (json_below path name ignore) folders.
Proof.
  cbn [find_json_input_folders].
  destruct (has_entry (FolderTree files folders) JSON_FNAME); [reflexivity|].
  match goal with
  | |- ?search folders [] = _ =>
      assert (H : forall answer,
                 search folders answer =
                 answer ++ flat_map (json_below path name ignore) folders)
  end.
  { induction folders as [|[folder sub] r IH]; intros answer.
    - cbn. now rewrite app_nil_r.
    - cbn [flat_map]. unfold json_below at 1. cbn [fst snd].
      destruct (negb (str_mem folder ignore)).
      + rewrite IH. now rewrite app_assoc.
      + now rewrite IH. }
  exact (H []).
Qed.

Lemma find_csv_input_folders_eq path name ignore files folders :
  find_csv_input_folders path name ignore (FolderTree files folders) =
  if str_mem CSV_ELEMENTS
       (map fst (folder_list ignore (FolderTree files folders)))
  then [path]
  else flat_map (csv_below path name ignore) folders.
Proof.
  cbn [find_csv_input_folders].
  destruct (str_mem CSV_ELEMENTS _); [reflexivity|].
  match goal with
  | |- ?search folders [] = _ =>
      assert (H : forall answer,
                 search folders answer =
                 answer ++ flat_map (csv_below path name ignore) folders)
  end.
  { induction folders as [|[folder sub] r IH]; intros answer.
    - cbn. now rewrite app_nil_r.
    - cbn [flat_map]. unfold csv_below at 1. cbn [fst snd].
      destruct (negb (str_mem folder ignore)).
      + rewrite IH. now rewrite app_assoc.
      + now rewrite IH. }
  exact (H []).
Qed.

(** X7. Every folder that [find_json_input_folders] returns holds the
    config file and is reached without entering an ignored folder. *)
Theorem find_json_input_folders_sound name ignore d :
  forall path p,
    In p (find_json_input_folders path name ignore d) ->
    exists d', reaches ignore path d p d' /\ has_entry d' JSON_FNAME = true.
Proof.
  induction d as [files folders IH] using folder_tree_ind'.
  intros path p. rewrite find_json_input_folders_eq.
  destruct (has_entry (FolderTree files folders) JSON_FNAME) eqn:E.
  - intros [<-|[]]. exists (FolderTree files folders). split; [constructor|exact E].
  - intros Hin. apply in_flat_map in Hin.
    destruct Hin as ([folder sub] & Hf & Hin).
    unfold json_below in Hin. cbn [fst snd] in Hin.
    destruct (str_mem folder ignore) eqn:Eign; [contradiction|].
    cbn [negb] in Hin.
    pose proof (proj1 (Forall_forall _ _) IH _ Hf) as IHsub.
    destruct (IHsub _ _ Hin) as (d' & Hreach & Hd').
    exists d'. split; [|exact Hd'].
    now apply reaches_down with (folder := folder) (sub := sub).
Qed.

Lemma reaches_trans ignore path d p d' q d'' :
  reaches ignore path d p d' -> reaches ignore p d' q d'' ->
  reaches ignore path d q d''.
Proof.
  induction 1 as [|path d folder sub p d' Hin Hign _ IH]; [auto|].
  intros H. eapply reaches_down; eauto.
Qed.

(** The folders that [find_json_input_folders] returns are those that
    the way down of [finds] ends in. *)
Lemma find_json_input_folders_finds name ignore d :
  forall path q,
    In q (find_json_input_folders path name ignore d) <->
    exists d'', finds ignore path d q d''.
Proof.
  induction d as [files folders IH] using folder_tree_ind'.
  intros path q. rewrite find_json_input_folders_eq.
  destruct (has_entry (FolderTree files folders) JSON_FNAME) eqn:E.
  - split.
    + intros [<-|[]]. eexists. now apply finds_here.
    + intros [d'' H]. inversion H; subst; [now left|congruence].
  - rewrite in_flat_map. split.
    + intros ([folder sub] & Hf & Hin).
      unfold json_below in Hin. cbn [fst snd] in Hin.
      destruct (str_mem folder ignore) eqn:Eign; [contradiction|].
      cbn [negb] in Hin.
      apply (proj1 (Forall_forall _ _) IH _ Hf) in Hin.
      destruct Hin as [d'' Hd'']. exists d''.
      now apply finds_below with (folder := folder) (sub := sub).
    + intros [d'' H]. inversion H; subst; [congruence|].
      match goal with
      | Hin : In (?folder, ?sub) _, Hign : str_mem ?folder ignore = false,
        Hsub : finds _ _ ?sub _ _ |- _ =>
          exists (folder, sub); split; [exact Hin|];
          unfold json_below; cbn [fst snd]; rewrite Hign; cbn [negb];
          apply (proj1 (Forall_forall _ _) IH _ Hin); eauto
      end.
Qed.

(** X8. [find_json_input_folders] returns exactly the folders that
    hold the config file and are reached from [path] through folders
    that are not ignored and none of which holds the config file: the
    search stops at the first folder that holds the file and returns
    nothing through it from below. So no folder that holds the config
    file is missed: it is returned, or it lies below a folder that is
    returned. *)
Theorem find_json_input_folders_complete name ignore path d :
  (forall q,
     In q (find_json_input_folders path name ignore d) <->
     exists d'', finds ignore path d q d'')
  /\
  (forall p d',
     reaches ignore path d p d' ->
     has_entry d' JSON_FNAME = true ->
     exists q d'',
       In q (find_json_input_folders path name ignore d) /\
       finds ignore path d q d'' /\ reaches ignore q d'' p d').
Proof.
  split; [intros q; apply find_json_input_folders_finds|].
  intros p d' Hreach. revert name.
  induction Hreach as [path d|path d folder sub p d' Hin Hign Hreach IH];
    intros name Hd'.
  - exists path, d.
    split; [apply find_json_input_folders_finds; eexists; now apply finds_here|].
    split; [now apply finds_here|constructor].
  - destruct (has_entry d JSON_FNAME) eqn:E.
    + exists path, d.
      split; [apply find_json_input_folders_finds; eexists;
              now apply finds_here|].
      split; [now apply finds_here|]. eapply reaches_down; eauto.
    + destruct (IH name Hd') as (q & d'' & Hq & Hf & Hr).
      exists q, d''.
      assert (Hfinds : finds ignore path d q d'')
        by (eapply finds_below; eauto).
      split; [apply find_json_input_folders_finds; eauto|].
      split; [exact Hfinds|exact Hr].
Qed.

(** X9. The arguments [specific_file_name] and [specific_folder_name] have
    no effect. *)
Theorem specific_name_is_not_used name1 name2 ignore d :
  forall path,
    find_json_input_folders path name1 ignore d =
    find_json_input_folders path name2 ignore d /\
    find_csv_input_folders path name1 ignore d =
    find_csv_input_folders path name2 ignore d.
Proof.
  revert ignore.
  induction d as [files folders IH] using folder_tree_ind'.
  intros ignore path.
  rewrite !find_json_input_folders_eq, !find_csv_input_folders_eq.
  assert (Hj : flat_map (json_below path name1 ignore) folders =
               flat_map (json_below path name2 ignore) folders).
  { clear -IH. induction folders as [|[folder sub] r IHr]; [reflexivity|].
    inversion IH as [|? ? Hsub Hr]; subst. cbn [snd] in Hsub.
    cbn [flat_map].
    rewrite (IHr Hr). unfold json_below. cbn [fst snd].
    destruct (negb (str_mem folder ignore)); [|reflexivity].
    now rewrite (proj1 (Hsub ignore (path_join path folder))). }
  assert (Hc : flat_map (csv_below path name1 ignore) folders =
               flat_map (csv_below path name2 ignore) folders).
  { clear -IH. induction folders as [|[folder sub] r IHr]; [reflexivity|].
    inversion IH as [|? ? Hsub Hr]; subst. cbn [snd] in Hsub.
    cbn [flat_map].
    rewrite (IHr Hr). unfold csv_below. cbn [fst snd].
    destruct (negb (str_mem folder ignore)); [|reflexivity].
    now rewrite (proj2 (Hsub [OUTPUT_FOLDER] (path_join path folder))). }
  now rewrite Hj, Hc.
Qed.

Lemma find_csv_input_folders_reaches name d :
  forall ignore path p,
    In p (find_csv_input_folders path name ignore d) ->
    (p = path /\
     str_mem CSV_ELEMENTS (map fst (folder_list ignore d)) = true) \/
    exists folder sub d',
      In (folder, sub) (folders_of d) /\
      str_mem folder ignore = false /\
      reaches [OUTPUT_FOLDER] (path_join path folder) sub p d' /\
      str_mem CSV_ELEMENTS (map fst (folder_list [OUTPUT_FOLDER] d')) = true.
Proof.
  induction d as [files folders IH] using folder_tree_ind'.
  intros ignore path p. rewrite find_csv_input_folders_eq.
  destruct (str_mem CSV_ELEMENTS _) eqn:E.
  - intros [<-|[]]. now left.
  - intros Hin. right. apply in_flat_map in Hin.
    destruct Hin as ([folder sub] & Hf & Hin).
    unfold csv_below in Hin. cbn [fst snd] in Hin.
    destruct (str_mem folder ignore) eqn:Eign; [contradiction|].
    cbn [negb] in Hin.
    pose proof (proj1 (Forall_forall _ _) IH _ Hf) as IHsub.
    cbn [snd] in IHsub.
    destruct (IHsub _ _ _ Hin)
      as [[-> Hhere]|(folder2 & sub2 & d' & Hin2 & Hign2 & Hreach & Hd')].
    + exists folder, sub, sub. repeat split; try assumption. constructor.
    + exists folder, sub, d'. repeat split; try assumption.
      eapply reaches_down; eauto.
Qed.

Lemma find_csv_input_folders_finds name d :
  forall ignore path p,
    In p (find_csv_input_folders path name ignore d) <->
    finds_csv ignore path d p.
Proof.
  induction d as [files folders IH] using folder_tree_ind'.
  intros ignore path p. rewrite find_csv_input_folders_eq.
  destruct (str_mem CSV_ELEMENTS _) eqn:E.
  - split.
    + intros [<-|[]]. now apply finds_csv_here.
    + intros H. inversion H; subst; [now left|congruence].
  - rewrite in_flat_map. split.
    + intros ([folder sub] & Hf & Hin).
      unfold csv_below in Hin. cbn [fst snd] in Hin.
      destruct (str_mem folder ignore) eqn:Eign; [contradiction|].
      cbn [negb] in Hin.
      apply (proj1 (Forall_forall _ _) IH _ Hf) in Hin.
      now apply finds_csv_below with (folder := folder) (sub := sub).
    + intros H. inversion H; subst; [congruence|].
      match goal with
      | Hin : In (?folder, ?sub) _, Hign : str_mem ?folder ignore = false,
        Hsub : finds_csv _ _ ?sub _ |- _ =>
          exists (folder, sub); split; [exact Hin|];
          unfold csv_below; cbn [fst snd]; rewrite Hign; cbn [negb];
          now apply (proj1 (Forall_forall _ _) IH _ Hin)
      end.
Qed.

Lemma flat_map_agree {A B : Type} (f g : A -> list B) (l : list A) :
  (forall a, In a l -> f a = g a) -> flat_map f l = flat_map g l.
Proof.
  induction l as [|a l IH]; intros H; [reflexivity|].
  cbn [flat_map]. rewrite (H a) by now left.
  rewrite IH; [reflexivity|]. intros b Hb. apply H. now right.
Qed.

Lemma folder_list_agree ignore ignore' d :
  (forall folder, In folder (map fst (folders_of d)) ->
                  str_mem folder ignore = str_mem folder ignore') ->
  folder_list ignore d = folder_list ignore' d.
Proof.
  intros H. unfold folder_list. apply filter_ext_in.
  intros f Hf. rewrite (H (fst f)); [reflexivity|]. now apply in_map.
Qed.

(** X10. [find_csv_input_folders] returns exactly the folders that have
    a folder named [CSV_ELEMENTS] which is not ignored and that are
    reached from [path] through folders without one. The caller's
    [ignore_folders] decides about the folders directly in [path] and
    about nothing else: below them the default [(OUTPUT_FOLDER,)] does,
    so that two calls whose [ignore_folders] agree on the names of the
    folders directly in [path] return the same list. Every folder that
    is returned is [path] itself or is reached, below a folder of [path]
    that the caller does not ignore, through folders other than
    [OUTPUT_FOLDER]. *)
Theorem find_csv_input_folders_sound name ignore path d :
  (forall p,
     In p (find_csv_input_folders path name ignore d) <->
     finds_csv ignore path d p)
  /\
  (forall ignore',
     (forall folder, In folder (map fst (folders_of d)) ->
                     str_mem folder ignore = str_mem folder ignore') ->
     find_csv_input_folders path name ignore d =
     find_csv_input_folders path name ignore' d)
  /\
  (forall p,
     In p (find_csv_input_folders path name ignore d) ->
     (p = path /\
      str_mem CSV_ELEMENTS (map fst (folder_list ignore d)) = true) \/
     exists folder sub d',
       In (folder, sub) (folders_of d) /\
       str_mem folder ignore = false /\
       reaches [OUTPUT_FOLDER] (path_join path folder) sub p d' /\
       str_mem CSV_ELEMENTS (map fst (folder_list [OUTPUT_FOLDER] d')) = true).
Proof.
  split; [intros p; apply find_csv_input_folders_finds|].
  split; [|intros p; apply find_csv_input_folders_reaches].
  intros ignore' Hagree. destruct d as [files folders].
  rewrite !find_csv_input_folders_eq.
  rewrite (folder_list_agree ignore ignore' _ Hagree).
  destruct (str_mem CSV_ELEMENTS _); [reflexivity|].
  apply flat_map_agree. intros [folder sub] Hf.
  unfold csv_below. cbn [fst snd].
  rewrite (Hagree folder); [reflexivity|].
  cbn [folders_of]. apply in_map_iff. now exists (folder, sub).
Qed.

End FolderProperties.

(** *** Closed instances *)

Lemma split_nested_path_joins_back_witness :
  split_nested_path (PathStr "b.b1.b11") = ([], Ok ["b"; "b1"; "b11"]) /\
  2 <= List.length ["b"; "b1"; "b11"] /\
  Forall (fun k => char_in "." k = false /\ char_in "," k = false)
         ["b"; "b1"; "b11"] /\
  exists sep, In sep SEPARATORS /\ join_with sep ["b"; "b1"; "b11"] = "b.b1.b11".
Proof.
  split; [reflexivity|].
  apply (split_nested_path_joins_back "b.b1.b11" [] ["b"; "b1"; "b11"]
           eq_refl).
Defined.

Lemma split_nested_path_of_joined_keys_witness :
  split_nested_path (PathStr (join_with "," ["a"; "b c"; "d"])) =
  ([], Ok ["a"; "b c"; "d"]).
Proof.
  apply (split_nested_path_of_joined_keys "," ["a"; "b c"; "d"]).
  - right. left. reflexivity.
  - simpl. lia.
  - repeat constructor.
Defined.

Lemma find_json_input_folders_sound_witness :
  find_json_input_folders (K := example_folder_constants) "inputs"
    "mvs_config.json" ["MVS_outputs"] example_tree =
  ["inputs/site_a"; "inputs/archive/site_b"] /\
  exists d',
    reaches ["MVS_outputs"] "inputs" example_tree "inputs/archive/site_b" d' /\
    has_entry d' "mvs_config.json" = true.
Proof.
  split; [reflexivity|].
  apply (@find_json_input_folders_sound example_folder_constants
           "mvs_config.json" ["MVS_outputs"] example_tree "inputs"
           "inputs/archive/site_b").
  right. left. reflexivity.
Defined.

Lemma find_json_input_folders_complete_witness :
  find_json_input_folders (K := example_folder_constants) "inputs"
    "mvs_config.json" ["MVS_outputs"] example_tree_with_copy =
  ["inputs/site_a"] /\
  exists q d'',
    In q (find_json_input_folders (K := example_folder_constants) "inputs"
            "mvs_config.json" ["MVS_outputs"] example_tree_with_copy) /\
    finds (K := example_folder_constants) ["MVS_outputs"] "inputs"
      example_tree_with_copy q d'' /\
    reaches ["MVS_outputs"] q d'' "inputs/site_a/backup"
      (FolderTree ["mvs_config.json"] []).
Proof.
  split; [reflexivity|].
  apply (proj2 (@find_json_input_folders_complete example_folder_constants
                  "mvs_config.json" ["MVS_outputs"] "inputs"
                  example_tree_with_copy)
           "inputs/site_a/backup" (FolderTree ["mvs_config.json"] [])).
  - eapply reaches_down; [left; reflexivity|reflexivity|].
    eapply reaches_down; [left; reflexivity|reflexivity|].
    apply reaches_here.
  - reflexivity.
Defined.

Lemma find_csv_input_folders_sound_witness :
  find_csv_input_folders (K := example_folder_constants) "inputs"
    "csv_elements" ["old"] example_tree_old =
  ["inputs/site/old"; "inputs/MVS_outputs/run"] /\
  finds_csv (K := example_folder_constants) ["old"] "inputs" example_tree_old
    "inputs/site/old" /\
  find_csv_input_folders (K := example_folder_constants) "inputs"
    "csv_elements" ["old"; "run"] example_tree_old =
  ["inputs/site/old"; "inputs/MVS_outputs/run"].
Proof.
  split; [reflexivity|]. split.
  - apply (proj1 (@find_csv_input_folders_sound example_folder_constants
                    "csv_elements" ["old"] "inputs" example_tree_old)
             "inputs/site/old").
    left. reflexivity.
  - symmetry.
    apply (proj1 (proj2 (@find_csv_input_folders_sound
                           example_folder_constants "csv_elements" ["old"]
                           "inputs" example_tree_old))
             ["old"; "run"]).
    intros folder [<-|[<-|[<-|[]]]]; reflexivity.
Defined.

(* ================================================================= *)
(** ** More on [compare_input_parameters_with_reference] *)

(** *** What a computation keeps however it ends *)

Lemma sm_keeps_bind {S A B : Type} (I : S -> Prop) (m : SM S A)
    (k : A -> SM S B) :
  (forall s s' r, I s -> m s = (s', r) -> I s') ->
  (forall a s s' r, I s -> k a s = (s', r) -> I s') ->
  forall s s' r, I s -> sm_bind m k s = (s', r) -> I s'.
Proof.
  intros Hm Hk s s' [log r] Hi H. apply sm_bind_inv in H.
  destruct H as [(s1 & l1 & a & l2 & Hrun & H & _)|[(e & Hrun & _)|[Hrun _]]].
  - eapply Hk; [|exact H]. eapply Hm; eassumption.
  - eapply Hm; eassumption.
  - eapply Hm; eassumption.
Qed.

Lemma sm_keeps_get {S B : Type} (I : S -> Prop) (k : S -> SM S B) :
  (forall s s' r, I s -> k s s = (s', r) -> I s') ->
  forall s s' r, I s -> sm_bind sm_get k s = (s', r) -> I s'.
Proof.
  intros Hk s s' r Hi H. unfold sm_bind, sm_get in H. cbn in H.
  destruct (k s s) as [s2 [l2 r2]] eqn:E. injection H as <- _.
  eapply Hk; eassumption.
Qed.

Lemma sm_keeps_for {S A : Type} (I : S -> Prop) (body : A -> SM S unit) l :
  (forall a s s' r, I s -> body a s = (s', r) -> I s') ->
  forall s s' r, I s -> sm_for body l s = (s', r) -> I s'.
Proof.
  intros Hbody. induction l as [|a l IH]; intros s s' r Hi H.
  - now injection H as <- _.
  - cbn [sm_for] in H. revert s s' r Hi H.
    apply sm_keeps_bind; [apply Hbody|]. intros _. exact IH.
Qed.

Section Frame.
Context {F : PyFloat} {C : MvsConstants} {E : MvsFiles}.

Variable main0 : main_params.

Lemma reconcile_sub_frame mp k required names s s' r :
  main_parameters s = main0 -> reconcile_sub false mp k required names s = (s', r) ->
  main_parameters s' = main0.
Proof.
  unfold reconcile_sub. destruct required as [req|]; intros Hi H.
  - eapply (sm_keeps_bind (fun s0 : cmp_state => main_parameters s0 = main0)); [| |exact Hi|exact H].
    + intros s0 s0' r0 Hi0 H0. now injection H0 as <- _.
    + intros ns s0 s0' r0 Hi0 H0.
      eapply (sm_keeps_for (fun s0 : cmp_state => main_parameters s0 = main0)); [|exact Hi0|exact H0].
      intros sp s1 s1' r1 Hi1 H1.
      rewrite reconcile_name_no_default in H1. injection H1 as <- _.
      destruct (str_mem sp req); [exact Hi1|].
      destruct (str_mem sp _); exact Hi1.
  - now injection H as <- _.
Qed.

Lemma reconcile_asset_frame mp mp0 required size k s s' r :
  main_parameters s = main0 ->
  reconcile_asset false mp mp0 required size k s = (s', r) ->
  main_parameters s' = main0.
Proof.
  unfold reconcile_asset. intros Hi H.
  eapply (sm_keeps_get (fun s0 : cmp_state => main_parameters s0 = main0)); [|exact Hi|exact H].
  intros s0 s0' r0 Hi0 H0.
  eapply (sm_keeps_bind (fun s0 : cmp_state => main_parameters s0 = main0)); [| |exact Hi0|exact H0].
  - intros s1 s1' r1. apply reconcile_sub_frame.
  - intros [] s1 s1' r1 Hi1 H1.
    eapply (sm_keeps_get (fun s0 : cmp_state => main_parameters s0 = main0)); [|exact Hi1|exact H1].
    intros s2 s2' r2 Hi2 H2. cbn beta in H2.
    destruct (group_of (main_parameters s2) mp0) as [[]|];
      try (now injection H2 as <- _).
    destruct (Nat.eqb _ size); now injection H2 as <- _.
Qed.

Lemma reconcile_group_frame mp required s s' r :
  main_parameters s = main0 -> reconcile_group false mp required s = (s', r) ->
  main_parameters s' = main0.
Proof.
  unfold reconcile_group. intros Hi H.
  eapply (sm_keeps_get (fun s0 : cmp_state => main_parameters s0 = main0)); [|exact Hi|exact H].
  clear Hi H s s' r. intros s s' r Hi. cbn beta.
  destruct (sub_params s) as [[mp0|names|mp0]|].
  - now apply reconcile_sub_frame.
  - now apply reconcile_sub_frame.
  - destruct (group_of (main_parameters s) mp0) as [v|];
      [|intros H; now injection H as <- _].
    destruct v as [ | | | | [|] | [|k0 l0] | g];
      try (intros H; now injection H as <- _).
    + cbv zeta. destruct required; unfold sm_lift;
        intros H; now injection H as <- _.
    + intros H. eapply (sm_keeps_for (fun s0 : cmp_state => main_parameters s0 = main0)); [|exact Hi|exact H].
      intros k s0 s0' r0. apply reconcile_asset_frame.
  - intros H. now injection H as <- _.
Qed.

Lemma select_sub_params_frame folder_path ext mp s s' r :
  main_parameters s = main0 -> select_sub_params folder_path ext mp s = (s', r) ->
  main_parameters s' = main0.
Proof.
  unfold select_sub_params. intros Hi H.
  eapply (sm_keeps_get (fun s0 : cmp_state => main_parameters s0 = main0)); [|exact Hi|exact H].
  clear Hi H s s' r. intros s s' r Hi. cbn beta.
  destruct (String.eqb ext JSON_EXT).
  - destruct (str_mem mp _).
    + destruct (group_of (main_parameters s) mp) as [[]|];
        intros H; now injection H as <- _.
    + destruct (str_mem mp _); [|intros H; now injection H as <- _].
      destruct (group_of (main_parameters s) mp);
        intros H; now injection H as <- _.
  - destruct (String.eqb ext CSV_EXT); [|intros H; now injection H as <- _].
    destruct folder_path as [d|p]; [intros H; now injection H as <- _|].
    unfold sm_bind, sm_lift.
    destruct (read_csv_first_column p mp) as [l [names|e|]];
      intros H; now injection H as <- _.
Qed.

Lemma compare_group_unchanged folder_path ext required_parameters mp s s' r :
  main_parameters s = main0 ->
  compare_group folder_path ext false required_parameters mp s = (s', r) ->
  main_parameters s' = main0.
Proof.
  unfold compare_group. destruct (dict_get required_parameters mp) as [req|];
    intros Hi H.
  - eapply (sm_keeps_bind (fun s0 : cmp_state => main_parameters s0 = main0)); [| |exact Hi|exact H].
    + intros s0 s0' r0. apply select_sub_params_frame.
    + intros [] s0 s0' r0. apply reconcile_group_frame.
  - eapply (sm_keeps_get (fun s0 : cmp_state => main_parameters s0 = main0)); [|exact Hi|exact H].
    intros s0 s0' r0 Hi0 H0. cbn beta in H0. now injection H0 as <- _.
Qed.

Lemma compare_loaded_unchanged folder_path ext flag_missing
    required_parameters main s s' r :
  main_parameters s = main0 ->
  compare_loaded folder_path ext flag_missing false required_parameters main s
  = (s', r) ->
  main_parameters s' = main0.
Proof.
  unfold compare_loaded. intros Hi H.
  eapply (sm_keeps_bind (fun s0 : cmp_state => main_parameters s0 = main0)); [| |exact Hi|exact H].
  - intros s0 s0' r0 Hi0 H0.
    eapply (sm_keeps_for (fun s0 : cmp_state => main_parameters s0 = main0)); [|exact Hi0|exact H0].
    intros mp s1 s1' r1. apply compare_group_unchanged.
  - intros [] s0 s0' r0 Hi0 H0.
    eapply (sm_keeps_get (fun s0 : cmp_state => main_parameters s0 = main0)); [|exact Hi0|exact H0].
    intros s1 s1' r1 Hi1 H1.
    eapply (sm_keeps_bind (fun s0 : cmp_state => main_parameters s0 = main0)); [| |exact Hi1|exact H1].
    + intros s2 s2' r2 Hi2 H2. destruct flag_missing; now injection H2 as <- _.
    + intros [] s2 s2' r2 Hi2 H2. now injection H2 as <- _.
Qed.

End Frame.

Section CompareProperties.
Context {F : PyFloat} {C : MvsConstants} {E : MvsFiles}.

(** X11. Without [set_default] the function leaves the dict of the caller
    as it is, however the call ends. *)
Theorem without_set_default_the_dict_is_kept folder_path ext flag_missing :
  fst (compare_input_parameters_with_reference folder_path ext flag_missing
         false) = folder_path.
Proof.
  unfold compare_input_parameters_with_reference.
  destruct (load_main_parameters folder_path ext) as [log [main| |]] eqn:Hload;
    [|reflexivity..].
  destruct (dict_get REQUIRED_MVS_PARAMETERS ext) as [required|];
    [|reflexivity].
  destruct main as [main|]; [|reflexivity].
  match goal with
  | |- context [compare_loaded ?a ?b ?c ?d ?e ?f ?s0] =>
      destruct (compare_loaded a b c d e f s0) as [s [log' r]] eqn:Hrun
  end.
  cbn [fst].
  apply (compare_loaded_unchanged main) in Hrun; [|reflexivity].
  rewrite Hrun. destruct folder_path as [d|p]; [|reflexivity].
  unfold load_main_parameters in Hload.
  destruct (String.eqb ext JSON_EXT).
  - now injection Hload as _ <-.
  - destruct (String.eqb ext CSV_EXT); discriminate.
Qed.

Lemma compare_loaded_eq folder_path ext flag_missing set_default
    required_parameters main s0 :
  compare_loaded folder_path ext flag_missing set_default required_parameters
                 main s0 =
  match sm_for (compare_group folder_path ext set_default required_parameters)
               (main_names main) s0 with
  | (s, (l1, Ok _)) =>
      (s, (l1,
           if flag_missing &&
              dict_has (build_answer required_parameters s)
                       MISSING_PARAMETERS_KEY
           then Raise MissingParameterError
           else Ok (build_answer required_parameters s)))
  | (s, (l1, Raise e)) => (s, (l1, Raise e))
  | (s, (l1, OutOfFuel)) => (s, (l1, OutOfFuel))
  end.
Proof.
  unfold compare_loaded, sm_bind at 1.
  destruct (sm_for _ (main_names main) s0) as [s [l1 [[]|e|]]];
    [|reflexivity..].
  unfold sm_bind, sm_get, sm_lift, sm_ret, warn_missing_parameters.
  destruct flag_missing; cbn; [|now rewrite app_nil_r].
  destruct (dict_has (build_answer required_parameters s)
                     MISSING_PARAMETERS_KEY);
    cbn; now rewrite app_nil_r.
Qed.

Lemma flag_missing_check folder_path ext set_default :
  compare_input_parameters_with_reference folder_path ext true set_default =
  match compare_input_parameters_with_reference folder_path ext false
          set_default with
  | (folder_path', (log, Ok answer)) =>
      (folder_path',
       (log, if dict_has answer MISSING_PARAMETERS_KEY
             then Raise MissingParameterError else Ok answer))
  | other => other
  end.
Proof.
  unfold compare_input_parameters_with_reference.
  destruct (load_main_parameters folder_path ext) as [log [main| |]];
    [|reflexivity..].
  destruct (dict_get REQUIRED_MVS_PARAMETERS ext) as [required|];
    [|reflexivity].
  destruct main as [main|]; [|reflexivity].
  rewrite !compare_loaded_eq.
  match goal with
  | |- context [sm_for ?b ?l ?s0] =>
      destruct (sm_for b l s0) as [s [l1 [[]|e|]]]
  end; reflexivity.
Qed.

(** X12. [flag_missing] adds the final check and nothing else. *)
Theorem flag_missing_only_adds_the_check folder_path ext set_default :
  compare_input_parameters_with_reference folder_path ext true set_default =
  match compare_input_parameters_with_reference folder_path ext false
          set_default with
  | (folder_path', (log, Ok answer)) =>
      (folder_path',
       (log, if dict_has answer MISSING_PARAMETERS_KEY
             then Raise MissingParameterError else Ok answer))
  | other => other
  end.
Proof. apply flag_missing_check. Qed.

Lemma compare_group_steps (Inv : cmp_state -> Prop) folder_path ext
    set_default required_parameters mp :
  (forall s r, Inv s -> Inv (with_sub s r)) ->
  (dict_get required_parameters mp = None ->
   forall s, Inv s -> Inv (with_extra s (dict_set (extra_parameters s) mp []))) ->
  (dict_get required_parameters mp <> None ->
   forall k req sp s s' log,
     Inv s -> reconcile_name set_default mp k req sp s = (s', (log, Ok tt)) ->
     Inv s') ->
  forall s s' log,
    Inv s ->
    compare_group folder_path ext set_default required_parameters mp s =
    (s', (log, Ok tt)) ->
    Inv s'.
Proof.
  intros Hsub Hextra Hname s s' log Hi Hrun. unfold compare_group in Hrun.
  destruct (dict_get required_parameters mp) as [required|].
  - apply sm_bind_inv_ok in Hrun.
    destruct Hrun as (s1 & l1 & [] & l2 & Hsel & Hrun & _).
    apply (reconcile_group_inv Inv set_default mp required
             (Hname ltac:(discriminate)) s1 s' l2);
      [|exact Hrun].
    clear Hrun. unfold select_sub_params in Hsel.
    apply sm_bind_inv_ok in Hsel.
    destruct Hsel as (s2 & l3 & s0 & l4 & Hget & Hsel & _).
    injection Hget as <- _ <-.
    destruct (String.eqb ext JSON_EXT).
    + destruct (str_mem mp _).
      * destruct (group_of (main_parameters s) mp) as [[]|];
          try discriminate.
        injection Hsel as <- _. now apply Hsub.
      * destruct (str_mem mp _); [|injection Hsel as <- _; exact Hi].
        destruct (group_of (main_parameters s) mp); [|discriminate].
        injection Hsel as <- _. now apply Hsub.
    + destruct (String.eqb ext CSV_EXT); [|injection Hsel as <- _; exact Hi].
      destruct folder_path; [discriminate|].
      apply sm_bind_inv_ok in Hsel.
      destruct Hsel as (s2 & l5 & names & l6 & Hread & Hsel & _).
      unfold sm_lift in Hread. injection Hread as <- _.
      injection Hsel as <- _. now apply Hsub.
  - apply sm_bind_inv_ok in Hrun.
    destruct Hrun as (s1 & l1 & s0 & l2 & Hget & Hrun & _).
    injection Hget as <- _ <-. injection Hrun as <- _. now apply Hextra.
Qed.

(** What one name can do to the state, when the step returns. *)
Lemma reconcile_name_cases set_default mp k req sp s s' log :
  reconcile_name set_default mp k req sp s = (s', (log, Ok tt)) ->
  (exists main',
     s' = with_main s main' /\
     (main' = main_parameters s \/
      exists d v v', main_parameters s = MainDict d /\
                     dict_get d mp = Some v /\
                     main' = MainDict (dict_set d mp v'))) \/
  s' = with_missing s (append_name (missing_parameters s) mp sp) \/
  s' = s \/
  s' = with_extra s (append_name (extra_parameters s) mp sp).
Proof.
  destruct set_default; intros H.
  - apply reconcile_name_default in H.
    destruct H as [(_ & ke & main' & _ & -> & Hcase)|[[_ ->]|[_ [->| ->]]]];
      auto.
    left. exists main'. split; [reflexivity|]. right.
    destruct Hcase as [(_ & d & g & Hm & Hg & ->)
                      |(_ & d & g & a & Hm & Hg & _ & ->)];
      now eexists d, (VDict g), _.
  - rewrite reconcile_name_no_default in H. injection H as <- _.
    destruct (str_mem sp req); [auto|]. destruct (str_mem sp _); auto.
Qed.

Lemma dict_keys_set_present {A : Type} (d : list (string * A)) k v v' :
  dict_get d k = Some v -> dict_keys (dict_set d k v') = dict_keys d.
Proof.
  unfold dict_keys. induction d as [|[k' w] d IH]; [discriminate|].
  cbn. destruct (String.eqb_spec k' k) as [->|Hne]; [reflexivity|].
  intros H. cbn. now rewrite IH.
Qed.

Lemma dict_get_nonempty {A : Type} (d : list (string * A)) k v :
  dict_get d k = Some v -> Nat.ltb 0 (List.length d) = true.
Proof. destruct d; [discriminate|reflexivity]. Qed.

Lemma append_name_other d mp mp' sp :
  mp' <> mp ->
  dict_get (append_name d mp' sp) mp = dict_get d mp.
Proof. intros Hne. unfold append_name. now apply dict_get_set_other. Qed.

(** The loop over the provided groups neither adds nor drops a group. *)
Lemma compare_groups_keep_names folder_path ext set_default
    required_parameters names l s s' log :
  main_names (main_parameters s) = names ->
  sm_for (compare_group folder_path ext set_default required_parameters)
         l s = (s', (log, Ok tt)) ->
  main_names (main_parameters s') = names.
Proof.
  intros Hi Hrun.
  apply (sm_for_inv (fun s => main_names (main_parameters s) = names)
           (compare_group folder_path ext set_default required_parameters) l)
    with (s := s) (log := log); [|exact Hi|exact Hrun].
  clear. intros mp s s' log _ Hi Hstep.
  apply (compare_group_steps
           (fun s => main_names (main_parameters s) = names)
           folder_path ext set_default required_parameters mp)
    with (s := s) (log := log); try assumption; try (intros; assumption).
  clear. intros _ k req sp s s' log Hi Hrun.
  apply reconcile_name_cases in Hrun.
  destruct Hrun as [(main' & -> & [->|(d & v & v' & Hm & Hv & ->)])
                   |[->|[->| ->]]]; try assumption.
  cbn [main_parameters with_main main_names].
  rewrite Hm in Hi. cbn [main_names] in Hi.
  now rewrite (dict_keys_set_present d mp v v' Hv).
Qed.

Lemma compare_call_inv folder_path ext flag_missing set_default
    required_parameters l0 main folder_path' log answer :
  dict_get REQUIRED_MVS_PARAMETERS ext = Some required_parameters ->
  load_main_parameters folder_path ext = (l0, Ok (Some main)) ->
  compare_input_parameters_with_reference folder_path ext flag_missing
    set_default = (folder_path', (log, Ok answer)) ->
  exists sf l1,
    sm_for (compare_group folder_path ext set_default required_parameters)
           (main_names main)
           {| main_parameters := main; extra_parameters := [];
              missing_parameters := []; sub_params := None |} =
    (sf, (l1, Ok tt)) /\
    answer = build_answer required_parameters sf.
Proof.
  intros Hreq Hload Hcall.
  unfold compare_input_parameters_with_reference in Hcall.
  rewrite Hload, Hreq in Hcall.
  match type of Hcall with
  | context [compare_loaded ?a ?b ?c ?e ?f ?m ?s0] =>
      destruct (compare_loaded a b c e f m s0) as [sf [log' r]] eqn:Hloaded
  end.
  assert (r = Ok answer) as -> by (now injection Hcall).
  apply compare_loaded_ok in Hloaded.
  destruct Hloaded as [[l1 Hloop] Hans]. now exists sf, l1.
Qed.

(** X13. A group that is provided and not required is returned under the
    extra parameters, with an empty list of names. *)
Theorem unrequired_group_is_reported_extra folder_path ext flag_missing
    set_default required_parameters l0 main mp folder_path' log answer :
  dict_get REQUIRED_MVS_PARAMETERS ext = Some required_parameters ->
  load_main_parameters folder_path ext = (l0, Ok (Some main)) ->
  In mp (main_names main) ->
  dict_get required_parameters mp = None ->
  compare_input_parameters_with_reference folder_path ext flag_missing
    set_default = (folder_path', (log, Ok answer)) ->
  exists extra,
    dict_get answer EXTRA_PARAMETERS_KEY = Some extra /\
    dict_get extra mp = Some (Some []).
Proof.
  intros Hreq Hload Hin Hmp Hcall.
  destruct (compare_call_inv _ _ _ _ _ _ _ _ _ _ Hreq Hload Hcall)
    as (sf & l1 & Hloop & ->).
  assert (Hj : dict_get (extra_parameters sf) mp = Some []).
  { apply (sm_for_reach
             (fun _ => True)
             (fun s => dict_get (extra_parameters s) mp = Some [])
             (compare_group folder_path ext set_default required_parameters)
             mp (main_names main))
      with (s := {| main_parameters := main; extra_parameters := [];
                    missing_parameters := []; sub_params := None |})
           (log := l1); try assumption; auto.
    - intros s s' log0 _ Hstep. unfold compare_group in Hstep.
      rewrite Hmp in Hstep. unfold sm_bind, sm_get, sm_put in Hstep.
      cbn in Hstep. injection Hstep as <- _.
      cbn [extra_parameters with_extra]. apply dict_get_set_same.
    - intros mp' s s' log0 _ Hi Hstep.
      apply (compare_group_steps
               (fun s => dict_get (extra_parameters s) mp = Some [])
               folder_path ext set_default required_parameters mp')
        with (s := s) (log := log0); try assumption;
        try (intros; assumption).
      + intros _ s0 Hi0. cbn [extra_parameters with_extra].
        destruct (String.eqb_spec mp' mp) as [->|Hne].
        * apply dict_get_set_same.
        * now rewrite dict_get_set_other.
      + intros Hsome k req sp s0 s0' log1 Hi0 Hrun.
        assert (Hne : mp' <> mp) by congruence.
        apply reconcile_name_cases in Hrun.
        destruct Hrun as [(main' & -> & _)|[->|[->| ->]]]; try assumption.
        cbn [extra_parameters with_extra].
        now rewrite append_name_other.
    - intros a. destruct (string_dec a mp); auto. }
  unfold build_answer.
  set (extra := map (fun kv => (fst kv, Some (snd kv))) (extra_parameters sf)).
  assert (Hextra : dict_get extra mp = Some (Some [])).
  { unfold extra. now rewrite dict_get_map_some, Hj. }
  rewrite (dict_get_nonempty _ _ _ Hextra).
  exists extra. split; [apply dict_get_set_same|exact Hextra].
Qed.

Lemma missing_groups_other required_parameters main acc mp :
  ~ In mp (dict_keys required_parameters) ->
  dict_get (missing_groups required_parameters main acc) mp = dict_get acc mp.
Proof.
  unfold missing_groups, dict_keys. revert acc.
  induction required_parameters as [|[k v] l IH]; intros acc Hnot;
    [reflexivity|].
  cbn [fold_left fst snd]. cbn in Hnot. rewrite IH by tauto.
  destruct (negb _); [|reflexivity].
  apply dict_get_set_other. tauto.
Qed.

Lemma missing_groups_adds required_parameters main acc mp req :
  NoDup (dict_keys required_parameters) ->
  dict_get required_parameters mp = Some req ->
  ~ In mp (main_names main) ->
  dict_get (missing_groups required_parameters main acc) mp = Some req.
Proof.
  unfold dict_keys. revert acc.
  induction required_parameters as [|[k v] l IH]; intros acc Hnd Hget Hnot;
    [discriminate|].
  cbn in Hnd. inversion Hnd as [|? ? Hk Hnd']; subst.
  cbn in Hget. destruct (String.eqb_spec k mp) as [->|Hne].
  - injection Hget as ->.
    change (missing_groups ((mp, req) :: l) main acc)
      with (missing_groups l main
              (if negb (str_mem mp (main_names main))
               then dict_set acc mp req else acc)).
    rewrite missing_groups_other by exact Hk.
    apply str_mem_false in Hnot. rewrite Hnot. apply dict_get_set_same.
  - now apply IH.
Qed.

Lemma build_answer_missing required_parameters s mp req :
  MISSING_PARAMETERS_KEY <> EXTRA_PARAMETERS_KEY ->
  dict_get (missing_groups required_parameters (main_parameters s)
              (map (fun kv => (fst kv, Some (snd kv)))
                   (missing_parameters s))) mp = Some req ->
  dict_get (build_answer required_parameters s) MISSING_PARAMETERS_KEY =
  Some (missing_groups required_parameters (main_parameters s)
          (map (fun kv => (fst kv, Some (snd kv))) (missing_parameters s))).
Proof.
  intros Hkeys Hmp. unfold build_answer.
  rewrite (dict_get_nonempty _ _ _ Hmp). cbv beta iota zeta.
  destruct (Nat.ltb 0 _).
  - rewrite dict_get_set_other by congruence. apply dict_get_set_same.
  - apply dict_get_set_same.
Qed.

(** X14. A group that is required and not provided is returned under the
    missing parameters, with everything that is required of it. *)
Theorem absent_group_is_reported_missing folder_path ext flag_missing
    set_default required_parameters l0 main mp req folder_path' log answer :
  dict_get REQUIRED_MVS_PARAMETERS ext = Some required_parameters ->
  NoDup (dict_keys required_parameters) ->
  MISSING_PARAMETERS_KEY <> EXTRA_PARAMETERS_KEY ->
  load_main_parameters folder_path ext = (l0, Ok (Some main)) ->
  ~ In mp (main_names main) ->
  dict_get required_parameters mp = Some req ->
  compare_input_parameters_with_reference folder_path ext flag_missing
    set_default = (folder_path', (log, Ok answer)) ->
  flag_missing = false /\
  exists missing,
    dict_get answer MISSING_PARAMETERS_KEY = Some missing /\
    dict_get missing mp = Some req.
Proof.
  intros Hreq Hnd Hkeys Hload Hnot Hmp Hcall.
  destruct (compare_call_inv _ _ _ _ _ _ _ _ _ _ Hreq Hload Hcall)
    as (sf & l1 & Hloop & Hans).
  apply compare_groups_keep_names with (names := main_names main) in Hloop;
    [|reflexivity].
  assert (Hmissing :
            dict_get (missing_groups required_parameters (main_parameters sf)
                        (map (fun kv => (fst kv, Some (snd kv)))
                             (missing_parameters sf))) mp = Some req).
  { apply missing_groups_adds; try assumption. now rewrite Hloop. }
  pose proof (build_answer_missing _ _ _ _ Hkeys Hmissing) as Hanswer.
  rewrite <- Hans in Hanswer.
  split; [|eexists; split; [exact Hanswer|exact Hmissing]].
  destruct flag_missing; [|reflexivity].
  rewrite flag_missing_check in Hcall.
  exfalso. revert Hcall.
  destruct (compare_input_parameters_with_reference folder_path ext false
              set_default) as [fp2 [log2 [ans2| |]]] eqn:Hplain;
    try discriminate.
  destruct (compare_call_inv _ _ _ _ _ _ _ _ _ _ Hreq Hload Hplain)
    as (sf2 & l2 & Hloop2 & Hans2).
  apply compare_groups_keep_names with (names := main_names main) in Hloop2;
    [|reflexivity].
  assert (Hhas : dict_has ans2 MISSING_PARAMETERS_KEY = true).
  { subst ans2. unfold dict_has.
    rewrite (build_answer_missing _ _ mp req Hkeys); [reflexivity|].
    apply missing_groups_adds; try assumption. now rewrite Hloop2. }
  rewrite Hhas. discriminate.
Qed.

End CompareProperties.

(** *** Closed instances *)

Lemma unrequired_group_is_reported_extra_witness :
  exists folder_path' log answer extra,
    @compare_input_parameters_with_reference nan_only example_mvs_constants
       no_files (FolderDict config_with_listed_asset) "json" false false =
    (folder_path', (log, Ok answer)) /\
    dict_get answer "extra_parameters" = Some extra /\
    dict_get extra "weather" = Some (Some []).
Proof.
  eexists. eexists. eexists.
  destruct (@unrequired_group_is_reported_extra nan_only
              example_mvs_constants no_files
              (FolderDict config_with_listed_asset) "json" false false
              [("simulation_settings",
                Some ["evaluated_period"; "timestep"; "output_lp_file"]);
               ("energyProduction",
                Some ["label"; "installedCap"; "maximumCap"])]
              [] (MainDict config_with_listed_asset) "weather"
              _ _ _
              eq_refl eq_refl (or_introl eq_refl) eq_refl
              ltac:(vm_compute; reflexivity))
    as (extra & Hextra & Hmp).
  exists extra. split; [reflexivity|]. split; assumption.
Defined.

Lemma absent_group_is_reported_missing_witness :
  exists folder_path' log answer missing,
    @compare_input_parameters_with_reference nan_only example_mvs_constants
       no_files (FolderDict config_with_listed_asset) "json" false false =
    (folder_path', (log, Ok answer)) /\
    dict_get answer "missing_parameters" = Some missing /\
    dict_get missing "simulation_settings" =
    Some (Some ["evaluated_period"; "timestep"; "output_lp_file"]).
Proof.
  eexists. eexists. eexists.
  assert (Hnodup : NoDup ["simulation_settings"; "energyProduction"]).
  { repeat constructor; simpl; intuition discriminate. }
  destruct (@absent_group_is_reported_missing nan_only
              example_mvs_constants no_files
              (FolderDict config_with_listed_asset) "json" false false
              [("simulation_settings",
                Some ["evaluated_period"; "timestep"; "output_lp_file"]);
               ("energyProduction",
                Some ["label"; "installedCap"; "maximumCap"])]
              [] (MainDict config_with_listed_asset) "simulation_settings"
              (Some ["evaluated_period"; "timestep"; "output_lp_file"])
              _ _ _
              eq_refl Hnodup ltac:(discriminate) eq_refl
              ltac:(simpl; intuition discriminate) eq_refl
              ltac:(vm_compute; reflexivity))
    as (_ & missing & Hmissing & Hmp).
  exists missing. split; [reflexivity|]. split; assumption.
Defined.

(** ** Default filling, whatever [flag_missing] is *)

Section DefaultClaim.
Context {F : PyFloat} {C : MvsConstants} {E : MvsFiles}.


End DefaultClaim.



(* ================================================================= *)
(** ** More on [create_json_from_csv] and [create_input_json] *)

Section SeparatorProperties.
Context {F : PyFloat} {J : PyJson} {K : CsvConstants}.

Lemma find_separator_none (fs : filesystem) filename separators :
  (forall sep, In sep separators ->
     exists df, pd_read_csv fs (filename ++ ".csv")%string sep = ret df /\
                df_columns df = []) ->
  find_separator fs filename separators = ([], Raise ValueError).
Proof.
  induction separators as [|sep rest IH]; intros Hall; [reflexivity|].
  cbn [find_separator].
  destruct (Hall sep (or_introl eq_refl)) as (df & -> & Hcols).
  rewrite bind_ret_l, Hcols. cbn [List.length Nat.ltb Nat.leb].
  apply IH. intros s Hs. apply Hall. now right.
Qed.

(** X15. A file that no separator of [CSV_SEPARATORS] splits into columns
    is refused with [ValueError], and the list of parameters is not
    touched. *)
Theorem unparsable_table_is_refused fuel (fs : filesystem) filename
    parameters storage :
  (forall sep, In sep CSV_SEPARATORS ->
     exists df, pd_read_csv fs (filename ++ ".csv")%string sep = ret df /\
                df_columns df = []) ->
  create_json_from_csv (S fuel) fs filename parameters storage =
  (parameters, ([Log DEBUG (MsgLoadingCsv filename)], Raise ValueError)).
Proof.
  intros Hall. cbn [create_json_from_csv]. unfold create_json_from_csv_body.
  rewrite bind_logging, (find_separator_none fs filename _ Hall).
  reflexivity.
Qed.

(** X16. The first separator that gives at least one column is the one
    that is used; the separators after it are not tried. *)
Theorem first_working_separator_is_used (fs : filesystem) filename
    before sep after df :
  (forall s, In s before ->
     exists df0, pd_read_csv fs (filename ++ ".csv")%string s = ret df0 /\
                 df_columns df0 = []) ->
  pd_read_csv fs (filename ++ ".csv")%string sep = ret df ->
  df_columns df <> [] ->
  find_separator fs filename (before ++ sep :: after) = ret df.
Proof.
  intros Hbefore Hsep Hcols.
  induction before as [|s rest IH]; cbn [app find_separator].
  - rewrite Hsep, bind_ret_l.
    destruct (df_columns df); [congruence|reflexivity].
  - destruct (Hbefore s (or_introl eq_refl)) as (df0 & -> & Hnone).
    rewrite bind_ret_l, Hnone. cbn [List.length Nat.ltb Nat.leb].
    apply IH. intros s' Hs'. apply Hbefore. now right.
Qed.

End SeparatorProperties.

Lemma dict_keys_set_iff {A : Type} (d : list (string * A)) k v c :
  In c (dict_keys (dict_set d k v)) <-> c = k \/ In c (dict_keys d).
Proof.
  unfold dict_keys. induction d as [|[k' w] d IH]; cbn.
  - intuition.
  - destruct (String.eqb_spec k' k) as [->|Hne]; cbn.
    + intuition.
    + rewrite IH. intuition.
Qed.

Section ShapeProperties.
Context {F : PyFloat} {J : PyJson} {K : CsvConstants}.

Lemma convert_column_keys add_storage filename parameters storage st column
    log st' :
  convert_column add_storage filename parameters storage st column =
  (log, Ok st') ->
  forall c,
    In c (dict_keys (single_dict st')) <->
    In c (dict_keys (single_dict st)) \/ (c = column /\ column <> "unit").
Proof.
  unfold convert_column. intros H c.
  destruct (String.eqb_spec column "unit") as [->|Hne]; cbn [negb] in H.
  - injection H as _ <-. intuition.
  - apply bind_inv_ok in H.
    destruct H as (l1 & [[extra1 copy1] df1] & l2 & _ & H & _).
    apply bind_inv_ok in H.
    destruct H as (l3 & [cd names] & l4 & _ & H & _).
    apply bind_inv_ok in H.
    destruct H as (l5 & sd & l6 & Hsd & H & _).
    injection H as _ <-. cbn [single_dict].
    assert (Hkeys : In c (dict_keys sd) <->
                    c = column \/ In c (dict_keys (single_dict st))).
    { destruct (String.eqb filename "energyStorage").
      - apply bind_inv_ok in Hsd.
        destruct Hsd as (l7 & name & l8 & _ & Hsd & _).
        apply bind_inv_ok in Hsd.
        destruct Hsd as (l9 & [stored|] & l10 & _ & Hsd & _);
          [|discriminate].
        injection Hsd as _ <-. rewrite !dict_keys_set_iff. tauto.
      - injection Hsd as _ <-. apply dict_keys_set_iff. }
    rewrite Hkeys. intuition.
Qed.

Lemma convert_columns_keys add_storage filename parameters storage l :
  forall st log st',
    for_each (convert_column add_storage filename parameters storage) l st =
    (log, Ok st') ->
    forall c,
      In c (dict_keys (single_dict st')) <->
      In c (dict_keys (single_dict st)) \/ (In c l /\ c <> "unit").
Proof.
  induction l as [|column l IH]; intros st log st' H c.
  - injection H as _ <-. cbn. tauto.
  - cbn [for_each] in H. apply bind_inv_ok in H.
    destruct H as (l1 & st1 & l2 & Hcol & Hrest & _).
    rewrite (IH _ _ _ Hrest c), (convert_column_keys _ _ _ _ _ _ _ _ Hcol c).
    cbn [In]. split.
    + intros [[H|[-> H]]|[H1 H2]]; auto.
    + intros [H|[[<-|H1] H2]]; auto.
Qed.

(** X17. Every column of the table other than [unit] becomes an entry of
    the record, and nothing else does; the record is returned under the
    name of the file, except for the three files of settings and for a
    storage table, whose record is returned as it is. *)
Theorem every_column_becomes_an_entry fuel (fs : filesystem) filename
    parameters storage log d :
  snd (create_json_from_csv fuel fs filename parameters storage) =
  (log, Ok d) ->
  exists log0 df single_dict,
    find_separator fs filename CSV_SEPARATORS = (log0, Ok df) /\
    (forall c, In c (dict_keys single_dict) <->
               In c (df_columns df) /\ c <> "unit") /\
    d = if str_mem filename
             ["economic_data"; "project_data"; "simulation_settings"]
           || storage
        then single_dict
        else [(filename, VDict single_dict)].
Proof.
  destruct fuel as [|fuel]; [discriminate|].
  cbn [create_json_from_csv]. unfold create_json_from_csv_body.
  rewrite bind_logging.
  destruct (find_separator fs filename CSV_SEPARATORS) as [log0 [df| |]];
    cbn [fst snd]; try discriminate.
  intros H.
  apply bind_inv_ok in H. destruct H as (l1 & [] & l2 & _ & H & _).
  apply bind_inv_ok in H. destruct H as (l3 & [] & l4 & _ & H & _).
  apply bind_inv_ok in H. destruct H as (l5 & [] & l6 & _ & H & _).
  unfold convert_table in H.
  apply bind_inv_ok in H. destruct H as (l7 & [] & l8 & _ & H & _).
  apply bind_inv_ok in H. destruct H as (l9 & st & l10 & Hcols & H & _).
  apply bind_inv_ok in H. destruct H as (l11 & [] & l12 & _ & H & _).
  exists log0, df, (single_dict st). split; [reflexivity|]. split.
  - intros c. rewrite (convert_columns_keys _ _ _ _ _ _ _ _ Hcols c).
    cbn [single_dict dict_keys map In]. tauto.
  - destruct (str_mem filename _); cbn [orb].
    + now injection H as _ <-.
    + destruct storage; now injection H as _ <-.
Qed.

End ShapeProperties.

Section RequiredFiles.
Context {F : PyFloat} {J : PyJson} {K : CsvConstants}.

Lemma check_required_files_log list_assets :
  check_required_files list_assets =
  (flat_map (fun i => if str_mem i REQUIRED_CSV_FILES
                      then [Log ERROR (MsgRequiredFileMissing i)]
                      else if str_contains "storage_" i then []
                           else [Log DEBUG (MsgUnknownFilename i)])
            (set_xor (py_set list_assets) (py_set REQUIRED_CSV_FILES)),
   Ok tt).
Proof.
  unfold check_required_files.
  induction (set_xor (py_set list_assets) (py_set REQUIRED_CSV_FILES))
    as [|a l IH]; [reflexivity|].
  cbn [for_each flat_map]. destruct (str_mem a REQUIRED_CSV_FILES).
  - now rewrite bind_logging, IH.
  - destruct (str_contains "storage_" a).
    + now rewrite bind_ret_l, IH.
    + now rewrite bind_logging, IH.
Qed.

(** The names that the loop over the directory collects are names of
    its files, without their last four characters. *)
Lemma read_all_csv_assets fuel (fs : filesystem) files :
  forall required input_json list_assets required' log input_json'
         list_assets',
    read_all_csv fuel fs files required input_json list_assets =
    (required', (log, Ok (input_json', list_assets'))) ->
    forall x, In x list_assets' ->
      In x list_assets \/ exists f, In f files /\ drop_last 4 f = x.
Proof.
  induction files as [|f rest IH];
    intros required input_json list_assets required' log input_json'
           list_assets' H x Hx.
  - injection H as _ _ _ <-. now left.
  - cbn [read_all_csv] in H.
    assert (Hstep : forall la,
              (In x la \/ exists f0, In f0 rest /\ drop_last 4 f0 = x) ->
              (forall y, In y la -> In y list_assets \/ y = drop_last 4 f) ->
              In x list_assets \/
              exists f0, In f0 (f :: rest) /\ drop_last 4 f0 = x).
    { intros la [Hin|(f0 & Hf0 & Heq)] Hla.
      - destruct (Hla x Hin) as [H1|H1]; [now left|].
        right. exists f. split; [now left|congruence].
      - right. exists f0. split; [now right|assumption]. }
    destruct (str_mem (drop_last 4 f) REQUIRED_CSV_FILES).
    + destruct (dict_get required (drop_last 4 f)) as [parameters|];
        [|discriminate].
      destruct (create_json_from_csv fuel fs (drop_last 4 f) parameters false)
        as [parameters' [l1 [single|e|]]]; try discriminate.
      destruct (read_all_csv fuel fs rest _ _ _)
        as [required1 m'] eqn:Hrest.
      injection H as _ H. unfold bind in H.
      destruct m' as [l2 [[ij la]| |]]; try discriminate.
      injection H as _ <- <-.
      apply (Hstep (list_assets ++ [drop_last 4 f])).
      * exact (IH _ _ _ _ _ _ _ Hrest x Hx).
      * intros y Hy. apply in_app_iff in Hy.
        destruct Hy as [Hy|[<-|[]]]; auto.
    + destruct (str_contains "storage_" (drop_last 4 f)).
      * apply (Hstep (list_assets ++ [drop_last 4 f])).
        -- exact (IH _ _ _ _ _ _ _ H x Hx).
        -- intros y Hy. apply in_app_iff in Hy.
           destruct Hy as [Hy|[<-|[]]]; auto.
      * destruct (read_all_csv fuel fs rest _ _ _)
          as [required1 m'] eqn:Hrest.
        injection H as _ H. unfold bind, logging in H.
        destruct m' as [l2 [[ij la]| |]]; try discriminate.
        injection H as _ <- <-.
        apply (Hstep list_assets).
        -- exact (IH _ _ _ _ _ _ _ Hrest x Hx).
        -- auto.
Qed.

(** X18. A required file that is not in the directory is reported by an
    error in the log; the conversion goes on and the artifact is
    written. *)
Theorem missing_required_file_is_logged fuel (fs : filesystem) required
    pass_back fs' required' log r name :
  create_input_json fuel fs required pass_back =
  (fs', required', (log, Ok r)) ->
  In name REQUIRED_CSV_FILES ->
  (forall f, In f (dict_keys fs) -> drop_last 4 f <> name) ->
  In (Log ERROR (MsgRequiredFileMissing name)) log /\
  exists tree, dict_get fs' CSV_FNAME = Some (FileJson tree).
Proof.
  unfold create_input_json. intros H Hreq Hnone.
  destruct (path_exists fs CSV_FNAME); [discriminate|].
  destruct (read_all_csv fuel fs (dict_keys fs) required [] [])
    as [required1 m] eqn:Hread.
  rewrite bind_logging in H.
  destruct m as [l1 [[input_json list_assets]| |]]; try discriminate.
  rewrite bind_ok in H. cbn beta iota in H.
  rewrite check_required_files_log, bind_ok in H. cbn [fst snd ret] in H.
  rewrite bind_ok in H. cbn [fst snd] in H.
  injection H as <- _ <- _. split.
  - right. apply in_or_app. left. apply in_or_app. right.
    apply in_or_app. left. apply in_flat_map. exists name. split.
    + apply in_set_xor. right. split; [exact Hreq|].
      intros Hin.
      destruct (read_all_csv_assets _ _ _ _ _ _ _ _ _ _ Hread name Hin)
        as [[]|(f & Hf & Heq)].
      exact (Hnone f Hf Heq).
    + apply str_mem_In in Hreq. rewrite Hreq. now left.
  - eexists. apply dict_get_set_same.
Qed.

End RequiredFiles.

Section ListProperties.
Context {F : PyFloat} {J : PyJson}.

Lemma char_in_remove_char c d s :
  char_in d s = false -> char_in d (remove_char c s) = false.
Proof.
  induction s as [|a r IH]; [reflexivity|].
  cbn [char_in remove_char]. intros H. apply orb_false_iff in H.
  destruct H as [Ha Hr]. destruct (Ascii.eqb a c); [now apply IH|].
  cbn [char_in]. now rewrite Ha, IH.
Qed.

(** The pieces of a bracketed text that holds no brace hold none. *)
Lemma list_items_without_braces s :
  char_in "{" s = false -> char_in "}" s = false ->
  Forall (fun item => char_in "{" item = false /\ char_in "}" item = false)
         (split_on ";" (remove_char "]" (remove_char "[" s))).
Proof.
  intros Hl Hr. apply Forall_forall. intros item Hin. split.
  - apply (proj1 (Forall_forall _ _)
             (split_on_keeps_out ";" "{" _
                (char_in_remove_char _ _ _ (char_in_remove_char _ _ _ Hl)))
             item Hin).
  - apply (proj1 (Forall_forall _ _)
             (split_on_keeps_out ";" "}" _
                (char_in_remove_char _ _ _ (char_in_remove_char _ _ _ Hr)))
             item Hin).
Qed.

Lemma convert_text_items filename row i column items :
  series_get row "unit" = ret (CellStr "str") ->
  Forall (fun item => char_in "{" item = false /\ char_in "}" item = false)
         items ->
  forall d acc,
    exists d',
      for_each (convert_list_item filename row i column) items (d, acc) =
      ret (d', acc ++ map VStr items) /\
      forall v, dict_set d' i v = dict_set d i v.
Proof.
  intros Hunit Hitems. induction Hitems as [|item items [Hl Hr] _ IH];
    intros d acc.
  - exists d. cbn. now rewrite app_nil_r.
  - cbn [for_each convert_list_item].
    assert (Hconv : conversion filename d row i column (CellStr item) =
                    ret (dict_set d i (VStr item))).
    { unfold conversion. cbn [str_with_either]. rewrite Hl, Hr. cbn [orb].
      rewrite Hunit, bind_ret_l. reflexivity. }
    rewrite Hconv, bind_ret_l, Hunit, bind_ret_l.
    cbn [cell_eq_str String.eqb Ascii.eqb Bool.eqb negb].
    rewrite dict_get_set_same. cbn [lift]. rewrite !bind_ret_l.
    destruct (IH (dict_set d i (VStr item)) (acc ++ [VStr item]))
      as (d' & Hrun & Hset).
    exists d'. rewrite Hrun. split.
    + cbn [map]. now rewrite <- app_assoc.
    + intros v. now rewrite Hset, dict_set_set.
Qed.

(** X19. Under the unit ["str"] a bracketed cell becomes the plain list of
    its pieces, whatever they are. *)
Theorem text_list_is_split_into_its_pieces filename column column_dict
    names i row s :
  series_get row column = ret (CellStr s) ->
  series_get row "unit" = ret (CellStr "str") ->
  char_in "[" s = true -> char_in "]" s = true ->
  char_in "{" s = false -> char_in "}" s = false ->
  convert_row filename column (column_dict, names) (i, row) =
  ([Log INFO (MsgDefinedAsList i column)],
   Ok (dict_set column_dict i
         (VList (map VStr
                   (split_on ";" (remove_char "]" (remove_char "[" s))))),
       if String.eqb i "label" then (names ++ s ++ ", ")%string else names)).
Proof.
  intros Hcell Hunit Hopen Hclose Hl Hr.
  rewrite (convert_row_label _ _ _ _ _ _ _ Hcell), Hopen, Hclose.
  cbn [orb negb].
  destruct (convert_text_items filename row i column _ Hunit
              (list_items_without_braces s Hl Hr) column_dict [])
    as (d' & -> & Hset).
  rewrite bind_ret_l, Hunit, bind_ret_l.
  cbn [cell_eq_str String.eqb Ascii.eqb Bool.eqb negb app].
  rewrite Hset. reflexivity.
Qed.

Lemma convert_integer_items filename row i column u items zs :
  series_get row "unit" = ret (CellStr u) ->
  u <> "str" -> u <> "bool" ->
  Forall (fun item => char_in "{" item = false /\ char_in "}" item = false)
         items ->
  Forall2 (fun item z => int_of_str item = Some z) items zs ->
  forall d acc,
    exists d',
      for_each (convert_list_item filename row i column) items (d, acc) =
      ret (d', acc ++ map VInt zs) /\
      forall v, dict_set d' i v = dict_set d i v.
Proof.
  intros Hunit Hstr Hbool Hitems Hints. revert Hitems.
  induction Hints as [|item z items zs Hz _ IH]; intros Hitems d acc.
  - exists d. cbn. now rewrite app_nil_r.
  - inversion Hitems as [|? ? [Hl Hr] Hrest]; subst.
    cbn [for_each convert_list_item].
    assert (Hnone : item <> "None").
    { intros ->. discriminate Hz. }
    rewrite (conversion_int filename d row i column item u z
               Hunit Hstr Hbool Hl Hr Hnone Hz).
    rewrite bind_ret_l, Hunit, bind_ret_l.
    destruct (String.eqb_spec u "str") as [|_]; [contradiction|].
    cbn [cell_eq_str negb].
    destruct (String.eqb_spec u "str") as [|_]; [contradiction|].
    cbn [negb].
    rewrite dict_get_set_same. cbn [lift]. rewrite bind_ret_l.
    unfold value_unit at 1. cbn [py_contains dict_has dict_get String.eqb
                                 Ascii.eqb Bool.eqb].
    rewrite bind_ret_l.
    unfold value_unit at 1.
    cbn [py_getitem dict_get String.eqb Ascii.eqb Bool.eqb lift].
    rewrite !bind_ret_l.
    destruct (IH Hrest
                (dict_set d i (value_unit (VInt z) (VStr u)))
                (acc ++ [VInt z]))
      as (d' & Hrun & Hset).
    exists d'. rewrite Hrun. split.
    + cbn [map]. now rewrite <- app_assoc.
    + intros v. now rewrite Hset, dict_set_set.
Qed.

(** X20. A bracketed cell whose pieces are integer literals becomes one
    node that holds the list of the integers and the unit of the row,
    however many pieces there are. *)
Theorem list_of_integers_is_converted filename column column_dict names i
    row s u zs :
  series_get row column = ret (CellStr s) ->
  series_get row "unit" = ret (CellStr u) ->
  u <> "str" -> u <> "bool" ->
  char_in "[" s = true -> char_in "]" s = true ->
  char_in "{" s = false -> char_in "}" s = false ->
  Forall2 (fun item z => int_of_str item = Some z)
          (split_on ";" (remove_char "]" (remove_char "[" s))) zs ->
  convert_row filename column (column_dict, names) (i, row) =
  ([Log INFO (MsgDefinedAsList i column)],
   Ok (dict_set column_dict i (value_unit (VList (map VInt zs)) (VStr u)),
       if String.eqb i "label" then (names ++ s ++ ", ")%string else names)).
Proof.
  intros Hcell Hunit Hstr Hbool Hopen Hclose Hl Hr Hints.
  rewrite (convert_row_label _ _ _ _ _ _ _ Hcell), Hopen, Hclose.
  cbn [orb negb].
  destruct (convert_integer_items filename row i column u _ zs Hunit Hstr
              Hbool (list_items_without_braces s Hl Hr) Hints column_dict [])
    as (d' & -> & Hset).
  rewrite bind_ret_l, Hunit, bind_ret_l.
  destruct (String.eqb_spec u "str") as [|_]; [contradiction|].
  cbn [cell_eq_str negb app value_of_cell].
  destruct (String.eqb_spec u "str") as [|_]; [contradiction|].
  cbn [negb]. rewrite Hset. reflexivity.
Qed.

End ListProperties.

(** *** Closed instances *)

Lemma unparsable_table_is_refused_witness :
  @create_json_from_csv nan_only no_json example_constants 1
     [("project_data.csv", unparsable)] "project_data" ["unit"; "label"]
     false =
  (["unit"; "label"],
   ([Log DEBUG (MsgLoadingCsv "project_data")], Raise ValueError)).
Proof.
  apply (@unparsable_table_is_refused nan_only no_json example_constants 0
           [("project_data.csv", unparsable)] "project_data"
           ["unit"; "label"] false).
  intros sep _. eexists. split; reflexivity.
Defined.

Lemma first_working_separator_is_used_witness :
  @find_separator nan_only
     [("energyConversion.csv", semicolon_separated conversion_table)]
     "energyConversion" ([","] ++ ";" :: ["&"]) =
  ret conversion_table.
Proof.
  apply (@first_working_separator_is_used nan_only
           [("energyConversion.csv", semicolon_separated conversion_table)]
           "energyConversion" [","] ";" ["&"] conversion_table).
  - intros s [<-|[]]. eexists. split; reflexivity.
  - reflexivity.
  - discriminate.
Defined.

Lemma every_column_becomes_an_entry_witness :
  exists log d log0 df single_dict,
    snd (@create_json_from_csv nan_only no_json example_constants 1
           directory "energyConversion" conversion_parameters false) =
    (log, Ok d) /\
    @find_separator nan_only directory "energyConversion"
      [","; ";"; "&"] = (log0, Ok df) /\
    (forall c, In c (dict_keys single_dict) <->
               In c (df_columns df) /\ c <> "unit") /\
    d = [("energyConversion", VDict single_dict)].
Proof.
  eexists. eexists.
  destruct (@every_column_becomes_an_entry nan_only no_json example_constants
              1 directory "energyConversion" conversion_parameters false
              _ _ ltac:(vm_compute; reflexivity))
    as (log0 & df & single_dict & Hsep & Hkeys & Hd).
  exists log0, df, single_dict.
  split; [vm_compute; reflexivity|].
  split; [exact Hsep|]. split; [exact Hkeys|exact Hd].
Defined.

Lemma missing_required_file_is_logged_witness :
  exists fs' required' log r,
    @create_input_json nan_only no_json example_constants 1
       [("energyConversion.csv", comma_separated conversion_table)]
       example_required false = (fs', required', (log, Ok r)) /\
    In (Log ERROR (MsgRequiredFileMissing "energyStorage")) log /\
    exists tree, dict_get fs' "mvs_csv_config.json" = Some (FileJson tree).
Proof.
  eexists. eexists. eexists. eexists.
  split; [vm_compute; reflexivity|].
  apply (@missing_required_file_is_logged nan_only no_json example_constants
           1 [("energyConversion.csv", comma_separated conversion_table)]
           example_required false _ _ _ _ "energyStorage"
           ltac:(vm_compute; reflexivity)).
  - right. left. reflexivity.
  - intros f [<-|[]]. vm_compute. discriminate.
Defined.

Lemma text_list_is_split_into_its_pieces_witness :
  @convert_row nan_only no_json "energyProduction" "pv" ([], "")
     ("technologies",
      {| s_index := ["unit"; "pv"];
         s_data := [("unit", CellStr "str"); ("pv", CellStr "[mono;4.5]")] |}) =
  ([Log INFO (MsgDefinedAsList "technologies" "pv")],
   Ok ([("technologies", VList [VStr "mono"; VStr "4.5"])], "")).
Proof.
  apply (@text_list_is_split_into_its_pieces nan_only no_json
           "energyProduction" "pv" [] "" "technologies"
           {| s_index := ["unit"; "pv"];
              s_data := [("unit", CellStr "str");
                         ("pv", CellStr "[mono;4.5]")] |}
           "[mono;4.5]"); reflexivity.
Defined.

Lemma list_of_integers_is_converted_witness :
  @convert_row nan_only no_json "energyConversion" "transformer" ([], "")
     ("efficiency",
      {| s_index := ["unit"; "transformer"];
         s_data := [("unit", CellStr "factor");
                    ("transformer", CellStr "[1;2;3]")] |}) =
  ([Log INFO (MsgDefinedAsList "efficiency" "transformer")],
   Ok ([("efficiency",
         value_unit (VList [VInt 1; VInt 2; VInt 3]) (VStr "factor"))], "")).
Proof.
  apply (@list_of_integers_is_converted nan_only no_json
           "energyConversion" "transformer" [] "" "efficiency"
           {| s_index := ["unit"; "transformer"];
              s_data := [("unit", CellStr "factor");
                         ("transformer", CellStr "[1;2;3]")] |}
           "[1;2;3]" "factor" [1; 2; 3]%Z);
    try reflexivity; try discriminate.
  vm_compute. repeat constructor.
Defined.

(* ================================================================= *)
(** ** Storage tables: parameters that a column does not take *)

Lemma df_at_other_column df i c c' x :
  df_at df i c = Some x -> exists y, df_at df i c' = Some y.
Proof.
  unfold df_at.
  destruct (filter (fun r => String.eqb (fst r) i) (df_rows df))
    as [|r [|? ?]]; try discriminate.
  intros _. now eexists.
Qed.

(** A loop that returns has returned from each of its steps. *)
Lemma for_each_ok_inv {A S : Type} (I : S -> Prop) (body : S -> A -> M S) l :
  (forall s a log s', I s -> body s a = (log, Ok s') -> I s') ->
  forall s log s',
    I s -> for_each body l s = (log, Ok s') ->
    forall a, In a l ->
      exists s1 log1 s2, I s1 /\ body s1 a = (log1, Ok s2).
Proof.
  intros Hbody. induction l as [|x l IH]; intros s log s' Hi H a Hin;
    [destruct Hin|].
  cbn [for_each] in H. apply bind_inv_ok in H.
  destruct H as (l1 & s1 & l2 & Hstep & Hrest & _).
  destruct Hin as [->|Hin].
  - now exists s, l1, s1.
  - apply (IH s1 l2 s'); try assumption. now apply (Hbody s x l1).
Qed.

Section UnwantedStorageParameter.
Context {F : PyFloat} {J : PyJson} {K : CsvConstants}.

Variables (filename column i : string) (column_parameters : list string).
Hypothesis not_required : ~ In i column_parameters.
Hypothesis not_unit_column : column <> "unit".

(** One step of the check, seen from the cell of [i] in [column]. *)
Lemma storage_check_row_unwanted df j u c :
  df_at df i "unit" = Some u ->
  df_at df i column = Some c ->
  exists log df',
    storage_check_row filename column column_parameters df j =
    (log, Ok df') /\
    df_columns df' = df_columns df /\
    df_at df' i "unit" = Some u /\
    (j <> i -> df_at df' i column = Some c) /\
    (j = i ->
     df_at df' i column =
     Some (if str_mem i storage_only_parameters && isnull c
           then c else CellStr "NaN") /\
     log =
     [if str_mem i storage_only_parameters
      then if isnull c
           then Log DEBUG (MsgStorageNaNCorrect filename i column)
           else Log WARNING (MsgStorageShouldBeNaN filename i column)
      else Log WARNING (MsgStorageParameterNotRecognized filename i)]).
Proof.
  intros Hu Hc. unfold storage_check_row.
  destruct (String.eqb_spec j i) as [->|Hne].
  - apply str_mem_false in not_required. rewrite not_required. cbn [negb].
    assert (Hset : df_at (df_set df i column (CellStr "NaN")) i "unit" =
                   Some u /\
                   df_at (df_set df i column (CellStr "NaN")) i column =
                   Some (CellStr "NaN")).
    { rewrite (df_at_set_same _ _ _ _ _ _ Hu), (df_at_set_same _ _ _ _ _ _ Hc).
      rewrite String.eqb_refl.
      destruct (String.eqb_spec column "unit"); [contradiction|now split]. }
    destruct Hset as [Hu' Hc'].
    destruct (str_mem i storage_only_parameters); cbn [negb andb].
    + rewrite Hc. destruct (isnull c); cbn [negb].
      * rewrite bind_logging. cbn [ret fst snd].
        eexists. eexists. split; [reflexivity|].
        repeat split; try assumption. congruence.
      * rewrite bind_logging. cbn [ret fst snd].
        eexists. eexists. split; [reflexivity|].
        repeat split; try assumption. congruence.
    + rewrite bind_logging. cbn [ret fst snd].
      eexists. eexists. split; [reflexivity|].
      repeat split; try assumption. congruence.
  - assert (Hset : forall v,
              df_at (df_set df j column v) i "unit" = Some u /\
              df_at (df_set df j column v) i column = Some c).
    { intros v. rewrite !df_at_set_other_row by congruence. now split. }
    destruct (negb (str_mem j column_parameters)).
    + destruct (negb (str_mem j storage_only_parameters)).
      * rewrite bind_logging. cbn [ret fst snd].
        eexists. eexists. split; [reflexivity|].
        destruct (Hset (CellStr "NaN")) as [H1 H2].
        repeat split; try assumption; intros; congruence.
      * destruct (match df_at df j column with
                  | Some c => negb (isnull c) | None => false end).
        -- rewrite bind_logging. cbn [ret fst snd].
           eexists. eexists. split; [reflexivity|].
           destruct (Hset (CellStr "NaN")) as [H1 H2].
           repeat split; try assumption; intros; congruence.
        -- rewrite bind_logging. cbn [ret fst snd].
           eexists. eexists. split; [reflexivity|].
           repeat split; try assumption; intros; congruence.
    + destruct (match df_at df j column with
                | Some c => isnull c | None => false end).
      * rewrite bind_logging. cbn [ret fst snd].
        eexists. eexists. split; [reflexivity|].
        destruct (Hset (CellInt 0)) as [H1 H2].
        repeat split; try assumption; intros; congruence.
      * eexists. eexists. split; [reflexivity|].
        repeat split; try assumption; intros; congruence.
Qed.

(** The loop of the check over a list of labels. *)
Lemma storage_check_rows_unwanted u l : forall df c,
  df_at df i "unit" = Some u ->
  df_at df i column = Some c ->
  exists log df',
    for_each (storage_check_row filename column column_parameters) l df =
    (log, Ok df') /\
    df_columns df' = df_columns df /\
    df_at df' i "unit" = Some u /\
    (~ In i l -> df_at df' i column = Some c) /\
    (In i l ->
     df_at df' i column =
     Some (if str_mem i storage_only_parameters && isnull c
           then c else CellStr "NaN") /\
     In (if str_mem i storage_only_parameters
         then if isnull c
              then Log DEBUG (MsgStorageNaNCorrect filename i column)
              else Log WARNING (MsgStorageShouldBeNaN filename i column)
         else Log WARNING (MsgStorageParameterNotRecognized filename i))
        log).
Proof.
  induction l as [|j l IH]; intros df c Hu Hc.
  - exists [], df. cbn. repeat split; tauto.
  - destruct (storage_check_row_unwanted df j u c Hu Hc)
      as (log1 & df1 & Hrun1 & Hcols1 & Hu1 & Hother1 & Hsame1).
    destruct (String.eqb_spec j i) as [->|Hne].
    + destruct (Hsame1 eq_refl) as [Hc1 Hlog1].
      destruct (IH df1 _ Hu1 Hc1)
        as (log2 & df2 & Hrun2 & Hcols2 & Hu2 & Hout2 & Hin2).
      exists (log1 ++ log2), df2. cbn [for_each].
      rewrite Hrun1, bind_ok, Hrun2. cbn [fst snd].
      split; [reflexivity|]. split; [congruence|]. split; [exact Hu2|].
      split; [intros Hno; exfalso; apply Hno; now left|].
      intros _. split.
      * destruct (in_dec string_dec i l) as [Hi|Hi].
        -- rewrite (proj1 (Hin2 Hi)).
           destruct (str_mem i storage_only_parameters), (isnull c) eqn:E;
             cbn [andb isnull]; try reflexivity. now rewrite E.
        -- exact (Hout2 Hi).
      * apply in_or_app. left. rewrite Hlog1. now left.
    + specialize (Hother1 Hne).
      destruct (IH df1 c Hu1 Hother1)
        as (log2 & df2 & Hrun2 & Hcols2 & Hu2 & Hout2 & Hin2).
      exists (log1 ++ log2), df2. cbn [for_each].
      rewrite Hrun1, bind_ok, Hrun2. cbn [fst snd].
      split; [reflexivity|]. split; [congruence|]. split; [exact Hu2|].
      split.
      * intros Hno. apply Hout2. intros Hi. apply Hno. now right.
      * intros [Heq|Hi]; [contradiction|].
        destruct (Hin2 Hi) as [Hc2 Hlog2]. split; [exact Hc2|].
        apply in_or_app. now right.
Qed.

End UnwantedStorageParameter.

Section StorageRows.
Context {F : PyFloat} {J : PyJson}.

(** The loop over the rows of a table: what the rows labelled [i] store
    is what the record holds for [i]. *)
Lemma convert_rows_node (P : value -> Prop) filename column i cols l :
  (forall r, In r l -> fst r = i ->
     forall cd names log cd' names',
       convert_row filename column (cd, names)
         (i, {| s_index := cols; s_data := snd r |}) =
       (log, Ok (cd', names')) ->
       exists node, dict_get cd' i = Some node /\ P node) ->
  forall cd names log cd' names',
    for_each (convert_row filename column)
      (map (fun r => (fst r, {| s_index := cols; s_data := snd r |})) l)
      (cd, names) = (log, Ok (cd', names')) ->
    (In i (map fst l) -> exists node, dict_get cd' i = Some node /\ P node) /\
    (~ In i (map fst l) -> dict_get cd' i = dict_get cd i).
Proof.
  induction l as [|[j data] l IH]; intros Hrows cd names log cd' names' H.
  - cbn in H. injection H as _ <- _. cbn. tauto.
  - cbn [map for_each fst snd] in H. apply bind_inv_ok in H.
    destruct H as (l1 & [cd1 names1] & l2 & Hrow & Hrest & _).
    assert (Hrows' : forall r, In r l -> fst r = i ->
              forall cd names log cd' names',
                convert_row filename column (cd, names)
                  (i, {| s_index := cols; s_data := snd r |}) =
                (log, Ok (cd', names')) ->
                exists node, dict_get cd' i = Some node /\ P node).
    { intros r Hin. apply Hrows. now right. }
    destruct (IH Hrows' _ _ _ _ _ Hrest) as [Hin Hout].
    cbn [map fst In].
    destruct (String.eqb_spec j i) as [->|Hne].
    + split; [|tauto]. intros _.
      destruct (in_dec string_dec i (map fst l)) as [Hi|Hi].
      * now apply Hin.
      * rewrite (Hout Hi).
        apply (Hrows (i, data) (or_introl eq_refl) eq_refl _ _ _ _ _ Hrow).
    + pose proof (convert_row_keeps_others _ _ _ _ _ _ _ _ _ Hrow i
                    (not_eq_sym Hne)) as Hk.
      split.
      * intros [Heq|Hi]; [contradiction|]. now apply Hin.
      * intros Hno. rewrite <- Hk. apply Hout. tauto.
Qed.

(** What the text ["NaN"] becomes under the unit [u]. *)
Lemma convert_row_nan_text filename column cd names i cols data u log cd'
    names' :
  cell_at data column = CellStr "NaN" ->
  cell_at data "unit" = u ->
  convert_row filename column (cd, names)
    (i, {| s_index := cols; s_data := data |}) = (log, Ok (cd', names')) ->
  exists node,
    dict_get cd' i = Some node /\
    ((cell_eq_str u "str" = true /\ node = VStr "NaN") \/
     (cell_eq_str u "str" = false /\ cell_eq_str u "bool" = true /\
      node = value_unit (VStr "NaN") (value_of_cell u)) \/
     (cell_eq_str u "str" = false /\ cell_eq_str u "bool" = false /\
      exists f, float_of_str "NaN" = Some f /\
                node = value_unit (VFloat f) (value_of_cell u))).
Proof.
  intros Hcell Hu H.
  assert (Hget : series_get {| s_index := cols; s_data := data |} column =
                 ret (CellStr "NaN")).
  { unfold convert_row in H. unfold series_get in *.
    cbn [s_index s_data] in *.
    destruct (str_mem column cols).
    - now rewrite Hcell.
    - destruct (String.eqb i "label"); discriminate H. }
  rewrite (convert_row_label _ _ _ _ _ _ _ Hget) in H.
  cbn [char_in Ascii.eqb Bool.eqb orb] in H.
  apply bind_inv_ok in H. destruct H as (l3 & cd1 & l4 & Hconv & H & _).
  injection H as _ <- _.
  unfold conversion, series_get in Hconv.
  cbn [str_with_either s_index s_data char_in Ascii.eqb Bool.eqb orb] in Hconv.
  destruct (str_mem "unit" cols); [|discriminate Hconv].
  rewrite bind_ret_l, Hu in Hconv.
  destruct (cell_eq_str u "str") eqn:Estr.
  - injection Hconv as _ <-. eexists. split; [apply dict_get_set_same|].
    left. now split.
  - destruct (cell_eq_str u "bool") eqn:Ebool.
    + cbn [cell_in str_mem existsb String.eqb Ascii.eqb Bool.eqb orb]
        in Hconv.
      rewrite bind_logging in Hconv. cbn [ret fst snd] in Hconv.
      rewrite bind_ok in Hconv. cbn [fst snd ret] in Hconv.
      injection Hconv as _ <-. eexists. split; [apply dict_get_set_same|].
      right. left. repeat split; reflexivity.
    + cbn [cell_eq_str String.eqb Ascii.eqb Bool.eqb int_or_float] in Hconv.
      change (int_of_str "NaN") with (@None Z) in Hconv.
      destruct (float_of_str "NaN") as [f|] eqn:Ef; [|discriminate Hconv].
      rewrite !bind_ret_l in Hconv. injection Hconv as _ <-.
      eexists. split; [apply dict_get_set_same|].
      right. right. repeat split. now exists f.
Qed.

End StorageRows.

Section UnwantedStorageColumn.
Context {F : PyFloat} {J : PyJson} {K : CsvConstants}.

(** What [convert_column] comes to for a column of a storage table
    that bears the name of a role, once the check has gone through. *)
Lemma convert_storage_column_inv add_storage filename parameters st column
    role log2 df' log st' :
  role_parameters column = Some role ->
  filename <> "energyStorage" ->
  for_each (storage_check_row filename column (parameters ++ role))
           (df_index (df_copy st)) (df_copy st) = (log2, Ok df') ->
  convert_column add_storage filename parameters true st column =
  (log, Ok st') ->
  exists log1 log3 cd names,
    log = (log1 ++ log2) ++ log3 /\
    for_each (convert_row filename column)
             (iterrows (df_notna df' column)) ([], asset_name_string st) =
    (log3, Ok (cd, names)) /\
    df_copy st' = df' /\
    single_dict st' = dict_set (single_dict st) column (VDict cd).
Proof.
  intros Hrole Hname Hrows Hrun.
  assert (Hcol : column <> "unit").
  { intros ->. discriminate Hrole. }
  destruct (storage_check_column_role filename column parameters (extra st)
              (df_copy st) role log2 df' Hrole Hrows) as [log1 Hcheck].
  unfold convert_column in Hrun.
  destruct (String.eqb_spec column "unit"); [contradiction|].
  cbn [negb] in Hrun. rewrite Hcheck, bind_ok in Hrun.
  cbn beta iota in Hrun.
  match type of Hrun with
  | context [for_each ?b ?l ?s] =>
      destruct (for_each b l s) as [log3 r3] eqn:Hconv
  end.
  destruct r3 as [[cd names]| |]; [|discriminate Hrun|discriminate Hrun].
  rewrite bind_ok in Hrun. cbn [fst snd] in Hrun.
  destruct (String.eqb_spec filename "energyStorage"); [contradiction|].
  rewrite !bind_ret_l in Hrun. cbn [ret] in Hrun.
  injection Hrun as <- <-.
  exists log1, log3, cd, names. cbn [df_copy single_dict].
  rewrite app_nil_r. repeat split.
Qed.

(** X21. A parameter of another role whose cell is empty is left out of
    the record of the column. *)
Theorem storage_parameter_of_another_role_is_left_out
    add_storage filename parameters st column role i log st' :
  role_parameters column = Some role ->
  filename <> "energyStorage" ->
  ~ In i (parameters ++ role) ->
  In i storage_only_parameters ->
  df_at (df_copy st) i column = Some CellNaN ->
  convert_column add_storage filename parameters true st column =
  (log, Ok st') ->
  In (Log DEBUG (MsgStorageNaNCorrect filename i column)) log /\
  df_at (df_copy st') i column = Some CellNaN /\
  parameter_of (single_dict st') column i = None.
Proof.
  intros Hrole Hname Hnot Honly Hnan Hrun.
  assert (Hcol : column <> "unit").
  { intros ->. discriminate Hrole. }
  destruct (df_at_other_column _ _ _ "unit" _ Hnan) as [u Hunit].
  destruct (storage_check_rows_unwanted filename column i (parameters ++ role)
              Hnot Hcol u (df_index (df_copy st)) (df_copy st) CellNaN
              Hunit Hnan)
    as (log2 & df' & Hrows & Hcols & Hu' & _ & Hin).
  destruct (Hin (df_at_in_index _ _ _ _ Hnan)) as [Hcell Hlog].
  apply str_mem_In in Honly. rewrite Honly in Hcell, Hlog.
  cbn [andb isnull] in Hcell, Hlog.
  destruct (convert_storage_column_inv _ _ _ _ _ _ _ _ _ _
              Hrole Hname Hrows Hrun)
    as (log1 & log3 & cd & names & -> & Hconv & -> & ->).
  split; [|split].
  - apply in_or_app. left. apply in_or_app. now right.
  - exact Hcell.
  - unfold parameter_of. rewrite dict_get_set_same.
    unfold iterrows, df_notna in Hconv. cbn [df_rows df_columns] in Hconv.
    set (kept := filter (fun r => negb (isnull (cell_at (snd r) column)))
                        (df_rows df')) in *.
    assert (Hnone : ~ In i (map fst kept)).
    { intros Hi. apply in_map_iff in Hi. destruct Hi as (r & Hl & Hr).
      apply filter_In in Hr. destruct Hr as [Hr Hkeep].
      unfold df_at in Hcell.
      destruct (filter (fun r => String.eqb (fst r) i) (df_rows df'))
        as [|r0 [|? ?]] eqn:Hf; try discriminate.
      injection Hcell as Hcell.
      assert (Hrf : In r (filter (fun r => String.eqb (fst r) i)
                                 (df_rows df'))).
      { apply filter_In. split; [assumption|]. now apply String.eqb_eq. }
      rewrite Hf in Hrf. destruct Hrf as [<-|[]].
      rewrite Hcell in Hkeep. discriminate. }
    apply (proj2 (convert_rows_node (fun _ => True) filename column i
                    (df_columns df') kept
                    (fun r Hr Hl => False_ind _
                       (Hnone (proj2 (in_map_iff fst kept i)
                                 (ex_intro _ r (conj Hl Hr)))))
                    _ _ _ _ _ Hconv) Hnone).
Qed.

(** X22. A parameter that the column does not take and whose cell holds a
    value is not left out: the cell is overwritten with the text
    ["NaN"], and the record of the column holds what that text becomes
    under the unit of the row. *)
Theorem storage_parameter_out_of_place_becomes_NaN
    add_storage filename parameters st column role i c u log st' :
  role_parameters column = Some role ->
  filename <> "energyStorage" ->
  ~ In i (parameters ++ role) ->
  df_at (df_copy st) i column = Some c ->
  df_at (df_copy st) i "unit" = Some u ->
  (In i storage_only_parameters -> isnull c = false) ->
  convert_column add_storage filename parameters true st column =
  (log, Ok st') ->
  In (Log WARNING
        (if str_mem i storage_only_parameters
         then MsgStorageShouldBeNaN filename i column
         else MsgStorageParameterNotRecognized filename i)) log /\
  df_at (df_copy st') i column = Some (CellStr "NaN") /\
  exists node,
    parameter_of (single_dict st') column i = Some node /\
    ((cell_eq_str u "str" = true /\ node = VStr "NaN") \/
     (cell_eq_str u "str" = false /\ cell_eq_str u "bool" = true /\
      node = value_unit (VStr "NaN") (value_of_cell u)) \/
     (cell_eq_str u "str" = false /\ cell_eq_str u "bool" = false /\
      exists f, float_of_str "NaN" = Some f /\
                node = value_unit (VFloat f) (value_of_cell u))).
Proof.
  intros Hrole Hname Hnot Hc Hunit Hvalue Hrun.
  assert (Hcol : column <> "unit").
  { intros ->. discriminate Hrole. }
  destruct (storage_check_rows_unwanted filename column i (parameters ++ role)
              Hnot Hcol u (df_index (df_copy st)) (df_copy st) c Hunit Hc)
    as (log2 & df' & Hrows & Hcols & Hu' & _ & Hin).
  destruct (Hin (df_at_in_index _ _ _ _ Hc)) as [Hcell Hlog].
  assert (Hexp : str_mem i storage_only_parameters && isnull c = false).
  { destruct (str_mem i storage_only_parameters) eqn:E; [|reflexivity].
    apply str_mem_In in E. now rewrite (Hvalue E). }
  rewrite Hexp in Hcell.
  assert (Hmsg : In (Log WARNING
                       (if str_mem i storage_only_parameters
                        then MsgStorageShouldBeNaN filename i column
                        else MsgStorageParameterNotRecognized filename i))
                    log2).
  { destruct (str_mem i storage_only_parameters) eqn:E; [|exact Hlog].
    apply str_mem_In in E. now rewrite (Hvalue E) in Hlog. }
  destruct (convert_storage_column_inv _ _ _ _ _ _ _ _ _ _
              Hrole Hname Hrows Hrun)
    as (log1 & log3 & cd & names & -> & Hconv & -> & ->).
  split; [|split].
  - apply in_or_app. left. apply in_or_app. now right.
  - exact Hcell.
  - unfold parameter_of. rewrite dict_get_set_same.
    unfold iterrows, df_notna in Hconv. cbn [df_rows df_columns] in Hconv.
    unfold df_at in Hcell, Hu'.
    destruct (filter (fun r => String.eqb (fst r) i) (df_rows df'))
      as [|r0 [|? ?]] eqn:Hf; try discriminate.
    injection Hcell as Hcell. injection Hu' as Hu'.
    assert (Hr0 : In r0 (df_rows df') /\ String.eqb (fst r0) i = true).
    { apply (proj1 (filter_In (fun r => String.eqb (fst r) i) r0
                              (df_rows df'))).
      rewrite Hf. now left. }
    destruct Hr0 as [Hr0 Hl0]. apply String.eqb_eq in Hl0.
    set (kept := filter (fun r => negb (isnull (cell_at (snd r) column)))
                        (df_rows df')) in *.
    assert (Hall : forall r, In r kept -> fst r = i ->
              cell_at (snd r) column = CellStr "NaN" /\
              cell_at (snd r) "unit" = u).
    { intros r Hr Hl. apply filter_In in Hr. destruct Hr as [Hr _].
      assert (Hrf : In r (filter (fun r => String.eqb (fst r) i)
                                 (df_rows df'))).
      { apply filter_In. split; [assumption|]. now apply String.eqb_eq. }
      rewrite Hf in Hrf. destruct Hrf as [<-|[]]. now split. }
    apply (proj1 (convert_rows_node _ filename column i
                    (df_columns df') kept
                    (fun r Hr Hl cd0 names0 log0 cd0' names0' Hrow =>
                       convert_row_nan_text filename column cd0 names0 i
                         (df_columns df') (snd r) u log0 cd0' names0'
                         (proj1 (Hall r Hr Hl)) (proj2 (Hall r Hr Hl)) Hrow)
                    _ _ _ _ _ Hconv)).
    apply in_map_iff. exists r0. split; [assumption|].
    apply filter_In. split; [assumption|]. now rewrite Hcell.
Qed.

End UnwantedStorageColumn.

(* ================================================================= *)
(** ** Labels *)

Section LabelProperties.
Context {F : PyFloat} {J : PyJson} {K : CsvConstants}.

(** The label of an asset is appended to a text; a cell that holds no
    text ends the row in [TypeError]. *)
Lemma convert_row_label_not_text filename column st row c :
  series_get row column = ret c ->
  (forall s, c <> CellStr s) ->
  convert_row filename column st ("label", row) = ([], Raise TypeError).
Proof.
  intros Hcell Hc. unfold convert_row. destruct st as [cd names].
  cbn [String.eqb Ascii.eqb Bool.eqb]. rewrite Hcell, bind_ret_l.
  destruct c as [s| |z]; [now destruct (Hc s)|reflexivity|reflexivity].
Qed.

Lemma convert_column_plain_df add_storage filename parameters st column log
    st' :
  convert_column add_storage filename parameters false st column =
  (log, Ok st') ->
  df st' = df st.
Proof.
  unfold convert_column. intros H.
  destruct (negb (String.eqb column "unit")); [|now injection H as _ <-].
  rewrite bind_ret_l in H.
  apply bind_inv_ok in H. destruct H as (l1 & [cd names] & l2 & _ & H & _).
  apply bind_inv_ok in H. destruct H as (l3 & sd & l4 & _ & H & _).
  now injection H as _ <-.
Qed.

(** X23. Every asset needs a label that is text: a table whose row
    [label] has an empty cell in the column of an asset is not
    converted. *)
Theorem asset_without_label_is_refused fuel (fs : filesystem) filename
    parameters log0 table column data log d :
  find_separator fs filename CSV_SEPARATORS = (log0, Ok table) ->
  In column (df_columns table) -> column <> "unit" ->
  In ("label", data) (df_rows table) ->
  (forall s, cell_at data column <> CellStr s) ->
  snd (create_json_from_csv fuel fs filename parameters false) <>
  (log, Ok d).
Proof.
  intros Hread Hcolumn Hunit Hrow Hcell H.
  destruct fuel as [|fuel]; [discriminate|].
  cbn [create_json_from_csv] in H. unfold create_json_from_csv_body in H.
  rewrite bind_logging, Hread in H. cbn [fst snd] in H.
  apply bind_inv_ok in H. destruct H as (l1 & [] & l2 & _ & H & _).
  apply bind_inv_ok in H. destruct H as (l3 & [] & l4 & _ & H & _).
  apply bind_inv_ok in H. destruct H as (l5 & [] & l6 & _ & H & _).
  unfold convert_table in H.
  apply bind_inv_ok in H. destruct H as (l7 & [] & l8 & _ & H & _).
  apply bind_inv_ok in H. destruct H as (l9 & st & l10 & Hcols & _).
  assert (Hstep : exists st1 log1 st2,
            df st1 = table /\
            convert_column
              (add_storage_components_with (create_json_from_csv fuel fs) fs)
              filename
              (if str_mem "maximumCap" (df_index table)
               then parameters ++ ["maximumCap"] else parameters)
              false st1 column = (log1, Ok st2)).
  { eapply (for_each_ok_inv (fun st => df st = table));
      [| |exact Hcols|exact Hcolumn].
    - intros s a lg s' Hi Hst.
      rewrite (convert_column_plain_df _ _ _ _ _ _ _ Hst). exact Hi.
    - reflexivity. }
  destruct Hstep as (st1 & log1 & st2 & Hdf & Hstep).
  unfold convert_column in Hstep.
  destruct (String.eqb_spec column "unit"); [contradiction|].
  cbn [negb] in Hstep. rewrite bind_ret_l, Hdf in Hstep.
  apply bind_inv_ok in Hstep.
  destruct Hstep as (l11 & [cd names] & l12 & Hrows & _).
  assert (Hlabel : exists s1 log2 s2,
            True /\
            convert_row filename column s1
              ("label", {| s_index := df_columns table; s_data := data |}) =
            (log2, Ok s2)).
  { eapply (for_each_ok_inv (fun _ => True));
      [auto|exact I|exact Hrows|].
    unfold iterrows. apply in_map_iff. now exists ("label", data). }
  destruct Hlabel as (s1 & log2 & s2 & _ & Hlabel).
  rewrite (convert_row_label_not_text _ _ _ _ (cell_at data column))
      in Hlabel; [discriminate| |exact Hcell].
    unfold series_get. cbn [s_index s_data].
    apply str_mem_In in Hcolumn. now rewrite Hcolumn.
Qed.

(** X24. In a storage table an empty label is first set to [0] and then
    stops the conversion of the column. *)
Theorem storage_column_without_label_is_refused add_storage filename
    parameters st column role log st' :
  role_parameters column = Some role ->
  In "label" (parameters ++ role) ->
  In column (df_columns (df_copy st)) ->
  df_at (df_copy st) "label" column = Some CellNaN ->
  convert_column add_storage filename parameters true st column <>
  (log, Ok st').
Proof.
  intros Hrole Hreq Hcolumn Hnan Hrun.
  assert (Hcol : column <> "unit").
  { intros ->. discriminate Hrole. }
  destruct (df_at_other_column _ _ _ "unit" _ Hnan) as [u Hunit].
  destruct (storage_check_rows_cell filename column "label"
              (parameters ++ role) Hreq Hcol u (df_index (df_copy st))
              (df_copy st) Hunit (or_introl Hnan))
    as (log2 & df' & Hrows & Hcols & _ & Hzero & _).
  specialize (Hzero (df_at_in_index _ _ _ _ Hnan)).
  destruct (storage_check_column_role filename column parameters (extra st)
              (df_copy st) role log2 df' Hrole Hrows) as [log1 Hcheck].
  unfold convert_column in Hrun.
  destruct (String.eqb_spec column "unit"); [contradiction|].
  cbn [negb] in Hrun. rewrite Hcheck, bind_ok in Hrun.
  cbn beta iota in Hrun.
  match type of Hrun with
  | context [for_each ?b ?l ?s] =>
      destruct (for_each b l s) as [log3 r3] eqn:Hconv
  end.
  destruct r3 as [[cd names]| |]; [|discriminate Hrun|discriminate Hrun].
  clear Hrun.
  unfold df_at in Hzero.
  destruct (filter (fun r => String.eqb (fst r) "label") (df_rows df'))
    as [|r0 [|? ?]] eqn:Hf; try discriminate.
  injection Hzero as Hzero.
  assert (Hr0 : In r0 (df_rows df') /\ String.eqb (fst r0) "label" = true).
  { apply (proj1 (filter_In (fun r => String.eqb (fst r) "label") r0
                            (df_rows df'))).
    rewrite Hf. now left. }
  destruct Hr0 as [Hr0 Hl0]. apply String.eqb_eq in Hl0.
  assert (Hlabel : exists s1 log4 s2,
            True /\
            convert_row filename column s1
              ("label", {| s_index := df_columns df'; s_data := snd r0 |}) =
            (log4, Ok s2)).
  { eapply (for_each_ok_inv (fun _ => True));
      [auto|exact I|exact Hconv|].
    unfold iterrows, df_notna. cbn [df_rows df_columns].
    apply in_map_iff. exists r0. split; [now rewrite Hl0|].
    apply filter_In. split; [assumption|]. now rewrite Hzero. }
  destruct Hlabel as (s1 & log4 & s2 & _ & Hlabel).
  rewrite (convert_row_label_not_text _ _ _ _ (CellInt 0)) in Hlabel;
      [discriminate| |discriminate].
    unfold series_get. cbn [s_index s_data]. rewrite Hcols.
    apply str_mem_In in Hcolumn. now rewrite Hcolumn, Hzero.
Qed.

End LabelProperties.

(** *** Closed instances *)

Lemma storage_parameter_of_another_role_is_left_out_witness :
  exists log st',
    @convert_column nan_only no_json (fun _ => ret None) "storage_01"
       storage_parameters true
       {| single_dict := []; asset_name_string := "";
          df := storage_table; df_copy := storage_table; extra := None |}
       "storage capacity" = (log, Ok st') /\
    In (Log DEBUG (MsgStorageNaNCorrect "storage_01" "c_rate"
                     "storage capacity")) log /\
    df_at (df_copy st') "c_rate" "storage capacity" = Some CellNaN /\
    parameter_of (single_dict st') "storage capacity" "c_rate" = None.
Proof.
  eexists. eexists. split; [vm_compute; reflexivity|].
  apply (@storage_parameter_of_another_role_is_left_out nan_only no_json
           (fun _ => ret None) "storage_01" storage_parameters
           {| single_dict := []; asset_name_string := "";
              df := storage_table; df_copy := storage_table; extra := None |}
           "storage capacity" ["soc_initial"; "soc_max"; "soc_min"] "c_rate").
  - reflexivity.
  - discriminate.
  - simpl. intuition discriminate.
  - left. reflexivity.
  - reflexivity.
  - vm_compute; reflexivity.
Defined.

Lemma storage_parameter_out_of_place_becomes_NaN_witness :
  exists log st',
    @convert_column nan_literal no_json_nan_literal (fun _ => ret None)
       "storage_01" storage_parameters true
       {| single_dict := []; asset_name_string := "";
          df := storage_table_out_of_place;
          df_copy := storage_table_out_of_place; extra := None |}
       "storage capacity" = (log, Ok st') /\
    In (Log WARNING (MsgStorageShouldBeNaN "storage_01" "c_rate"
                       "storage capacity")) log /\
    df_at (df_copy st') "c_rate" "storage capacity" = Some (CellStr "NaN") /\
    parameter_of (single_dict st') "storage capacity" "c_rate" =
    Some (value_unit (VFloat (float_nan (PyFloat := nan_literal)))
            (VStr "factor")).
Proof.
  eexists. eexists. split; [vm_compute; reflexivity|].
  destruct (@storage_parameter_out_of_place_becomes_NaN nan_literal
              no_json_nan_literal (fun _ => ret None) "storage_01"
              storage_parameters
              {| single_dict := []; asset_name_string := "";
                 df := storage_table_out_of_place;
                 df_copy := storage_table_out_of_place; extra := None |}
              "storage capacity" ["soc_initial"; "soc_max"; "soc_min"]
              "c_rate" (CellStr "1") (CellStr "factor") _ _
              eq_refl ltac:(discriminate)
              ltac:(simpl; intuition discriminate)
              eq_refl eq_refl (fun _ => eq_refl)
              ltac:(vm_compute; reflexivity))
    as (Hlog & Hcell & _).
  split; [exact Hlog|]. split; [exact Hcell|]. reflexivity.
Defined.

Lemma asset_without_label_is_refused_witness :
  @find_separator nan_only
     [("energyProduction.csv", comma_separated table_without_label)]
     "energyProduction" [","; ";"; "&"] = ([], Ok table_without_label) /\
  forall log d,
    snd (@create_json_from_csv nan_only no_json example_constants 1
           [("energyProduction.csv", comma_separated table_without_label)]
           "energyProduction" ["label"; "installedCap"] false) <>
    (log, Ok d).
Proof.
  split; [reflexivity|]. intros log d.
  apply (@asset_without_label_is_refused nan_only no_json example_constants
           1 [("energyProduction.csv", comma_separated table_without_label)]
           "energyProduction" ["label"; "installedCap"] []
           table_without_label "pv" [("unit", CellStr "str")] log d).
  - reflexivity.
  - right. left. reflexivity.
  - discriminate.
  - left. reflexivity.
  - intros s. vm_compute. discriminate.
Defined.

Lemma storage_column_without_label_is_refused_witness :
  df_at storage_table_out_of_place "label" "output power" = Some CellNaN /\
  forall log st',
    @convert_column nan_only no_json (fun _ => ret None) "storage_01"
       storage_parameters true
       {| single_dict := []; asset_name_string := "";
          df := storage_table_out_of_place;
          df_copy := storage_table_out_of_place; extra := None |}
       "output power" <> (log, Ok st').
Proof.
  split; [reflexivity|]. intros log st'.
  apply (@storage_column_without_label_is_refused nan_only no_json
           (fun _ => ret None) "storage_01" storage_parameters
           {| single_dict := []; asset_name_string := "";
              df := storage_table_out_of_place;
              df_copy := storage_table_out_of_place; extra := None |}
           "output power" ["c_rate"; "opex_var"] log st').
  - reflexivity.
  - simpl. tauto.
  - simpl. tauto.
  - reflexivity.
Defined.

(* ================================================================= *)
(** ** A path that breaks off: [set_nested_value] and [get_nested_value] *)

Section BrokenPath.
Context {F : PyFloat}.

Lemma getitem_extends (v : hval) k (h : heap) r ext :
  getitem v k h = (h, ([], r)) -> r <> OutOfFuel ->
  getitem v k (h ++ ext) = (h ++ ext, ([], r)).
Proof.
  destruct v; try (cbn; intros H _; now injection H as <-).
  cbn [getitem]. unfold sm_bind, deref.
  destruct (nth_error h l) as [o|] eqn:E.
  - rewrite (nth_error_extends h ext l)
      by (apply nth_error_Some; congruence).
    rewrite E. cbn. destruct o as [entries|items]; cbn.
    + destruct (dict_get entries k); cbn; intros H _; now injection H as <-.
    + intros H _. now injection H as <-.
  - cbn. intros H Hr. injection H as <-. congruence.
Qed.

(** What a heap value holds under a key is what the value it denotes
    holds under it. *)
Lemma aligned_get_back {A B : Type} (R : A -> B -> Prop)
    (es : list (string * A)) (d : list (string * B)) k x :
  map fst es = map fst d ->
  Forall2 R (map snd es) (map snd d) ->
  dict_get es k = Some x ->
  exists y, dict_get d k = Some y /\ R x y.
Proof.
  revert d. induction es as [|[k1 x1] es IH]; intros [|[k2 y2] d] Hk Hv Hget;
    try discriminate.
  cbn in Hk, Hv, Hget. injection Hk as <- Hk.
  inversion Hv as [|? ? ? ? Hxy Hrest]; subst. cbn.
  destruct (String.eqb k1 k).
  - injection Hget as <-. now exists y2.
  - now apply IH.
Qed.

Lemma getitem_denotes (P : loc -> Prop) (h : heap) v t k sub :
  denotes P h v t ->
  getitem v k h = (h, ([], Ok sub)) ->
  exists d tsub, t = VDict d /\ dict_get d k = Some tsub /\
                 denotes P h sub tsub.
Proof.
  intros Hden Hget. inversion Hden as [| | | | |l entries d Hp Hl Hk Hv
                                       |l items vs Hp Hl Hv]; subst;
    try discriminate Hget.
  - cbn [getitem] in Hget. unfold sm_bind, deref in Hget.
    rewrite Hl in Hget. cbn in Hget.
    destruct (dict_get entries k) as [x|] eqn:E; [|discriminate Hget].
    cbn in Hget. injection Hget as <-.
    destruct (aligned_get_back _ _ _ _ _ Hk Hv E) as (y & Hy & Hxy).
    now exists d, y.
  - cbn [getitem] in Hget. unfold sm_bind, deref in Hget.
    rewrite Hl in Hget. discriminate Hget.
Qed.

Lemma set_nested_value_tuple_raises (h0 : heap) value k_last e :
  forall keys dct t fuel (h : heap),
    denotes (fun l => l < List.length h0) h0 dct t ->
    (exists x, h = h0 ++ x) ->
    depth t <= fuel ->
    keys <> [] ->
    get_nested_value_tuple dct keys h0 = (h0, ([], Raise e)) ->
    exists ext,
      set_nested_value_tuple fuel dct value (keys ++ [k_last]) h =
      (h ++ ext, ([], Raise e)).
Proof.
  induction keys as [|k rest IH]; intros dct t fuel h Hden Hext Hdepth Hne Hget;
    [congruence|].
  destruct (deepcopy_denotes h0 (fun l => l < List.length h0) dct t
              (fun l H => H) Hden fuel h Hext Hdepth)
    as (ext & a & Hcopy & _).
  destruct Hext as [x ->].
  destruct rest as [|k2 rest].
  - exists ext. cbn [app get_nested_value_tuple] in *.
    change (set_nested_value_tuple fuel dct value [k; k_last])
      with (sm_bind (deepcopy fuel dct)
              (fun answer =>
                 sm_bind (getitem dct k)
                   (fun sub =>
                      sm_bind (set_nested_value_tuple fuel sub value [k_last])
                        (fun new => sm_bind (setitem answer k new)
                                      (fun _ => sm_ret answer))))).
    rewrite (sm_bind_run _ _ _ _ _ Hcopy).
    unfold sm_bind at 1. rewrite <- app_assoc.
    rewrite (getitem_extends dct k h0 (Raise e) (x ++ ext) Hget)
      by discriminate.
    reflexivity.
  - change (get_nested_value_tuple dct (k :: k2 :: rest))
      with (sm_bind (getitem dct k)
              (fun sub => get_nested_value_tuple sub (k2 :: rest))) in Hget.
    change (set_nested_value_tuple fuel dct value
              ((k :: k2 :: rest) ++ [k_last]))
      with (sm_bind (deepcopy fuel dct)
              (fun answer =>
                 sm_bind (getitem dct k)
                   (fun sub =>
                      sm_bind (set_nested_value_tuple fuel sub value
                                 ((k2 :: rest) ++ [k_last]))
                        (fun new => sm_bind (setitem answer k new)
                                      (fun _ => sm_ret answer))))).
    apply sm_bind_inv in Hget.
    destruct Hget as [(h1 & l1 & sub & l2 & Hitem & Hrest & Hlog)
                     |[(e' & Hitem & He)|[_ ?]]]; [| |discriminate].
    + pose proof (getitem_reads _ _ _ _ _ Hitem) as ->.
      symmetry in Hlog. apply app_eq_nil in Hlog. destruct Hlog as [-> ->].
      destruct (getitem_denotes _ _ _ _ _ _ Hden Hitem)
        as (d & tsub & -> & Hsub & Hdsub).
      pose proof (depth_entry d k tsub Hsub) as Hlt.
      destruct (IH sub tsub fuel ((h0 ++ x) ++ ext) Hdsub
                  (ex_intro _ (x ++ ext) (eq_sym (app_assoc _ _ _)))
                  ltac:(lia) ltac:(discriminate) Hrest)
        as (ext2 & Hrec).
      exists (ext ++ ext2).
      rewrite (sm_bind_run _ _ _ _ _ Hcopy).
      assert (Hitem' : getitem dct k ((h0 ++ x) ++ ext) =
                       ((h0 ++ x) ++ ext, ([], Ok sub))).
      { rewrite <- app_assoc. apply getitem_extends; [exact Hitem|discriminate]. }
      rewrite (sm_bind_run _ _ _ _ _ Hitem').
      unfold sm_bind at 1. rewrite Hrec. now rewrite <- app_assoc.
    + injection He as <-. exists ext.
      rewrite (sm_bind_run _ _ _ _ _ Hcopy).
      unfold sm_bind at 1. rewrite <- app_assoc.
      rewrite (getitem_extends dct k h0 (Raise e) (x ++ ext) Hitem)
        by discriminate.
      reflexivity.
Qed.

(** X25. When the walk to the dict that holds the last key fails,
    [set_nested_value] fails with the same exception. *)
Theorem set_nested_value_raises_as_the_walk fuel (h : heap) dct t value
    keys k_last e :
  represents h dct t ->
  depth t <= fuel ->
  keys <> [] ->
  get_nested_value dct (KeysTuple keys) h = (h, ([], Raise e)) ->
  exists ext,
    set_nested_value fuel dct value (KeysTuple (keys ++ [k_last])) h =
    (h ++ ext, ([], Raise e)).
Proof.
  intros Hdct Hdepth Hne Hget.
  assert (Hdct' : denotes (fun l => l < List.length h) h dct t).
  { apply denotes_bound in Hdct.
    eapply denotes_weaken; [|exact Hdct]. cbn beta.
    intros l [_ Hl]. now split. }
  apply (set_nested_value_tuple_raises h value k_last e keys dct t fuel h
           Hdct' (ex_intro _ [] (eq_sym (app_nil_r h))) Hdepth Hne Hget).
Qed.

End BrokenPath.

(* ================================================================= *)
(** ** Numbers stay numbers: [conversion] *)

Section NumericProperties.
Context {F : PyFloat} {J : PyJson}.

(** X26. Under a unit other than ["str"] and ["bool"] a text without
    braces is stored as [None], as an integer or as a float, and never
    as text; a text that is none of these ends in [ValueError]. *)
Theorem numeric_parameter_is_never_text filename column_dict row i column
    s u :
  series_get row "unit" = ret (CellStr u) ->
  u <> "str" -> u <> "bool" ->
  char_in "{" s = false -> char_in "}" s = false ->
  (exists v,
     conversion filename column_dict row i column (CellStr s) =
     ([], Ok (dict_set column_dict i (value_unit v (VStr u)))) /\
     ((s = "None" /\ v = VNone) \/
      (exists z, int_of_str s = Some z /\ v = VInt z) \/
      (exists f, int_of_str s = None /\ float_of_str s = Some f /\
                 v = VFloat f))) \/
  (int_of_str s = None /\ float_of_str s = None /\
   conversion filename column_dict row i column (CellStr s) =
   ([], Raise ValueError)).
Proof.
  intros Hunit Hstr Hbool Hl Hr.
  unfold conversion. cbn [str_with_either]. rewrite Hl, Hr. cbn [orb].
  rewrite Hunit, bind_ret_l. cbn [cell_eq_str value_of_cell].
  destruct (String.eqb_spec u "str"); [contradiction|].
  destruct (String.eqb_spec u "bool"); [contradiction|].
  destruct (String.eqb_spec s "None") as [->|Hnone].
  - left. exists VNone. rewrite bind_ret_l. split; [reflexivity|]. now left.
  - cbn [int_or_float].
    destruct (int_of_str s) as [z|] eqn:Ez.
    + left. exists (VInt z). rewrite bind_ret_l. split; [reflexivity|].
      right. left. now exists z.
    + destruct (float_of_str s) as [f|] eqn:Ef.
      * left. exists (VFloat f). rewrite bind_ret_l. split; [reflexivity|].
        right. right. now exists f.
      * right. repeat split.
Qed.

End NumericProperties.

(* ================================================================= *)
(** ** The lists of extra parameters *)

Section ExtraNames.
Context {F : PyFloat} {C : MvsConstants} {E : MvsFiles}.




End ExtraNames.

(** *** Closed instances *)

Lemma set_nested_value_raises_as_the_walk_witness :
  get_nested_value (HRef 2) (KeysTuple ["x"]) example_heap =
  (example_heap, ([], Raise KeyError)) /\
  exists ext,
    set_nested_value 3 (HRef 2) (HInt 400) (KeysTuple (["x"] ++ ["y"]))
      example_heap = (example_heap ++ ext, ([], Raise KeyError)).
Proof.
  split; [reflexivity|].
  apply (@set_nested_value_raises_as_the_walk nan_only 3 example_heap
           (HRef 2) example_heap_value (HInt 400) ["x"] "y" KeyError).
  - exact example_heap_represents.
  - vm_compute. lia.
  - discriminate.
  - reflexivity.
Defined.

Lemma numeric_parameter_is_never_text_witness :
  exists v,
    @conversion nan_only no_json "energyProduction" []
       {| s_index := ["unit"; "pv"];
          s_data := [("unit", CellStr "kWp"); ("pv", CellStr "50")] |}
       "installedCap" "pv" (CellStr "50") =
    ([], Ok [("installedCap", value_unit v (VStr "kWp"))]) /\
    v = VInt 50.
Proof.
  destruct (@numeric_parameter_is_never_text nan_only no_json
              "energyProduction" []
              {| s_index := ["unit"; "pv"];
                 s_data := [("unit", CellStr "kWp"); ("pv", CellStr "50")] |}
              "installedCap" "pv" "50" "kWp"
              eq_refl ltac:(discriminate) ltac:(discriminate)
              eq_refl eq_refl)
    as [(v & Hv & Hcase)|(Hint & _)].
  - exists v. split; [exact Hv|].
    destruct Hcase as [(Hnone & _)|[(z & Hz & ->)|(f & Hnot & _)]].
    + discriminate Hnone.
    + vm_compute in Hz. now injection Hz as <-.
    + vm_compute in Hnot. discriminate Hnot.
  - vm_compute in Hint. discriminate Hint.
Defined.

